(** * Longterm memory: observation enrichment and semantic retrieval

    A shallow embedding of the chunker, the classifier, the embedding
    provider chain, the chunk-and-archive step of the embedding pass and the
    semantic retrieval endpoint, together with the properties the
    specification states about them; and, with further properties, of the
    other handlers of the dashboard that read or delete one observation,
    of the search of the command line and of the native messaging loop of
    the browser host.

    Conventions of the embedding.
    - A Python [str] is a [string]: a sequence of characters whose code
      points lie below 256.  Whitespace ([str.strip], [str.split], the
      regular expression class [\s]) and decimal digits ([\d]) are the
      Unicode classes restricted to that range.
    - The importance scores are binary64 floats ([PrimFloat]), as in Python.
    - A similarity or a distance computed by the database is the exact
      rational value of the double it returns, or NaN, which the cosine
      distance of a zero vector is; the database compares and sorts NaN as
      equal to itself and above every number.
    - A [LIMIT] or an [OFFSET] is a [bigint]: above 2^63 - 1 the database
      refuses the query.
    - Tables are finite maps from the primary key [id] to rows.
    - The standard input and output of the browser host are lists of
      bytes. *)

From Stdlib Require Import String Ascii List ZArith QArith Qround Floats Bool Lia Lqa.
From Stdlib Require Import DecimalString.
From Stdlib Require Strings.Byte.
From stdpp Require Import gmap strings list fin_maps sorting.

Set Warnings "-inexact-float,-register-all".

Import ListNotations.
Local Open Scope string_scope.
Local Open Scope Z_scope.

(** ** Python strings *)

Module Text.

(** [len(s)] *)
Definition len (s : string) : Z := Z.of_nat (String.length s).

(** The characters for which [str.isspace] holds, which are also the ones
    [\s] matches: tab to carriage return, the four separators 0x1c-0x1f,
    the blank, NEL and the no-break space. *)
Definition is_space (c : ascii) : bool :=
  let n := N_of_ascii c in
  ((9 <=? n) && (n <=? 13) || (28 <=? n) && (n <=? 32) || (n =? 133) || (n =? 160))%N.

(** [\d] *)
Definition is_digit (c : ascii) : bool :=
  let n := N_of_ascii c in ((48 <=? n) && (n <=? 57))%N.

(** [str.lower] on one character: A-Z, and the Latin-1 capitals
    0xC0-0xDE except the multiplication sign. *)
Definition lower_char (c : ascii) : ascii :=
  let n := N_of_ascii c in
  if ((65 <=? n) && (n <=? 90) || (192 <=? n) && (n <=? 222) && negb (n =? 215))%N
  then ascii_of_N (n + 32) else c.

Fixpoint lower (s : string) : string :=
  match s with
  | EmptyString => EmptyString
  | String c s' => String (lower_char c) (lower s')
  end.

Definition is_empty (s : string) : bool :=
  match s with EmptyString => true | _ => false end.

Fixpoint lstrip (s : string) : string :=
  match s with
  | EmptyString => EmptyString
  | String c s' => if is_space c then lstrip s' else s
  end.

Fixpoint rstrip (s : string) : string :=
  match s with
  | EmptyString => EmptyString
  | String c s' =>
      let r := rstrip s' in
      if is_space c && is_empty r then EmptyString else String c r
  end.

(** [s.strip()] *)
Definition strip (s : string) : string := rstrip (lstrip s).

(** The truth value of [s.strip()]. *)
Definition nonblank (s : string) : bool := negb (is_empty (strip s)).

Fixpoint first_chars (n : nat) (s : string) : string :=
  match n, s with
  | S n', String c s' => String c (first_chars n' s')
  | _, _ => EmptyString
  end.

Fixpoint skip_chars (n : nat) (s : string) : string :=
  match n, s with
  | S n', String _ s' => skip_chars n' s'
  | _, _ => s
  end.

(** [s[:n]]; a negative [n] counts from the end. *)
Definition slice_to (n : Z) (s : string) : string :=
  if n <? 0 then first_chars (Z.to_nat (len s + n)) s else first_chars (Z.to_nat n) s.

(** [s[n:]] for [n >= 0]. *)
Definition slice_from (n : Z) (s : string) : string := skip_chars (Z.to_nat n) s.

Fixpoint starts_with (p s : string) : bool :=
  match p, s with
  | EmptyString, _ => true
  | String a p', String b s' => Ascii.eqb a b && starts_with p' s'
  | _, _ => false
  end.

(** [p in s] for two strings. *)
Fixpoint contains (p s : string) : bool :=
  starts_with p s ||
  match s with
  | EmptyString => false
  | String _ s' => contains p s'
  end.

Fixpoint concat_all (l : list string) : string :=
  match l with
  | [] => EmptyString
  | s :: l' => s ++ concat_all l'
  end.

(** [sep.join(l)] *)
Fixpoint join (sep : string) (l : list string) : string :=
  match l with
  | [] => EmptyString
  | [s] => s
  | s :: l' => s ++ sep ++ join sep l'
  end.

(** Prepends a character to the first piece of a split. *)
Definition cons_char (c : ascii) (pieces : list string) : list string :=
  match pieces with
  | [] => [String c EmptyString]
  | p :: ps => String c p :: ps
  end.

(** [s.split(sep)] for a one-character separator: every occurrence
    splits, empty pieces are kept. *)
Fixpoint split_on (sep : ascii) (s : string) : list string :=
  match s with
  | EmptyString => [EmptyString]
  | String c s' =>
      if Ascii.eqb c sep then EmptyString :: split_on sep s'
      else cons_char c (split_on sep s')
  end.

(** [s.split()]: the maximal runs of non-whitespace characters.  The head
    of the result continues the word being read when [in_word] holds. *)
Fixpoint words_from (in_word : bool) (s : string) : list string :=
  match s with
  | EmptyString => if in_word then [EmptyString] else []
  | String c s' =>
      if is_space c then
        (if in_word then EmptyString :: words_from false s' else words_from false s')
      else cons_char c (words_from true s')
  end.

Definition split_ws (s : string) : list string := words_from false s.

(** [str(n)] for a non-negative integer. *)
Definition str_of_nat (n : nat) : string := NilZero.string_of_uint (Nat.to_uint n).

(** [s * n] *)
Fixpoint repeat_str (s : string) (n : nat) : string :=
  match n with
  | O => EmptyString
  | S n' => s ++ repeat_str s n'
  end.

End Text.

(** ** The chunker ([scripts/ollama_embeddings.py]) *)

Module Chunker.
Import Text.

Definition MAX_CHUNK_SIZE : Z := 800.
Definition CHUNK_OVERLAP : Z := 50.

Fixpoint skip_digits (s : string) : string :=
  match s with
  | String c s' => if is_digit c then skip_digits s' else s
  | EmptyString => EmptyString
  end.

(** The lookahead [(?=\(\d+\))] holds at the start of [s]. *)
Definition at_marker (s : string) : bool :=
  match s with
  | String "("%char (String d r) =>
      is_digit d &&
      match skip_digits r with
      | String ")"%char _ => true
      | _ => false
      end
  | _ => false
  end.

(** The pieces of [s] when it is cut before every marker that starts after
    its first character. *)
Fixpoint topic_pieces (s : string) : list string :=
  match s with
  | EmptyString => [EmptyString]
  | String c s' =>
      if at_marker s' then String c EmptyString :: topic_pieces s'
      else cons_char c (topic_pieces s')
  end.

(** [re.split(r'(?=\(\d+\))', text)]: the pattern matches the empty string
    before every marker, also at position 0, where it leaves an empty first
    piece. *)
Definition split_topics (text : string) : list string :=
  if at_marker text then EmptyString :: topic_pieces text else topic_pieces text.

Definition is_sentence_end (c : ascii) : bool :=
  Ascii.eqb c "." || Ascii.eqb c "!" || Ascii.eqb c "?".

(** Where the scan of [(?<=[.!?])\s+] stands: just after a sentence end,
    inside a separator that has matched, or elsewhere. *)
Inductive scan := AfterEnd | InSeparator | Elsewhere.

Definition scan_after (c : ascii) : scan :=
  if is_sentence_end c then AfterEnd else Elsewhere.

Fixpoint sentence_pieces (m : scan) (s : string) : list string :=
  match s with
  | EmptyString => [EmptyString]
  | String c s' =>
      match m with
      | AfterEnd =>
          if is_space c then EmptyString :: sentence_pieces InSeparator s'
          else cons_char c (sentence_pieces (scan_after c) s')
      | InSeparator =>
          if is_space c then sentence_pieces InSeparator s'
          else cons_char c (sentence_pieces (scan_after c) s')
      | Elsewhere => cons_char c (sentence_pieces (scan_after c) s')
      end
  end.

(** [re.split(r'(?<=[.!?])\s+', text)] *)
Definition split_sentences (text : string) : list string :=
  sentence_pieces Elsewhere text.

(** One turn of the loop over the sentences: the chunks closed so far and
    the chunk being filled. *)
Definition add_sentence (max_size : Z) (st : list string * string) (sentence : string)
  : list string * string :=
  let '(chunks, current_chunk) := st in
  if len current_chunk + len sentence <? max_size then
    (chunks, current_chunk ++ sentence ++ " ")
  else
    ((if is_empty current_chunk then chunks else (chunks ++ [strip current_chunk])%list),
     sentence ++ " ").

(** The second half of [smart_chunk_text]: sentence accumulation and the
    fallback on an empty result. *)
Definition sentence_chunks (text : string) (max_size : Z) : list string :=
  let sentences := split_sentences text in
  let '(chunks, current_chunk) := fold_left (add_sentence max_size) sentences ([], EmptyString) in
  let chunks := if is_empty current_chunk then chunks else (chunks ++ [strip current_chunk])%list in
  match chunks with
  | [] => [slice_to max_size text]
  | _ => chunks
  end.

(** The test that accepts the split by numbered topics. *)
Definition topics_fit (topics : list string) (max_size : Z) : bool :=
  (1 <? Z.of_nat (length topics)) &&
  forallb (fun t => len t <? max_size) (List.filter nonblank topics).

Definition smart_chunk_text (text : string) (max_size : Z) : list string :=
  let topics := split_topics text in
  if topics_fit topics max_size then
    map strip (List.filter nonblank topics)
  else sentence_chunks text max_size.

End Chunker.

(** ** The regular expressions of the classifier tables

    The tables of [scripts/backfill_metadata.py] that the classifier uses
    are alternations of literal words in which only the escapes [\d+] and
    [\.] occur.  A pattern is kept as its source text and compiled to a list
    of alternatives; matching is leftmost, tries the alternatives in order,
    and [\d+] is greedy with backtracking, as in Python's [re]. *)

Module Regex.
Import Text.

Inductive atom :=
| Lit (c : ascii)
| Digits.

Definition alternative := list atom.
Definition regex := list alternative.

Fixpoint parse_alternative (s : string) : alternative :=
  match s with
  | EmptyString => []
  | String "\"%char (String "d"%char (String "+"%char rest)) => Digits :: parse_alternative rest
  | String "\"%char (String c rest) => Lit c :: parse_alternative rest
  | String c rest => Lit c :: parse_alternative rest
  end.

Definition compile (pattern : string) : regex :=
  map parse_alternative (split_on "|" pattern).

(** Equality of characters under [re.IGNORECASE]. *)
Definition same_letter (a b : ascii) : bool :=
  Ascii.eqb (lower_char a) (lower_char b).

(** The number of characters an alternative consumes at the start of [s],
    when it matches there. *)
Fixpoint match_atoms (s : string) (atoms : alternative) {struct s} : option nat :=
  match atoms with
  | [] => Some O
  | Lit c :: rest =>
      match s with
      | String t s' => if same_letter c t then option_map S (match_atoms s' rest) else None
      | EmptyString => None
      end
  | Digits :: rest =>
      match s with
      | String t s' =>
          if is_digit t then
            match match_atoms s' (Digits :: rest) with
            | Some n => Some (S n)
            | None => option_map S (match_atoms s' rest)
            end
          else None
      | EmptyString => None
      end
  end.

Fixpoint match_here (re : regex) (s : string) : option nat :=
  match re with
  | [] => None
  | a :: re' =>
      match match_atoms s a with
      | Some n => Some n
      | None => match_here re' s
      end
  end.

(** [re.search(pattern, s, re.IGNORECASE)] as a truth value. *)
Fixpoint search (re : regex) (s : string) : bool :=
  match match_here re s with
  | Some _ => true
  | None =>
      match s with
      | EmptyString => false
      | String _ s' => search re s'
      end
  end.

(** [len(re.findall(pattern, s, re.IGNORECASE))]: the matches do not
    overlap; [skip] characters of the last match are still to be passed. *)
Fixpoint count_matches (re : regex) (skip : nat) (s : string) : nat :=
  match s with
  | EmptyString => O
  | String _ s' =>
      match skip with
      | S k => count_matches re k s'
      | O =>
          match match_here re s with
          | Some n => S (count_matches re (Nat.pred n) s')
          | None => count_matches re O s'
          end
      end
  end.

Definition findall_count (pattern : string) (s : string) : nat :=
  count_matches (compile pattern) O s.

Definition re_search (pattern : string) (s : string) : bool :=
  search (compile pattern) s.

End Regex.

(** ** Python's [min] and [max] on floats *)

Module PyFloat.
Local Open Scope float_scope.

(** [max(a, b)] keeps [a] unless [b > a]. *)
Definition py_max (a b : float) : float := if PrimFloat.ltb a b then b else a.

(** [min(a, b)] keeps [a] unless [b < a]. *)
Definition py_min (a b : float) : float := if PrimFloat.ltb b a then b else a.

End PyFloat.

(** ** The classifier ([scripts/backfill_metadata.py]) *)

Module Backfill.
Import Text Regex PyFloat.

Definition TYPE_PATTERNS : list (string * list string) :=
  [ ("technical_achievement",
      [ "successfully|completed|fixed|resolved|working|deployed|installed|configured";
        "migration complete|now works|bug fixed|issue resolved" ]);
    ("milestone",
      [ "milestone|launched|released|shipped|v\d+\.\d+|version \d+";
        "first time|breakthrough|achievement" ]);
    ("insight",
      [ "realized|discovered|learned|understanding|insight|key finding";
        "important:|note:|remember:" ]);
    ("project_update",
      [ "progress|update|status|working on|building|developing";
        "added|created|implemented|integrated" ]);
    ("research",
      [ "research|investigating|exploring|analyzing|studying";
        "paper|article|documentation|spec" ]);
    ("decision",
      [ "decided|decision|chose|selected|going with|will use";
        "strategy|approach|plan" ]);
    ("problem",
      [ "issue|problem|error|bug|failed|broken|not working";
        "trouble|stuck|blocker" ]);
    ("reference",
      [ "reference|documentation|guide|tutorial|how to";
        "url:|link:|see:|docs:" ]) ].

Definition HIGH_IMPORTANCE_SIGNALS : list string :=
  [ "important|critical|crucial|essential|key|major";
    "breakthrough|milestone|achievement|success";
    "production|deployed|released|shipped";
    "decision|strategy|architecture" ].

Definition MEDIUM_IMPORTANCE_SIGNALS : list string :=
  [ "completed|finished|done|working";
    "fixed|resolved|solved";
    "learned|discovered|realized" ].

Definition LOW_IMPORTANCE_SIGNALS : list string :=
  [ "testing|trying|experimenting";
    "minor|small|quick";
    "debug|troubleshoot" ].

(** The inner loop of [infer_observation_type]: the matches of all the
    patterns of one type. *)
Definition type_score (text_lower : string) (patterns : list string) : nat :=
  fold_left (fun score pattern => (score + findall_count pattern text_lower)%nat) patterns O.

(** The dictionary [scores], in insertion order: the types with a positive score. *)
Definition type_scores (text_lower : string) : list (string * nat) :=
  List.filter (fun entry => (0 <? snd entry)%nat)
    (map (fun entry => (fst entry, type_score text_lower (snd entry))) TYPE_PATTERNS).

(** [max(scores, key=scores.get)]: the first key with the largest score. *)
Definition max_by_score (first : string * nat) (others : list (string * nat)) : string :=
  fst (fold_left (fun best entry => if (snd best <? snd entry)%nat then entry else best)
         others first).

Definition infer_observation_type (text : string) : string :=
  let text_lower := lower text in
  match type_scores text_lower with
  | [] => "note"
  | first :: others => max_by_score first others
  end.

Local Open Scope float_scope.

Definition add_signals (signals : list string) (text_lower : string) (delta : float) (score : float)
  : float :=
  fold_left (fun score pattern => if re_search pattern text_lower then score + delta else score)
    signals score.

Definition sub_signals (signals : list string) (text_lower : string) (delta : float) (score : float)
  : float :=
  fold_left (fun score pattern => if re_search pattern text_lower then score - delta else score)
    signals score.

(** The score before clamping.  [user_entities_env] is the value of the
    environment variable [LONGTERM_MEMORY_USER_ENTITIES] (empty when unset);
    [entity_name] is [None] for Python's [None]. *)
Definition raw_importance (user_entities_env : string) (text : string)
  (entity_name : option string) : float :=
  let text_lower := lower text in
  let score := 0.5 in
  let score := add_signals HIGH_IMPORTANCE_SIGNALS text_lower 0.15 score in
  let score := add_signals MEDIUM_IMPORTANCE_SIGNALS text_lower 0.08 score in
  let score := sub_signals LOW_IMPORTANCE_SIGNALS text_lower 0.05 score in
  let score :=
    if (500 <? len text)%Z then score + 0.1
    else if (200 <? len text)%Z then score + 0.05
    else score in
  let user_entities := split_on "," (lower user_entities_env) in
  match entity_name with
  | Some name =>
      if negb (is_empty name) && existsb (String.eqb (lower name)) user_entities
      then score + 0.1 else score
  | None => score
  end.

Definition calculate_importance (user_entities_env : string) (text : string)
  (entity_name : option string) : float :=
  py_max 0.1 (py_min 1.0 (raw_importance user_entities_env text entity_name)).

End Backfill.

(** ** The ingestion boundary ([browser-extension/native-host/longterm_memory_host.py]) *)

Module Host.
Import Text PyFloat.

Definition map_category_to_observation_type (category capture_type : string) : string :=
  if String.eqb capture_type "note" then "note"
  else if String.eqb capture_type "selection" then "excerpt"
  else if String.eqb capture_type "page" then "page_capture"
  else if String.eqb category "documentation" then "reference"
  else if String.eqb category "reference" then "reference"
  else if String.eqb category "research" then "research"
  else if String.eqb category "article" then "article"
  else if String.eqb category "news" then "news"
  else if String.eqb category "code" then "technical"
  else if String.eqb category "social" then "social"
  else if String.eqb category "personal" then "personal"
  else "web_capture".

Definition calculate_importance (capture_type : string) (has_notes : bool) (tags : list string)
  : float :=
  let base := 0.5%float in
  let base := if has_notes then (base + 0.2)%float else base in
  let base := if (0 <? Z.of_nat (length tags))%Z then (base + 0.1)%float else base in
  let base := if String.eqb capture_type "page" then (base - 0.1)%float else base in
  py_max 0.0 (py_min 1.0 base).

(** The value under the key [tags] of the message's metadata: a string, a
    list of strings, or a JSON value of another kind. *)
Inductive tags_value :=
| TagsStr (s : string)
| TagsList (l : list string)
| TagsOther.

Record message := {
  content : string;
  url : string;
  title : string;
  capture_type : string;
  category : string;
  tags : tags_value;
  captured_at : option string
}.

Definition mem (x : string) (l : list string) : bool := existsb (String.eqb x) l.

(** [[t.strip() for t in tags.split(',') if t.strip()]] *)
Definition split_tags (s : string) : list string :=
  map strip (List.filter nonblank (split_on "," s)).

(** The tag list after the three steps of [save_observation]; a value that
    is neither a string nor a list raises. *)
Definition collect_tags (category : string) (tags : tags_value) : option (list string) :=
  match (match tags with
         | TagsStr s => Some (split_tags s)
         | TagsList l => Some l
         | TagsOther => None
         end) with
  | None => None
  | Some tags =>
      let tags :=
        if negb (is_empty category) && negb (String.eqb category "auto") then
          (if mem category tags then tags else (tags ++ [category])%list)
        else tags in
      let tags := if mem "browser" tags then tags else (tags ++ ["browser"])%list in
      Some tags
  end.

Record entity := {
  name : string;
  entity_type : string;
  entity_source : string;
  observation_count : Z;
  first_title : string
}.

Record obs_metadata := {
  meta_url : string;
  meta_domain : string;
  meta_category : string;
  meta_capture_type : string;
  meta_captured_at : string
}.

Record observation := {
  entity_id : Z;
  observation_text : string;
  observation_index : Z;
  source_type : string;
  observation_type : string;
  importance : float;
  metadata : obs_metadata;
  obs_tags : list string
}.

Record database := {
  entities : gmap Z entity;
  observations : gmap Z observation;
  entities_id_seq : Z;
  observations_id_seq : Z
}.

Inductive response :=
| Saved (observation_id entity_id : Z) (observation_type : string) (importance : float)
    (tags : list string)
| Failed.

Definition success (r : response) : bool :=
  match r with Saved _ _ _ _ _ => true | Failed => false end.

Section WithEnvironment.

(** [urlparse(url).netloc] and [urlparse(url).path], and the two renderings
    of [datetime.now()]. *)
Variable netloc : string -> string.
Variable path : string -> string.
Variable date_str : string.
Variable now_iso : string.

Definition domain_of (url : string) : string :=
  let domain :=
    if is_empty (netloc url) then hd EmptyString (split_on "/" (path url)) else netloc url in
  if is_empty domain then "unknown" else domain.

(** [SELECT id FROM entities WHERE name = %s], first row. *)
Definition find_entity (db : database) (domain : string) : option Z :=
  fst <$> head (List.filter (fun kv => String.eqb (name (snd kv)) domain) (map_to_list (entities db))).

Definition bump (e : entity) : entity :=
  {| name := name e; entity_type := entity_type e; entity_source := entity_source e;
     observation_count := observation_count e + 1; first_title := first_title e |}.

(** The insertion raises when the key drawn from the sequence is taken. *)
Definition get_or_create_entity (db : database) (url title : string) : option (Z * database) :=
  let domain := domain_of url in
  match find_entity db domain with
  | Some entity_id =>
      Some (entity_id,
            {| entities := alter bump entity_id (entities db);
               observations := observations db;
               entities_id_seq := entities_id_seq db;
               observations_id_seq := observations_id_seq db |})
  | None =>
      let entity_id := entities_id_seq db in
      match entities db !! entity_id with
      | Some _ => None
      | None =>
          Some (entity_id,
                {| entities :=
                     <[entity_id := {| name := domain; entity_type := "website";
                                       entity_source := "browser_extension";
                                       observation_count := 1; first_title := title |}]>
                       (entities db);
                   observations := observations db;
                   entities_id_seq := entities_id_seq db + 1;
                   observations_id_seq := observations_id_seq db |})
      end
  end.

(** [MAX] over a column: [None], the NULL of SQL, when there is no row. *)
Definition max_of (column : list Z) : option Z :=
  match column with
  | [] => None
  | x :: rest => Some (fold_right Z.max x rest)
  end.

(** [COALESCE(MAX(observation_index), 0) + 1] over the entity's rows. *)
Definition next_index (db : database) (entity_id : Z) : Z :=
  default 0
    (max_of
       (map (fun kv => observation_index (snd kv))
          (List.filter (fun kv => Z.eqb (Host.entity_id (snd kv)) entity_id)
             (map_to_list (observations db))))) + 1.

Definition heading (capture_type title : string) : string :=
  if String.eqb capture_type "note" then date_str ++ ": NOTE from " ++ title
  else if String.eqb capture_type "selection" then date_str ++ ": EXCERPT from " ++ title
  else if String.eqb capture_type "page" then date_str ++ ": PAGE CAPTURE - " ++ title
  else date_str ++ ": " ++ title.

Definition newline : string := String (ascii_of_nat 10) EmptyString.

(** [save_observation(data)] on a reachable database: the answer and the
    committed state.  Every exception ends in [Failed] with nothing
    committed. *)
Definition save_observation (db : database) (data : message) : response * database :=
  match collect_tags (category data) (tags data) with
  | None => (Failed, db)
  | Some tags =>
      match get_or_create_entity db (url data) (title data) with
      | None => (Failed, db)
      | Some (entity_id, db1) =>
          let observation_index := next_index db1 entity_id in
          let observation_text :=
            join newline
              [heading (capture_type data) (title data); "URL: " ++ url data; ""; content data] in
          let observation_type :=
            map_category_to_observation_type (category data) (capture_type data) in
          let has_notes :=
            String.eqb (capture_type data) "note" || String.eqb (capture_type data) "selection" in
          let importance := calculate_importance (capture_type data) has_notes tags in
          let obs_metadata :=
            {| meta_url := url data; meta_domain := netloc (url data);
               meta_category := category data; meta_capture_type := capture_type data;
               meta_captured_at := default now_iso (captured_at data) |} in
          let observation_id := observations_id_seq db1 in
          match observations db1 !! observation_id with
          | Some _ => (Failed, db)
          | None =>
              (Saved observation_id entity_id observation_type importance tags,
               {| entities := entities db1;
                  observations :=
                    <[observation_id :=
                        {| entity_id := entity_id; observation_text := observation_text;
                           observation_index := observation_index;
                           source_type := "browser_extension";
                           observation_type := observation_type; importance := importance;
                           metadata := obs_metadata; obs_tags := tags |}]>
                      (observations db1);
                  entities_id_seq := entities_id_seq db1;
                  observations_id_seq := observations_id_seq db1 + 1 |})
          end
      end
  end.

End WithEnvironment.

End Host.

(** ** JSON values and the Python operations applied to them *)

Module Json.
Import Text.

Inductive json :=
| JNull
| JBool (b : bool)
| JNum (q : Q)
| JStr (s : string)
| JArr (items : list json)
| JObj (fields : list (string * json)).

(** The result of an expression that may raise. *)
Inductive outcome (A : Type) :=
| Done (a : A)
| Except.
Arguments Done {A} a.
Arguments Except {A}.

Definition and_then {A B : Type} (x : outcome A) (k : A -> outcome B) : outcome B :=
  match x with
  | Done a => k a
  | Except => Except
  end.

(** The truth value of a JSON value as a Python object. *)
Definition truthy (j : json) : bool :=
  match j with
  | JNull => false
  | JBool b => b
  | JNum q => negb (Qeq_bool q 0)
  | JStr s => negb (is_empty s)
  | JArr items => match items with [] => false | _ => true end
  | JObj fields => match fields with [] => false | _ => true end
  end.

(** The value a decoded object holds under a key: the last one when the
    text repeats the key. *)
Fixpoint field (key : string) (fields : list (string * json)) : option json :=
  match fields with
  | [] => None
  | (k, v) :: rest =>
      match field key rest with
      | Some v' => Some v'
      | None => if String.eqb k key then Some v else None
      end
  end.

(** [j.get(key, default)]: only a dictionary has the method. *)
Definition get (j : json) (key : string) (default : json) : outcome json :=
  match j with
  | JObj fields => Done (match field key fields with Some v => v | None => default end)
  | _ => Except
  end.

Definition is_str (key : string) (j : json) : bool :=
  match j with
  | JStr s => String.eqb s key
  | _ => false
  end.

(** [key in j] for a string [key]. *)
Definition has (key : string) (j : json) : outcome bool :=
  match j with
  | JObj fields => Done (match field key fields with Some _ => true | None => false end)
  | JArr items => Done (existsb (is_str key) items)
  | JStr s => Done (contains key s)
  | _ => Except
  end.

(** [j[key]] for a string [key]. *)
Definition item (j : json) (key : string) : outcome json :=
  match j with
  | JObj fields => match field key fields with Some v => Done v | None => Except end
  | _ => Except
  end.

(** [j[0]] *)
Definition first (j : json) : outcome json :=
  match j with
  | JArr (x :: _) => Done x
  | JStr (String c _) => Done (JStr (String c EmptyString))
  | _ => Except
  end.

End Json.

(** ** The embedding provider chain *)

Module Provider.
Import Text Json.

(** What a provider's endpoint gives back: no usable exchange (connection
    refused, time-out, HTTP error), a body that is not JSON, or a decoded
    body. *)
Inductive reply :=
| NoAnswer
| Garbled (body : string)
| Answer (data : json).

(** The first [try] block of [get_ollama_embedding]: [Done (Some e)] when
    it returns [e], [Done None] when it falls through, [Except] when an
    exception is swallowed. *)
Definition ollama_try (r : reply) : outcome (option json) :=
  match r with
  | Answer embedding_data =>
      and_then (has "error" embedding_data) (fun has_error =>
      if has_error then Done None
      else
        and_then (get embedding_data "embedding" JNull) (fun embedding =>
        if truthy embedding then Done (Some embedding) else Done None))
  | _ => Except
  end.

(** The second [try] block of [get_ollama_embedding]. *)
Definition lmstudio_try (r : reply) : outcome (option json) :=
  match r with
  | Answer embedding_data =>
      and_then (has "data" embedding_data) (fun has_data =>
      if has_data then
        and_then (item embedding_data "data") (fun data =>
        if truthy data then
          and_then (first data) (fun entry =>
          and_then (get entry "embedding" (JArr [])) (fun embedding =>
          if truthy embedding then Done (Some embedding) else Done None))
        else Done None)
      else Done None)
  | _ => Except
  end.

(** [' '.join(text.split())] *)
Definition clean (text : string) : string := join " " (split_ws text).

(** [get_ollama_embedding(text)]; [ollama] and [lmstudio] give each
    service's reply to the text it is sent. *)
Definition get_ollama_embedding (ollama lmstudio : string -> reply) (text : string)
  : option json :=
  let text := clean text in
  match ollama_try (ollama text) with
  | Done (Some embedding) => Some embedding
  | _ =>
      match lmstudio_try (lmstudio text) with
      | Done (Some embedding) => Some embedding
      | _ => None
      end
  end.

(** The variables [embedding], [embedding_source] and [errors] of
    [api_semantic_search]. *)
Record embedding_state := {
  embedding : option json;
  embedding_source : option string;
  errors : list string
}.

(** [not embedding] *)
Definition no_embedding (st : embedding_state) : bool :=
  match embedding st with
  | None => true
  | Some e => negb (truthy e)
  end.

(** The body of the Ollama [try] block of [api_semantic_search] up to the
    assignment of [embedding]. *)
Definition api_ollama_value (r : reply) : outcome json :=
  match r with
  | Answer result =>
      and_then (get result "embeddings" (JArr [JArr []])) (fun embeddings => first embeddings)
  | _ => Except
  end.

Definition api_lmstudio_value (r : reply) : outcome json :=
  match r with
  | Answer result =>
      and_then (get result "data" (JArr [JObj []])) (fun data =>
      and_then (first data) (fun entry => get entry "embedding" (JArr [])))
  | _ => Except
  end.

Definition api_try_ollama (r : reply) : embedding_state :=
  match api_ollama_value r with
  | Done e =>
      {| embedding := Some e;
         embedding_source := if truthy e then Some "ollama" else None;
         errors := [] |}
  | Except => {| embedding := None; embedding_source := None; errors := ["Ollama"] |}
  end.

Definition api_try_lmstudio (st : embedding_state) (r : reply) : embedding_state :=
  if no_embedding st then
    match api_lmstudio_value r with
    | Done e =>
        {| embedding := Some e;
           embedding_source := if truthy e then Some "lmstudio" else embedding_source st;
           errors := errors st |}
    | Except =>
        {| embedding := embedding st; embedding_source := embedding_source st;
           errors := (errors st ++ ["LM Studio"])%list |}
    end
  else st.

(** The embedding stage of [api_semantic_search] on the query. *)
Definition api_embed (ollama lmstudio : string -> reply) (query : string) : embedding_state :=
  api_try_lmstudio (api_try_ollama (ollama query)) (lmstudio query).

End Provider.

(** ** The store and the embedding pass ([scripts/ollama_embeddings.py])

    The columns the script reads or writes.  A connection holds the
    committed tables, the tables as the open transaction sees them, the
    sequence that numbers new observations (not undone by a rollback), and
    [faults]: the number of statements the store still executes before it
    raises ([None]: it never does). *)

Module Store.
Import Text Json.

Definition vector := list Q.

Record observation := {
  entity_id : Z;
  observation_text : option string;
  observation_index : Z;
  source_type : string;
  embedding : option vector;
  created_at : Z
}.

Record tables := {
  observations : gmap Z observation;
  observations_archive : gmap Z observation
}.

Record connection := {
  committed : tables;
  working : tables;
  observations_id_seq : Z;
  clock : Z;
  faults : option nat
}.

Inductive result (A : Type) :=
| Ok (a : A)
| Raise.
Arguments Ok {A} a.
Arguments Raise {A}.

Definition db (A : Type) : Type := connection -> result A * connection.

Definition ret {A : Type} (a : A) : db A := fun c => (Ok a, c).

Definition bind {A B : Type} (m : db A) (k : A -> db B) : db B :=
  fun c =>
    match m c with
    | (Ok a, c') => k a c'
    | (Raise, c') => (Raise, c')
    end.

Definition raise {A : Type} : db A := fun c => (Raise, c).

Notation "'let*' x := m 'in' k" := (bind m (fun x => k))
  (at level 10, x name, m at level 100, k at level 200).
Notation "'exec' m 'in' k" := (bind m (fun _ => k))
  (at level 10, m at level 100, k at level 200).

Definition with_working (c : connection) (t : tables) : connection :=
  {| committed := committed c; working := t; observations_id_seq := observations_id_seq c;
     clock := clock c; faults := faults c |}.

(** Every statement sent to the store passes here first. *)
Definition statement : db unit :=
  fun c =>
    match faults c with
    | Some O => (Raise, c)
    | Some (S n) =>
        (Ok tt, {| committed := committed c; working := working c;
                   observations_id_seq := observations_id_seq c; clock := clock c;
                   faults := Some n |})
    | None => (Ok tt, c)
    end.

(** [INSERT INTO observations (entity_id, observation_text, observation_index,
    source_type) VALUES (%s, %s, %s, 'chunked') RETURNING id] *)
Definition insert_chunk (entity_id : Z) (text : string) (index : Z) : db Z :=
  exec statement in
  fun c =>
    let new_id := observations_id_seq c in
    let c' := {| committed := committed c; working := working c;
                 observations_id_seq := new_id + 1; clock := clock c; faults := faults c |} in
    match observations (working c) !! new_id with
    | Some _ => (Raise, c')
    | None =>
        (Ok new_id,
         with_working c'
           {| observations :=
                <[new_id := {| entity_id := entity_id; observation_text := Some text;
                               observation_index := index; source_type := "chunked";
                               embedding := None; created_at := clock c |}]>
                  (observations (working c));
              observations_archive := observations_archive (working c) |})
    end.

(** [INSERT INTO observations_archive SELECT * FROM observations WHERE id = %s];
    the archive has the primary key of the table it copies. *)
Definition archive_observation (obs_id : Z) : db unit :=
  exec statement in
  fun c =>
    match observations (working c) !! obs_id with
    | None => (Ok tt, c)
    | Some row =>
        match observations_archive (working c) !! obs_id with
        | Some _ => (Raise, c)
        | None =>
            (Ok tt,
             with_working c
               {| observations := observations (working c);
                  observations_archive := <[obs_id := row]> (observations_archive (working c)) |})
        end
    end.

(** [DELETE FROM observations WHERE id = %s] *)
Definition delete_observation (obs_id : Z) : db unit :=
  exec statement in
  fun c =>
    (Ok tt,
     with_working c
       {| observations := delete obs_id (observations (working c));
          observations_archive := observations_archive (working c) |}).

(** [conn.commit()] *)
Definition commit : db unit :=
  exec statement in
  fun c =>
    (Ok tt,
     {| committed := working c; working := working c;
        observations_id_seq := observations_id_seq c; clock := clock c; faults := faults c |}).

(** What is left of the connection once it is closed: an open transaction
    is rolled back. *)
Definition close (c : connection) : tables := committed c.

(** [re.match(r'^([^:]+:)', obs_text)]: the text up to its first colon,
    which must not be its first character. *)
Fixpoint upto_colon (s : string) : option string :=
  match s with
  | EmptyString => None
  | String c s' =>
      if Ascii.eqb c ":" then Some (String c EmptyString)
      else option_map (String c) (upto_colon s')
  end.

Definition date_prefix_of (obs_text : string) : string :=
  match obs_text with
  | String ":"%char _ => EmptyString
  | _ => match upto_colon obs_text with Some p => p | None => EmptyString end
  end.

(** The text stored for chunk [i] of [total]. *)
Definition chunk_with_part (date_prefix : string) (i total : nat) (chunk_text : string)
  : string :=
  if is_empty date_prefix then
    "(Part " ++ str_of_nat i ++ "/" ++ str_of_nat total ++ ") " ++ chunk_text
  else
    date_prefix ++ " (Part " ++ str_of_nat i ++ "/" ++ str_of_nat total ++ ") "
      ++ strip (slice_from (len date_prefix) chunk_text).

(** The loop [for i, chunk_text in enumerate(chunks, 1)], entered at [i]. *)
Fixpoint insert_chunks (date_prefix : string) (total : nat) (entity_id max_index : Z)
  (i : nat) (chunks : list string) : db (list Z) :=
  match chunks with
  | [] => ret []
  | chunk_text :: rest =>
      let* new_id := insert_chunk entity_id (chunk_with_part date_prefix i total chunk_text)
                       (max_index + Z.of_nat i) in
      let* new_obs_ids := insert_chunks date_prefix total entity_id max_index (S i) rest in
      ret (new_id :: new_obs_ids)
  end.

Definition chunk_long_observation (obs_id : Z) (obs_text : string) (entity_id max_index : Z)
  : db (list Z) :=
  let chunks := Chunker.smart_chunk_text obs_text Chunker.MAX_CHUNK_SIZE in
  if (length chunks <=? 1)%nat then ret []
  else
    let* new_obs_ids := insert_chunks (date_prefix_of obs_text) (length chunks) entity_id
                          max_index 1 chunks in
    exec archive_observation obs_id in
    exec delete_observation obs_id in
    exec commit in
    ret new_obs_ids.

(** The largest [bigint], the type of a [LIMIT] and of an [OFFSET]. *)
Definition BIGINT_MAX : Z := 9223372036854775807.

End Store.


Module Pass.
Import Text Json Store.

(** The column is declared [vector(768)] by [setup_vector_column]. *)
Definition EMBEDDING_DIM : nat := 768.

Definition number (j : json) : option Q :=
  match j with
  | JNum q => Some q
  | _ => None
  end.

(** The list of numbers a JSON value denotes, if it is one. *)
Definition numbers (j : json) : option vector :=
  match j with
  | JArr items => mapM number items
  | _ => None
  end.

(** [%s::vector] on the column: a list of 768 numbers, or the store raises. *)
Definition as_vector (j : json) : option vector :=
  match numbers j with
  | Some v => if (length v =? EMBEDDING_DIM)%nat then Some v else None
  | None => None
  end.

Definition set_embedding (v : vector) (o : observation) : observation :=
  {| entity_id := entity_id o; observation_text := observation_text o;
     observation_index := observation_index o; source_type := source_type o;
     embedding := Some v; created_at := created_at o |}.

(** [UPDATE observations SET embedding = %s::vector WHERE id = %s] *)
Definition update_embedding (e : json) (id : Z) : db unit :=
  exec statement in
  fun c =>
    match as_vector e with
    | None => (Raise, c)
    | Some v =>
        (Ok tt,
         with_working c
           {| observations := alter (set_embedding v) id (observations (working c));
              observations_archive := observations_archive (working c) |})
    end.

(** A row of the first query of [embed_observations]. *)
Record pending := {
  id : Z;
  pending_entity : Z;
  pending_text : string
}.

Definition newer (a b : Z * observation) : Prop := created_at (snd b) <= created_at (snd a).

#[local] Instance newer_dec a b : Decision (newer a b).
Proof. unfold newer. apply _. Defined.

Definition to_pending (kv : Z * observation) : option pending :=
  match embedding (snd kv), observation_text (snd kv) with
  | None, Some text => Some {| id := fst kv; pending_entity := entity_id (snd kv);
                               pending_text := text |}
  | _, _ => None
  end.

(** [SELECT id, entity_id, observation_text FROM observations WHERE embedding
    IS NULL AND observation_text IS NOT NULL ORDER BY created_at DESC]. *)
Definition pending_rows (t : tables) : list pending :=
  omap to_pending (merge_sort newer (map_to_list (observations t))).

(** The same query with the optional [LIMIT], which is left out when it is
    0; the store rejects a negative one and one that is no [bigint]. *)
Definition select_pending (limit : option Z) : db (list pending) :=
  exec statement in
  fun c =>
    let rows := pending_rows (working c) in
    match limit with
    | None => (Ok rows, c)
    | Some n =>
        if n =? 0 then (Ok rows, c)
        else if n <? 0 then (Raise, c)
        else if BIGINT_MAX <? n then (Raise, c)
        else (Ok (take (Z.to_nat n) rows), c)
    end.

(** [SELECT MAX(observation_index) FROM observations WHERE entity_id = %s] *)
Definition max_index_of (t : tables) (entity : Z) : option Z :=
  match List.filter (fun kv => Z.eqb (entity_id (snd kv)) entity) (map_to_list (observations t)) with
  | [] => None
  | kv :: rest =>
      Some (fold_left (fun m kv' => Z.max m (observation_index (snd kv'))) rest
              (observation_index (snd kv)))
  end.

Definition select_max_index (entity : Z) : db (option Z) :=
  exec statement in
  fun c => (Ok (max_index_of (working c) entity), c).

(** [SELECT observation_text FROM observations WHERE id = %s], then the
    value of [chunk_text]. *)
Definition select_text (id : Z) : db (option string) :=
  exec statement in
  fun c => (Ok (match observations (working c) !! id with
                | Some o => observation_text o
                | None => None
                end), c).

Section WithProviders.

Variable ollama lmstudio : string -> Provider.reply.

Definition get_ollama_embedding (text : string) : option json :=
  Provider.get_ollama_embedding ollama lmstudio text.

(** The loop [for new_id in new_ids]. *)
Fixpoint embed_chunks (new_ids : list Z) (embedded_count : Z) : db Z :=
  match new_ids with
  | [] => ret embedded_count
  | new_id :: rest =>
      let* chunk_text := select_text new_id in
      match chunk_text with
      | None => embed_chunks rest embedded_count
      | Some text =>
          if is_empty text then embed_chunks rest embedded_count
          else
            match get_ollama_embedding text with
            | Some e =>
                exec update_embedding e new_id in
                embed_chunks rest (embedded_count + 1)
            | None => embed_chunks rest embedded_count
            end
      end
  end.

(** The part of the loop body below the comment "Normal embedding". *)
Definition embed_whole (batch_size : Z) (obs : pending) (counts : Z * Z) : db (Z * Z) :=
  let '(embedded_count, chunked_count) := counts in
  match get_ollama_embedding (pending_text obs) with
  | Some e =>
      exec update_embedding e (id obs) in
      let embedded_count := embedded_count + 1 in
      if batch_size =? 0 then raise
      else if embedded_count mod batch_size =? 0 then
        exec commit in ret (embedded_count, chunked_count)
      else ret (embedded_count, chunked_count)
  | None => ret (embedded_count, chunked_count)
  end.

(** One turn of the loop [for i, obs in enumerate(observations)]. *)
Definition embed_one (batch_size : Z) (obs : pending) (counts : Z * Z) : db (Z * Z) :=
  let '(embedded_count, chunked_count) := counts in
  if Chunker.MAX_CHUNK_SIZE <? len (pending_text obs) then
    let* result := select_max_index (pending_entity obs) in
    let max_index := default 0 result in
    let* new_ids := chunk_long_observation (id obs) (pending_text obs) (pending_entity obs)
                      max_index in
    match new_ids with
    | [] => embed_whole batch_size obs counts
    | _ =>
        let* embedded_count := embed_chunks new_ids embedded_count in
        exec commit in
        ret (embedded_count, chunked_count + 1)
    end
  else embed_whole batch_size obs counts.

Fixpoint embed_loop (batch_size : Z) (observations : list pending) (counts : Z * Z)
  : db (Z * Z) :=
  match observations with
  | [] => ret counts
  | obs :: rest =>
      let* counts := embed_one batch_size obs counts in
      embed_loop batch_size rest counts
  end.

(** [embed_observations(conn, limit, batch_size)]: the two counters it
    prints, or [None] when there is nothing to embed. *)
Definition embed_observations (limit : option Z) (batch_size : Z) : db (option (Z * Z)) :=
  let* observations := select_pending limit in
  match observations with
  | [] => ret None
  | _ =>
      let* counts := embed_loop batch_size observations (0, 0) in
      exec commit in
      ret (Some counts)
  end.

End WithProviders.

End Pass.

(** ** Semantic retrieval ([dashboard/app.py], [api_semantic_search]) *)

Module Retrieval.
Import Text Json Store.

(** [round(x)] to the nearest integer, ties to the even one. *)
Definition round_half_even (q : Q) : Z :=
  let f := Qfloor q in
  match Qcompare (q - inject_Z f) (1 # 2) with
  | Lt => f
  | Gt => f + 1
  | Eq => if Z.even f then f else f + 1
  end.

(** [round(x, 4)] *)
Definition round4 (q : Q) : Q := Qmake (round_half_even (q * 10000)) 10000.

(** [max(a, b)] and [min(a, b)] as Python evaluates them. *)
Definition py_qmax (a b : Q) : Q := if Qle_bool b a then a else b.
Definition py_qmin (a b : Q) : Q := if Qle_bool a b then a else b.

Definition clamp_limit (limit : option Z) : Z := Z.min 100 (Z.max 1 (default 30 limit)).

Definition clamp_similarity (min_similarity : option Q) : Q :=
  py_qmin 1 (py_qmax 0 (default (1 # 2) min_similarity)).

(** A [double precision] the store computes from two vectors: a number,
    by its exact rational value, or NaN, which the cosine distance [<=>] is
    when one of the vectors is zero. *)
Inductive float8 :=
| Number (q : Q)
| NaN.

(** [a <= b] as the store compares and sorts: NaN equals NaN and is above
    every number. *)
Definition float8_le (a b : float8) : bool :=
  match a, b with
  | _, NaN => true
  | NaN, Number _ => false
  | Number x, Number y => Qle_bool x y
  end.

(** A row of the query's result: the columns of [o.*], [entity_name],
    [storage] and [similarity]. *)
Record hit := {
  hit_id : Z;
  hit_row : observation;
  entity_name : option string;
  storage : string;
  similarity : float8
}.

(** A row of the response: [similarity] as formatted, and what the key
    [embedding] still holds, [None] once it is deleted. *)
Record result_row := {
  id : Z;
  entity_id : Z;
  observation_text : option string;
  observation_index : Z;
  source_type : string;
  created_at : Z;
  result_entity_name : option string;
  result_storage : string;
  result_similarity : option float8;
  result_embedding : option string
}.

Inductive response :=
| BadRequest
| Unavailable (details : list string)
| ServerError
| Results (query : string) (results : list result_row) (count : Z) (min_similarity : Q)
    (embedding_source : option string).

Definition status (r : response) : Z :=
  match r with
  | BadRequest => 400
  | Unavailable _ => 503
  | ServerError => 500
  | Results _ _ _ _ _ => 200
  end.

(** [ORDER BY similarity DESC]: NaN first. *)
Definition better (a b : hit) : Prop := float8_le (similarity b) (similarity a) = true.

#[local] Instance better_dec a b : Decision (better a b).
Proof. unfold better. apply _. Defined.

(** [WHERE similarity >= %s]: true of NaN. *)
Definition above (floor : Q) (h : hit) : bool := float8_le (Number floor) (similarity h).

(** [round(similarity, 4) if similarity else None]: NaN is true, and is
    rounded to itself. *)
Definition format_similarity (similarity : float8) : option float8 :=
  match similarity with
  | NaN => Some NaN
  | Number q => if Qeq_bool q 0 then None else Some (Number (round4 q))
  end.

Section WithDatabase.

(** [cosine_similarity q v] is [1 - (v <=> q)] as the store computes it for
    two vectors of one dimension; [names] is the table [entities] read
    through the join. *)
Variable cosine_similarity : vector -> vector -> float8.
Variable names : gmap Z string.
Variable ollama lmstudio : string -> Provider.reply.

(** How the store prints one component of a vector. *)
Variable number_text : Q -> string.

(** A stored vector as the cursor returns it: its text, in brackets. *)
Definition vector_text (v : vector) : string :=
  "[" ++ join "," (map number_text v) ++ "]".

(** The loop "Format for JSON" on one row. *)
Definition format_row (h : hit) : result_row :=
  {| id := hit_id h;
     entity_id := Store.entity_id (hit_row h);
     observation_text := Store.observation_text (hit_row h);
     observation_index := Store.observation_index (hit_row h);
     source_type := Store.source_type (hit_row h);
     created_at := Store.created_at (hit_row h);
     result_entity_name := entity_name h;
     result_storage := storage h;
     result_similarity := format_similarity (similarity h);
     result_embedding :=
       match embedding (hit_row h) with
       | Some v => if is_empty (vector_text v) then Some (vector_text v) else None
       | None => None
       end |}.

(** The rows of one table with a stored vector, each with its similarity to
    the query vector. *)
Definition candidates (label : string) (table : gmap Z observation) (q : vector) : list hit :=
  omap (fun kv =>
          match embedding (snd kv) with
          | Some v =>
              Some {| hit_id := fst kv; hit_row := snd kv;
                      entity_name := names !! Store.entity_id (snd kv);
                      storage := label; similarity := cosine_similarity q v |}
          | None => None
          end)
    (map_to_list table).

(** The rows the [WITH] clause defines. *)
Definition pool (t : tables) (include_archive : bool) (q : vector) : list hit :=
  if include_archive then
    (candidates "active" (observations t) q
       ++ candidates "archive" (observations_archive t) q)%list
  else candidates "active" (observations t) q.

(** [WHERE similarity >= %s ORDER BY similarity DESC LIMIT %s] *)
Definition ranked (floor : Q) (limit : Z) (rows : list hit) : list hit :=
  take (Z.to_nat limit) (merge_sort better (List.filter (above floor) rows)).

Definition same_dimension (q : vector) (h : hit) : bool :=
  match embedding (hit_row h) with
  | Some v => (length v =? length q)%nat
  | None => true
  end.

(** The query sent to the store: it raises when the parameter is not a
    vector, or a stored vector has another dimension. *)
Definition search (t : tables) (e : json) (include_archive : bool) (floor : Q) (limit : Z)
  : option (list hit) :=
  match Pass.numbers e with
  | None => None
  | Some [] => None
  | Some q =>
      let rows := pool t include_archive q in
      if forallb (same_dimension q) rows then Some (ranked floor limit rows) else None
  end.

(** [api_semantic_search()] for the request arguments [q], [limit],
    [min_similarity] (after [int] and [float]) and [include_archive]
    (compared with ['true']). *)
Definition api_semantic_search (t : tables) (q : string) (limit : option Z)
  (min_similarity : option Q) (include_archive : bool) : response :=
  let query := strip q in
  let limit := clamp_limit limit in
  let min_similarity := clamp_similarity min_similarity in
  if is_empty query then BadRequest
  else
    let st := Provider.api_embed ollama lmstudio query in
    match Provider.embedding st with
    | None => Unavailable (Provider.errors st)
    | Some e =>
        if negb (truthy e) then Unavailable (Provider.errors st)
        else
          match search t e include_archive min_similarity limit with
          | None => ServerError
          | Some results =>
              Results query (map format_row results) (Z.of_nat (length results))
                min_similarity (Provider.embedding_source st)
          end
    end.

End WithDatabase.

End Retrieval.

(** ** Rows ordered by distance

    The queries of [api_find_similar] and of [semantic_search] select the
    similarity [1 - (o.embedding <=> %s)] and order by the distance
    [o.embedding <=> %s].  For this order the store may scan the table, or
    the index [setup_vector_column] creates on it, which reaches a part of
    the rows only; either way the rows it reaches come in the order of
    their distances. *)

Module Neighbours.
Import Text Json Store Retrieval.

(** A row of such a query: the distance it is ordered by, and its columns. *)
Record neighbour := {
  distance : float8;
  near : hit
}.

(** [ORDER BY o.embedding <=> %s]: ascending, NaN last. *)
Definition nearer (a b : neighbour) : Prop := float8_le (distance a) (distance b) = true.

#[local] Instance nearer_dec a b : Decision (nearer a b).
Proof. unfold nearer. apply _. Defined.

Definition same_dimension (q : vector) (n : neighbour) : bool :=
  Retrieval.same_dimension q (near n).

Section WithDistance.

(** [cosine_distance q v] is [v <=> q], and [cosine_similarity q v] is
    [1 - (v <=> q)], as the store computes them for two vectors of one
    dimension. *)
Variable cosine_distance : vector -> vector -> float8.
Variable cosine_similarity : vector -> vector -> float8.
Variable names : gmap Z string.

(** The active rows with a stored vector, each with its distance from the
    vector [q] and its similarity to it. *)
Definition neighbours (table : gmap Z observation) (q : vector) : list neighbour :=
  omap (fun kv =>
          match embedding (snd kv) with
          | Some v =>
              Some {| distance := cosine_distance q v;
                      near := {| hit_id := fst kv; hit_row := snd kv;
                                 entity_name := names !! Store.entity_id (snd kv);
                                 storage := "active";
                                 similarity := cosine_similarity q v |} |}
          | None => None
          end)
    (map_to_list table).

End WithDistance.

End Neighbours.

(** ** Other handlers of the dashboard ([dashboard/app.py])

    Each handler opens a connection of its own, which is closed when the
    handler returns or raises; a handler that raises answers 500. *)

Module Dashboard.
Import Text Json Store Retrieval Neighbours.

#[local] Existing Instance Neighbours.nearer_dec.
#[local] Existing Instance Pass.newer_dec.

(** [SELECT ... FROM <table> o LEFT JOIN entities e ON o.entity_id = e.id
    WHERE o.id = %s], then [fetchone()]. *)
Definition select_row (table : tables -> gmap Z observation) (obs_id : Z)
  : db (option observation) :=
  exec statement in
  fun c => (Ok (table (working c) !! obs_id), c).

(** [DELETE FROM observations_archive WHERE id = %s] *)
Definition delete_archived (obs_id : Z) : db unit :=
  exec statement in
  fun c =>
    (Ok tt,
     with_working c
       {| observations := observations (working c);
          observations_archive := delete obs_id (observations_archive (working c)) |}).

Inductive detail_response :=
| Detail (id : Z) (row : observation) (entity_name : option string)
| DetailNotFound.

Inductive delete_response :=
| Deleted (deleted_id : Z) (source : string)
| DeleteNotFound.

(** A row of the answer of [api_find_similar]: the columns of [o.*] without
    the vector, [entity_name] and the formatted [similarity]. *)
Record similar_row := {
  similar_id : Z;
  similar_entity_id : Z;
  similar_text : option string;
  similar_index : Z;
  similar_source_type : string;
  similar_created_at : Z;
  similar_entity_name : option string;
  similar_similarity : option float8;
  similar_embedding : option string
}.

Inductive similar_response :=
| SimilarNotFound
| Similar (source_id : Z) (results : list similar_row) (count : Z).

Definition clamp_similar_limit (limit : option Z) : Z := Z.min 100 (Z.max 1 (default 10 limit)).

Section WithDatabase.

Variable cosine_distance : vector -> vector -> float8.
Variable cosine_similarity : vector -> vector -> float8.
Variable names : gmap Z string.
Variable number_text : Q -> string.

(** [reached v id]: the scan for the neighbours of the vector [v] reaches
    the row [id]; every row, when the store scans the table. *)
Variable reached : vector -> Z -> bool.

(** [api_observation_detail(obs_id)] *)
Definition api_observation_detail (obs_id : Z) : db detail_response :=
  let* obs := select_row observations obs_id in
  let* obs :=
    match obs with
    | Some o => ret (Some o)
    | None => select_row observations_archive obs_id
    end in
  match obs with
  | Some o => ret (Detail obs_id o (names !! Store.entity_id o))
  | None => ret DetailNotFound
  end.

(** [api_delete_observation(obs_id)] *)
Definition api_delete_observation (obs_id : Z) : db delete_response :=
  let* active := select_row observations obs_id in
  match active with
  | Some _ =>
      exec delete_observation obs_id in
      exec commit in
      ret (Deleted obs_id "active")
  | None =>
      let* archived := select_row observations_archive obs_id in
      match archived with
      | Some _ =>
          exec delete_archived obs_id in
          exec commit in
          ret (Deleted obs_id "archive")
      | None => ret DeleteNotFound
      end
  end.

(** [not row or not row['embedding']]: the cursor returns a stored vector
    as its text. *)
Definition no_vector (row : option observation) : bool :=
  match row with
  | Some o =>
      match embedding o with
      | Some v => is_empty (vector_text number_text v)
      | None => true
      end
  | None => true
  end.

(** The loop over the results of [api_find_similar] on one row. *)
Definition format_similar (h : hit) : similar_row :=
  {| similar_id := hit_id h;
     similar_entity_id := Store.entity_id (hit_row h);
     similar_text := Store.observation_text (hit_row h);
     similar_index := Store.observation_index (hit_row h);
     similar_source_type := Store.source_type (hit_row h);
     similar_created_at := Store.created_at (hit_row h);
     similar_entity_name := entity_name h;
     similar_similarity := format_similarity (similarity h);
     similar_embedding :=
       match embedding (hit_row h) with
       | Some v =>
           if is_empty (vector_text number_text v) then Some (vector_text number_text v)
           else None
       | None => None
       end |}.

(** The rows [WHERE o.embedding IS NOT NULL AND o.id != %s] keeps, each
    with its distance from the vector [v] and its similarity to it. *)
Definition others (t : tables) (obs_id : Z) (v : vector) : list neighbour :=
  List.filter (fun n => negb (hit_id (near n) =? obs_id))
    (neighbours cosine_distance cosine_similarity names (observations t) v).

(** The query "Find similar", ordered by [o.embedding <=> %s]: the store
    raises when a stored vector has another dimension than [v]. *)
Definition select_similar (obs_id : Z) (v : vector) (limit : Z) : db (list neighbour) :=
  exec statement in
  fun c =>
    let rows := others (working c) obs_id v in
    if forallb (Neighbours.same_dimension v) rows
    then
      (Ok (take (Z.to_nat limit)
             (merge_sort nearer
                (List.filter (fun n => reached v (hit_id (near n))) rows))), c)
    else (Raise, c).

(** [api_find_similar(obs_id)] for the request argument [limit] (after
    [int]). *)
Definition api_find_similar (obs_id : Z) (limit : option Z) : db similar_response :=
  let limit := clamp_similar_limit limit in
  let* row := select_row observations obs_id in
  let* row :=
    if no_vector row then select_row observations_archive obs_id else ret row in
  if no_vector row then ret SimilarNotFound
  else
    match row with
    | Some o =>
        match embedding o with
        | Some v =>
            let* results := select_similar obs_id v limit in
            ret (Similar obs_id (map (fun n => format_similar (near n)) results)
                   (Z.of_nat (length results)))
        | None => ret SimilarNotFound
        end
    | None => ret SimilarNotFound
    end.

End WithDatabase.

(** A page of the archive: the rows with the name of their entity, and
    the counts of the answer. *)
Record archive_page := {
  page_rows : list (Z * observation * option string);
  total : Z;
  page : Z;
  per_page : Z;
  pages : Z
}.

Section WithArchive.

Variable names : gmap Z string.

(** [text ILIKE pattern] as the store evaluates it. *)
Variable ilike : string -> string -> bool.

(** The [WHERE] clause of [api_archive]: an empty search and an entity of 0
    add no condition; a row without text matches no search. *)
Definition archive_filter (search : string) (entity : option Z) (kv : Z * observation)
  : bool :=
  (if is_empty search then true
   else
     match Store.observation_text (snd kv) with
     | Some text => ilike text ("%" ++ search ++ "%")
     | None => false
     end)
  && match entity with
     | Some e => if e =? 0 then true else Store.entity_id (snd kv) =? e
     | None => true
     end.

(** [api_archive()] for the request arguments [page], [per_page] and
    [entity_id] (after [int], absent when that fails) and [search], on a
    store that answers: the page, or [None] when the first query raises
    because the offset is no [bigint], which the handler answers with 500. *)
Definition api_archive (t : tables) (page per_page : option Z) (search : string)
  (entity : option Z) : option archive_page :=
  let page := Z.max 1 (default 1 page) in
  let per_page := Z.min 200 (Z.max 1 (default 50 per_page)) in
  let offset := (page - 1) * per_page in
  if BIGINT_MAX <? offset then None
  else
    let matching :=
      List.filter (archive_filter search entity) (map_to_list (observations_archive t)) in
    let observations :=
      take (Z.to_nat per_page) (drop (Z.to_nat offset) (merge_sort Pass.newer matching)) in
    let total := Z.of_nat (length matching) in
    Some {| page_rows := map (fun kv => (kv, names !! Store.entity_id (snd kv))) observations;
            total := total;
            page := page;
            per_page := per_page;
            pages := (total + per_page - 1) / per_page |}.

End WithArchive.

End Dashboard.

(** ** Search from the command line ([scripts/ollama_embeddings.py], [semantic_search]) *)

Module Search.
Import Text Json Store Retrieval Neighbours.

#[local] Existing Instance Neighbours.nearer_dec.


Section WithDatabase.

Variable cosine_distance : vector -> vector -> float8.
Variable cosine_similarity : vector -> vector -> float8.

(** The table [entities]: the name and the type of each entity. *)
Variable entities : gmap Z (string * string).
Variable ollama lmstudio : string -> Provider.reply.

(** [reached q id]: the scan for the neighbours of the vector [q] reaches
    the row [id]; every row, when the store scans the table. *)
Variable reached : vector -> Z -> bool.





End WithDatabase.

End Search.

(** ** Native messaging ([browser-extension/native-host/longterm_memory_host.py])

    The frames exchanged with the browser: four bytes of length, least
    significant first on the machines the host runs on, then the JSON
    text.  [stdin] is the input still to be read, [stdout] what has been
    written. *)

Module Native.
Import Json.

Definition MAX_MESSAGE_SIZE : Z := 1024 * 1024.

(** The exceptions of the main loop, each with what it was raised on. *)
Inductive failure :=
| BadHeader (raw_length : list Byte.byte)
| BadBody (body : list Byte.byte)
| NotAnObject (message : json)
| TooLong (message : json).

Inductive result (A : Type) :=
| Returns (a : A)
| Raises (e : failure).
Arguments Returns {A} a.
Arguments Raises {A} e.

(** [sys.stdin.buffer.read(n)]: the next [n] bytes, fewer at the end of the
    input. *)
Definition read (n : nat) (stdin : list Byte.byte) : list Byte.byte * list Byte.byte :=
  (take n stdin, drop n stdin).

Definition byte_value (b : Byte.byte) : Z := Z.of_N (Byte.to_N b).

Definition byte_of (n : Z) : Byte.byte := default Byte.x00 (Byte.of_N (Z.to_N (n mod 256))).

(** [struct.unpack('=I', raw)[0]]; it raises unless [raw] has four bytes. *)
Definition unpack_length (raw : list Byte.byte) : option Z :=
  match raw with
  | [b0; b1; b2; b3] =>
      Some (byte_value b0
            + 256 * (byte_value b1 + 256 * (byte_value b2 + 256 * byte_value b3)))
  | _ => None
  end.

(** [struct.pack('=I', n)]; it raises unless [n] fits in 32 bits. *)
Definition pack_length (n : Z) : option (list Byte.byte) :=
  if (0 <=? n) && (n <? 2 ^ 32)
  then Some [byte_of n; byte_of (n / 256); byte_of (n / 256 / 256);
             byte_of (n / 256 / 256 / 256)]
  else None.

Definition size_error : json :=
  JObj [("error", JStr "Message exceeds maximum size limit")].

Definition pong : json := JObj [("success", JBool true); ("message", JStr "pong")].

Inductive exit := EndOfInput | Crashed.

Section WithCodec.

(** [json.loads(body.decode('utf-8'))], [None] when either raises, and
    [json.dumps(message).encode('utf-8')]. *)
Variable loads : list Byte.byte -> option json.
Variable dumps : json -> list Byte.byte.

(** [str(action)] and [str(e)]. *)
Variable py_str : json -> string.
Variable error_text : failure -> string.

(** [save_observation(data)] on the state of the database. *)
Variable world : Type.
Variable save_observation : json -> world -> json * world.

(** [read_message()]: Python's [None] is what it returns at the end of the
    input and what [json.loads] returns for the text [null]. *)
Definition read_message (stdin : list Byte.byte) : result (option json) * list Byte.byte :=
  let '(raw_length, stdin) := read 4 stdin in
  match raw_length with
  | [] => (Returns None, stdin)
  | _ =>
      match unpack_length raw_length with
      | None => (Raises (BadHeader raw_length), stdin)
      | Some message_length =>
          if MAX_MESSAGE_SIZE <? message_length then (Returns (Some size_error), stdin)
          else
            let '(body, stdin) := read (Z.to_nat message_length) stdin in
            match loads body with
            | Some JNull => (Returns None, stdin)
            | Some message => (Returns (Some message), stdin)
            | None => (Raises (BadBody body), stdin)
            end
      end
  end.

(** [send_message(message)] *)
Definition send_message (message : json) (stdout : list Byte.byte) : result unit * list Byte.byte :=
  let encoded_message := dumps message in
  match pack_length (Z.of_nat (length encoded_message)) with
  | Some header => (Returns tt, (stdout ++ header ++ encoded_message)%list)
  | None => (Raises (TooLong message), stdout)
  end.

Definition unknown_action (action : json) : json :=
  JObj [("success", JBool false); ("error", JStr ("Unknown action: " ++ py_str action))].

Definition error_response (e : failure) : json :=
  JObj [("success", JBool false); ("error", JStr (error_text e))].

(** The response the loop body computes for a message; only a dictionary
    has the method [get]. *)
Definition respond (message : json) (w : world) : result json * world :=
  match message with
  | JObj fields =>
      let action := default JNull (field "action" fields) in
      if is_str "save" action then
        let '(response, w) := save_observation (default (JObj []) (field "data" fields)) w in
        (Returns response, w)
      else if is_str "ping" action then (Returns pong, w)
      else (Returns (unknown_action action), w)
  | _ => (Raises (NotAnObject message), w)
  end.

Record process := {
  stdin : list Byte.byte;
  stdout : list Byte.byte;
  state : world
}.

(** [main()], for [fuel] turns of its loop at most: how it ends, and what
    it leaves.  An exception raised while the answer to an exception is
    sent leaves the loop. *)
Fixpoint main (fuel : nat) (p : process) : option (exit * process) :=
  match fuel with
  | O => None
  | S fuel =>
      let recover (e : failure) (stdin : list Byte.byte) (stdout : list Byte.byte) (w : world) :=
        match send_message (error_response e) stdout with
        | (Returns _, stdout) => main fuel {| stdin := stdin; stdout := stdout; state := w |}
        | (Raises _, stdout) =>
            Some (Crashed, {| stdin := stdin; stdout := stdout; state := w |})
        end in
      match read_message (stdin p) with
      | (Returns None, stdin) =>
          Some (EndOfInput, {| stdin := stdin; stdout := stdout p; state := state p |})
      | (Returns (Some message), stdin) =>
          match respond message (state p) with
          | (Returns response, w) =>
              match send_message response (stdout p) with
              | (Returns _, stdout) =>
                  main fuel {| stdin := stdin; stdout := stdout; state := w |}
              | (Raises e, stdout) => recover e stdin stdout w
              end
          | (Raises e, w) => recover e stdin (stdout p) w
          end
      | (Raises e, stdin) => recover e stdin (stdout p) (state p)
      end
  end.

End WithCodec.

Arguments stdin {world} _.
Arguments stdout {world} _.
Arguments state {world} _.

End Native.

(** * Specifications and example data *)

(** ** The chunker *)

(** The chunk being filled once the sentences of [group] are in it: each
    sentence followed by a blank. *)
Fixpoint filled (group : list string) : string :=
  match group with
  | [] => EmptyString
  | sentence :: rest => (sentence ++ " " ++ filled rest)%string
  end.

(** The group [next] could not be continued in [group]: its first sentence
    did not fit the limit there. *)
Definition full (max_size : Z) (group next : list string) : Prop :=
  match next with
  | sentence :: _ => max_size <= Text.len (filled group) + Text.len sentence
  | [] => True
  end.

(** A sentence-based split of the whole text, as the specification has
    it: the sentences of the text, in order, are cut into consecutive
    groups, and each group gives one chunk, its sentences put together and
    trimmed; a group of several sentences stays, blanks included, within
    the limit; and a group ends only before a sentence that does not fit. *)
Definition sentence_based (text : string) (max_size : Z) (chunks : list string) : Prop :=
  exists groups : list (list string),
    concat groups = Chunker.split_sentences text /\
    Forall (fun group => group <> []) groups /\
    Forall (fun group => length group = 1%nat \/ Text.len (filled group) <= max_size)
      groups /\
    Sorted (full max_size) groups /\
    chunks = map (fun group => Text.strip (filled group)) groups.

(** The groups the loop over the sentences forms, from the group being
    filled on. *)
Fixpoint sentence_groups (max_size : Z) (group : list string) (sentences : list string)
  : list (list string) :=
  match sentences with
  | [] => [group]
  | sentence :: rest =>
      if Text.len (filled group) + Text.len sentence <? max_size
      then sentence_groups max_size (group ++ [sentence]) rest
      else group :: sentence_groups max_size [sentence] rest
  end.

(** A text of two topics whose sentences do not end where the topics do. *)
Definition straddling : string := "(1) Aaa. Bbb (2) ccc. Ddd".

(** ** The classifier *)

(** No pattern of any type matches the lowered text. *)
Definition no_type_pattern_matches (text : string) : bool :=
  forallb (fun entry =>
             forallb (fun pattern => negb (Regex.re_search pattern (Text.lower text)))
               (snd entry))
    Backfill.TYPE_PATTERNS.

(** ** The ingestion boundary *)

(** An empty database and a note saved with the empty category. *)
Definition empty_host_db : Host.database :=
  {| Host.entities := ∅; Host.observations := ∅;
     Host.entities_id_seq := 1; Host.observations_id_seq := 1 |}.

Definition note_without_category : Host.message :=
  {| Host.content := "remember this"; Host.url := "https://example.org/page";
     Host.title := "Example"; Host.capture_type := "note"; Host.category := "";
     Host.tags := Host.TagsList ["reading"]; Host.captured_at := None |}.

Definition note_with_category : Host.message :=
  {| Host.content := "remember this"; Host.url := "https://example.org/page";
     Host.title := "Example"; Host.capture_type := "note"; Host.category := "research";
     Host.tags := Host.TagsStr " reading , later "; Host.captured_at := None |}.

(** ** The embedding provider chain *)




(** What one attempt of the retrieval handler contributes: a value that
    counts as an embedding, or nothing. *)
Definition api_yield (value : Json.outcome Json.json) : option Json.json :=
  match value with
  | Json.Done e => if Json.truthy e then Some e else None
  | Json.Except => None
  end.

(** A refused connection to the primary and a two-component vector from
    the fallback. *)
Definition refused : string -> Provider.reply := fun _ => Provider.NoAnswer.

Definition fallback_answers : string -> Provider.reply :=
  fun _ => Provider.Answer
             (Json.JObj [("data", Json.JArr [Json.JObj [("embedding",
                            Json.JArr [Json.JNum 1; Json.JNum 0])]])]).

(** Replies of the primary that hold no vector where one is expected: a
    text at the endpoint of the embedding pass, a list with a null at the
    endpoint of the retrieval handler. *)
Definition ollama_malformed : string -> Provider.reply :=
  fun _ => Provider.Answer (Json.JObj [("embedding", Json.JStr "oops")]).

Definition api_ollama_malformed : string -> Provider.reply :=
  fun _ => Provider.Answer (Json.JObj [("embeddings", Json.JArr [Json.JArr [Json.JNull]])]).

(** ** Chunking and archiving one observation *)

Definition fox : string := "The quick brown fox jumps over the lazy dog.".

(** A log entry of 1354 characters: a date marker and thirty sentences. *)
Definition long_log : string := "Log: " ++ Text.join " " (repeat fox 30).

Definition log_row : Store.observation :=
  {| Store.entity_id := 1; Store.observation_text := Some long_log;
     Store.observation_index := 3; Store.source_type := "manual";
     Store.embedding := None; Store.created_at := 0 |}.

Definition log_tables : Store.tables :=
  {| Store.observations := {[ 7 := log_row ]}; Store.observations_archive := ∅ |}.

Definition log_store : Store.connection :=
  {| Store.committed := log_tables; Store.working := log_tables;
     Store.observations_id_seq := 8; Store.clock := 100; Store.faults := None |}.

(** The row [insert_chunk] stores. *)
Definition chunk_row (c : Store.connection) (entity_id : Z) (text : string) (index : Z)
  : Store.observation :=
  {| Store.entity_id := entity_id; Store.observation_text := Some text;
     Store.observation_index := index; Store.source_type := "chunked";
     Store.embedding := None; Store.created_at := Store.clock c |}.

(** The rows are either old or fresh chunks without a vector. *)
Definition old_or_chunk (before after : gmap Z Store.observation) : Prop :=
  forall k o, after !! k = Some o ->
    before !! k = Some o \/ (Store.source_type o = "chunked" /\ Store.embedding o = None).

(** The store of the log entry, raising at its fourth statement: the
    archive copy, after the two insertions. *)
Definition failing_log_store : Store.connection :=
  {| Store.committed := log_tables; Store.working := log_tables;
     Store.observations_id_seq := 8; Store.clock := 100; Store.faults := Some 3%nat |}.

(** ** The embedding pass *)

(** The rows an observation may be when it holds a vector, as the
    specification has it: a text within the threshold, or a chunk. *)
Definition short_or_chunk (o : Store.observation) : Prop :=
  match Store.observation_text o with
  | Some text => Text.len text <= Chunker.MAX_CHUNK_SIZE \/ Store.source_type o = "chunked"
  | None => True
  end.

(** A text above the threshold is one the chunker cuts in two chunks or
    more. *)
Definition splits (text : string) : Prop :=
  Chunker.MAX_CHUNK_SIZE < Text.len text ->
  (2 <= length (Chunker.smart_chunk_text text Chunker.MAX_CHUNK_SIZE))%nat.

(** Every observation of the table that holds a vector satisfies [P]. *)
Definition embedded_rows (P : Store.observation -> Prop) (t : Store.tables) : Prop :=
  forall id o, Store.observations t !! id = Some o -> Store.embedding o <> None -> P o.

(** The text and the source of every row: what the pass never changes. *)
Definition shape (m : gmap Z Store.observation) : gmap Z (option string * string) :=
  (fun o => (Store.observation_text o, Store.source_type o)) <$> m.

(** The invariant of the pass on a connection, and what it leaves when it
    raises. *)
Definition pass_invariant (c : Store.connection) : Prop :=
  embedded_rows short_or_chunk (Store.committed c) /\
  embedded_rows short_or_chunk (Store.working c).

(** The rows still to be processed are in the table with the text read at
    the start. *)
Definition snapshot (todo : list Pass.pending) (m : gmap Z Store.observation) : Prop :=
  forall obs, obs ∈ todo ->
    exists o, m !! Pass.id obs = Some o /\
              Store.observation_text o = Some (Pass.pending_text obs).

(** A primary provider that answers every text with the same vector of
    768 components. *)
Definition ollama_answers : string -> Provider.reply :=
  fun _ => Provider.Answer (Json.JObj [("embedding", Json.JArr (repeat (Json.JNum 1) 768))]).

(** An observation of 900 letters, without a sentence end or a marker. *)
Definition unsplit_text : string := Text.repeat_str "a" 900.

Definition unsplit_row : Store.observation :=
  {| Store.entity_id := 1; Store.observation_text := Some unsplit_text;
     Store.observation_index := 1; Store.source_type := "manual";
     Store.embedding := None; Store.created_at := 0 |}.

Definition unsplit_tables : Store.tables :=
  {| Store.observations := {[ 7 := unsplit_row ]}; Store.observations_archive := ∅ |}.

Definition unsplit_store : Store.connection :=
  {| Store.committed := unsplit_tables; Store.working := unsplit_tables;
     Store.observations_id_seq := 8; Store.clock := 100; Store.faults := None |}.

(** ** Semantic retrieval *)

(** The row of the query's result built for a stored observation. *)
Definition hit_of (cosine_similarity : Store.vector -> Store.vector -> Retrieval.float8)
  (names : gmap Z string) (label : string) (q : Store.vector) (k : Z) (o : Store.observation)
  (v : Store.vector) : Retrieval.hit :=
  {| Retrieval.hit_id := k; Retrieval.hit_row := o;
     Retrieval.entity_name := names !! Store.entity_id o;
     Retrieval.storage := label; Retrieval.similarity := cosine_similarity q v |}.




(** A query vector of norm 1 and two stored vectors of norm 29: their
    cosine similarities to the query are 21/29 and 20/29. *)
Definition unit_query : list Json.json := Json.JNum 1 :: repeat (Json.JNum 0) 767.

Definition query_answers : string -> Provider.reply :=
  fun _ => Provider.Answer (Json.JObj [("embeddings", Json.JArr [Json.JArr unit_query])]).

(** The same vector from the fallback, in its envelope. *)
Definition fallback_query_answers : string -> Provider.reply :=
  fun _ => Provider.Answer
             (Json.JObj [("data", Json.JArr [Json.JObj [("embedding", Json.JArr unit_query)]])]).

Definition dot (q v : Store.vector) : Q := fold_right Qplus 0%Q (zip_with Qmult q v).

(** The cosine similarity of a vector of norm 1 and a vector that is zero
    or of norm 29. *)
Definition cosine_over_29 (q v : Store.vector) : Retrieval.float8 :=
  if forallb (Qeq_bool 0) v then Retrieval.NaN else Retrieval.Number (dot q v / 29).

Definition fox_row : Store.observation :=
  {| Store.entity_id := 1; Store.observation_text := Some "The quick brown fox";
     Store.observation_index := 1; Store.source_type := "manual";
     Store.embedding := Some ((21 : Q) :: (20 : Q) :: repeat (0 : Q) 766);
     Store.created_at := 0 |}.

Definition dog_row : Store.observation :=
  {| Store.entity_id := 1; Store.observation_text := Some "The lazy dog";
     Store.observation_index := 2; Store.source_type := "manual";
     Store.embedding := Some ((20 : Q) :: (21 : Q) :: repeat (0 : Q) 766);
     Store.created_at := 0 |}.

Definition fox_tables : Store.tables :=
  {| Store.observations := {[ 7 := fox_row ]};
     Store.observations_archive := {[ 3 := dog_row ]} |}.

Definition fox_result : Retrieval.result_row :=
  {| Retrieval.id := 7; Retrieval.entity_id := 1;
     Retrieval.observation_text := Some "The quick brown fox";
     Retrieval.observation_index := 1; Retrieval.source_type := "manual";
     Retrieval.created_at := 0; Retrieval.result_entity_name := None;
     Retrieval.result_storage := "active";
     Retrieval.result_similarity := Some (Retrieval.Number (7241 # 10000));
     Retrieval.result_embedding := None |}.

Definition dog_result : Retrieval.result_row :=
  {| Retrieval.id := 3; Retrieval.entity_id := 1;
     Retrieval.observation_text := Some "The lazy dog";
     Retrieval.observation_index := 2; Retrieval.source_type := "manual";
     Retrieval.created_at := 0; Retrieval.result_entity_name := None;
     Retrieval.result_storage := "archive";
     Retrieval.result_similarity := Some (Retrieval.Number (6897 # 10000));
     Retrieval.result_embedding := None |}.

(** ** Further properties of the chunker *)

(** The text without its whitespace characters. *)
Fixpoint squeeze (s : string) : string :=
  match s with
  | EmptyString => EmptyString
  | String c s' => if Text.is_space c then squeeze s' else String c (squeeze s')
  end.

(** The text neither starts nor ends with a whitespace character. *)
Definition trimmed (s : string) : Prop := Text.strip s = s.

Definition starts_with_paren (s : string) : bool :=
  match s with
  | String "("%char _ => true
  | _ => false
  end.

(** What the loop over the sentences keeps of a chunk being filled or
    closed: it is short, or it is one sentence. *)
Definition short_or_sentence (max_size : Z) (sentences : list string) (y : string) : Prop :=
  Text.len y < max_size \/ In y sentences.

(** The characters other than whitespace held by the state of the loop. *)
Definition held (st : list string * string) : string :=
  (squeeze (Text.concat_all (fst st)) ++ squeeze (snd st))%string.

(** ** Further properties of the embedding pass *)

(** The rows of [before] that hold a vector are in [after], unchanged. *)
Definition embedded_kept (before after : gmap Z Store.observation) : Prop :=
  forall k o, before !! k = Some o -> Store.embedding o <> None -> after !! k = Some o.

(** No row with a vector is stored under [id]. *)
Definition unembedded (m : gmap Z Store.observation) (id : Z) : Prop :=
  forall o, m !! id = Some o -> Store.embedding o = None.

(** No row of the open transaction disappears from [c] to [c']. *)
Definition rows_stay (c c' : Store.connection) : Prop :=
  forall k, is_Some (Store.observations (Store.working c) !! k) ->
            is_Some (Store.observations (Store.working c') !! k).

(** Both views of the connection keep the rows that held a vector. *)
Definition keeps_embedded (start : gmap Z Store.observation) (c : Store.connection) : Prop :=
  embedded_kept start (Store.observations (Store.committed c)) /\
  embedded_kept start (Store.observations (Store.working c)).

(** A store holding the log entry, still to be embedded, beside an
    observation that already has its vector. *)
Definition mixed_tables : Store.tables :=
  {| Store.observations := <[ 5 := fox_row ]> {[ 7 := log_row ]};
     Store.observations_archive := ∅ |}.

Definition mixed_store : Store.connection :=
  {| Store.committed := mixed_tables; Store.working := mixed_tables;
     Store.observations_id_seq := 8; Store.clock := 100; Store.faults := None |}.

(** ** Further properties of the providers and of retrieval *)

(** A text without whitespace characters. *)
Fixpoint spaceless (s : string) : bool :=
  match s with
  | EmptyString => true
  | String c s' => negb (Text.is_space c) && spaceless s'
  end.

(** A word of [str.split()]: not empty, without whitespace. *)
Definition is_word (w : string) : bool := negb (Text.is_empty w) && spaceless w.

(** The stored observation a row of the response renders: it holds a
    vector, and is in the table the row's [storage] names. *)
Definition rendered_from (names : gmap Z string) (t : Store.tables) (include_archive : bool)
  (r : Retrieval.result_row) : Prop :=
  exists (o : Store.observation) (v : Store.vector),
    ((Retrieval.result_storage r = "active" /\
      Store.observations t !! Retrieval.id r = Some o) \/
     (include_archive = true /\ Retrieval.result_storage r = "archive" /\
      Store.observations_archive t !! Retrieval.id r = Some o)) /\
    Store.embedding o = Some v /\
    Retrieval.observation_text r = Store.observation_text o /\
    Retrieval.entity_id r = Store.entity_id o /\
    Retrieval.observation_index r = Store.observation_index o /\
    Retrieval.result_entity_name r = names !! Store.entity_id o.

(** ** Further properties of the ingestion boundary *)

(** The score of a capture whose tag list is not empty. *)
Definition capture_importance (capture_type : string) : float :=
  if String.eqb capture_type "note" || String.eqb capture_type "selection"
  then 0.79999999999999993%float
  else if String.eqb capture_type "page" then 0.5%float else 0.6%float.

(** No two entities of the database have the same name. *)
Definition unique_names (db : Host.database) : Prop :=
  forall k1 k2 e1 e2,
    Host.entities db !! k1 = Some e1 -> Host.entities db !! k2 = Some e2 ->
    Host.name e1 = Host.name e2 -> k1 = k2.

(** The entity a save creates for a domain. *)
Definition new_entity (domain title : string) : Host.entity :=
  {| Host.name := domain; Host.entity_type := "website";
     Host.entity_source := "browser_extension"; Host.observation_count := 1;
     Host.first_title := title |}.

(** Two notes taken on pages of one site. *)
Definition first_note : Host.message :=
  {| Host.content := "remember this"; Host.url := "https://example.org/page";
     Host.title := "Example"; Host.capture_type := "note"; Host.category := "research";
     Host.tags := Host.TagsList []; Host.captured_at := None |}.

Definition second_note : Host.message :=
  {| Host.content := "and this"; Host.url := "https://example.org/other";
     Host.title := "Other"; Host.capture_type := "page"; Host.category := "auto";
     Host.tags := Host.TagsStr "later"; Host.captured_at := None |}.

(** ** The other handlers of the dashboard *)

(** What a deletion that answers [Deleted] leaves: the row is gone from
    the table the answer names, and nothing else has changed. *)
Definition deleted_from (before after : Store.tables) (obs_id : Z) (source : string) : Prop :=
  (source = "active" /\
   is_Some (Store.observations before !! obs_id) /\
   Store.observations after = delete obs_id (Store.observations before) /\
   Store.observations_archive after = Store.observations_archive before) \/
  (source = "archive" /\
   Store.observations before !! obs_id = None /\
   is_Some (Store.observations_archive before !! obs_id) /\
   Store.observations after = Store.observations before /\
   Store.observations_archive after = delete obs_id (Store.observations_archive before)).

(** A store that holds one id in both tables. *)
Definition twice_tables : Store.tables :=
  {| Store.observations := {[ 3 := fox_row ]};
     Store.observations_archive := {[ 3 := dog_row ]} |}.

Definition twice_store : Store.connection :=
  {| Store.committed := twice_tables; Store.working := twice_tables;
     Store.observations_id_seq := 8; Store.clock := 100; Store.faults := None |}.

(** A connection on the tables of the two foxes. *)
Definition fox_store : Store.connection :=
  {| Store.committed := fox_tables; Store.working := fox_tables;
     Store.observations_id_seq := 8; Store.clock := 100; Store.faults := None |}.

(** The cosine similarity of two vectors that are zero or of norm 29, and
    the cosine distance that goes with it. *)
Definition cosine_between_29 (q v : Store.vector) : Retrieval.float8 :=
  if forallb (Qeq_bool 0) q || forallb (Qeq_bool 0) v then Retrieval.NaN
  else Retrieval.Number (dot q v / 841).

Definition distance_between_29 (q v : Store.vector) : Retrieval.float8 :=
  match cosine_between_29 q v with
  | Retrieval.Number s => Retrieval.Number (1 - s)
  | Retrieval.NaN => Retrieval.NaN
  end.

(** A store that holds, beside the fox and the archived dog, an active
    observation whose vector is zero. *)
Definition zero_row : Store.observation :=
  {| Store.entity_id := 1; Store.observation_text := Some "Nothing";
     Store.observation_index := 3; Store.source_type := "manual";
     Store.embedding := Some (repeat (0 : Q) 768);
     Store.created_at := 0 |}.

Definition zero_tables : Store.tables :=
  {| Store.observations := <[ 5 := zero_row ]> {[ 7 := fox_row ]};
     Store.observations_archive := {[ 3 := dog_row ]} |}.

Definition zero_store : Store.connection :=
  {| Store.committed := zero_tables; Store.working := zero_tables;
     Store.observations_id_seq := 8; Store.clock := 100; Store.faults := None |}.

(** The observation of the zero vector as a semantic search renders it. *)
Definition zero_result : Retrieval.result_row :=
  {| Retrieval.id := 5; Retrieval.entity_id := 1;
     Retrieval.observation_text := Some "Nothing";
     Retrieval.observation_index := 3; Retrieval.source_type := "manual";
     Retrieval.created_at := 0; Retrieval.result_entity_name := None;
     Retrieval.result_storage := "active";
     Retrieval.result_similarity := Some Retrieval.NaN;
     Retrieval.result_embedding := None |}.

(** The neighbours of the dog in that store, as the answer renders them:
    the observation of the zero vector comes last, its similarity no
    number. *)
Definition fox_similar : Dashboard.similar_row :=
  {| Dashboard.similar_id := 7; Dashboard.similar_entity_id := 1;
     Dashboard.similar_text := Some "The quick brown fox";
     Dashboard.similar_index := 1; Dashboard.similar_source_type := "manual";
     Dashboard.similar_created_at := 0; Dashboard.similar_entity_name := None;
     Dashboard.similar_similarity := Some (Retrieval.Number (9988 # 10000));
     Dashboard.similar_embedding := None |}.

Definition zero_similar : Dashboard.similar_row :=
  {| Dashboard.similar_id := 5; Dashboard.similar_entity_id := 1;
     Dashboard.similar_text := Some "Nothing";
     Dashboard.similar_index := 3; Dashboard.similar_source_type := "manual";
     Dashboard.similar_created_at := 0; Dashboard.similar_entity_name := None;
     Dashboard.similar_similarity := Some Retrieval.NaN;
     Dashboard.similar_embedding := None |}.

(** A row of the neighbours' answer renders an active observation with a
    vector, other than the one asked about. *)
Definition neighbour_of (t : Store.tables) (obs_id : Z) (r : Dashboard.similar_row) : Prop :=
  Dashboard.similar_id r <> obs_id /\
  Dashboard.similar_embedding r = None /\
  exists (o : Store.observation) (v : Store.vector),
    Store.observations t !! Dashboard.similar_id r = Some o /\
    Store.embedding o = Some v /\
    Dashboard.similar_text r = Store.observation_text o /\
    Dashboard.similar_entity_id r = Store.entity_id o.

(** The observation asked about holds a vector, in one table or the other. *)
Definition has_source_vector (t : Store.tables) (obs_id : Z) : Prop :=
  exists (o : Store.observation) (v : Store.vector),
    (Store.observations t !! obs_id = Some o \/
     Store.observations_archive t !! obs_id = Some o) /\
    Store.embedding o = Some v.

(** ** Further properties of the classifier *)

(** The score of [calculate_importance] before clamping, as a function of
    what the tests of the function found: the signals of each kind, the two
    length tests and the entity test. *)
Definition add_flags (flags : list bool) (delta : float) (score : float) : float :=
  fold_left (fun score (flag : bool) => if flag then (score + delta)%float else score)
    flags score.

Definition sub_flags (flags : list bool) (delta : float) (score : float) : float :=
  fold_left (fun score (flag : bool) => if flag then (score - delta)%float else score)
    flags score.

Definition flag_score (high medium low : list bool) (long longish entity : bool) : float :=
  let score := 0.5%float in
  let score := add_flags high 0.15 score in
  let score := add_flags medium 0.08 score in
  let score := sub_flags low 0.05 score in
  let score :=
    if long then (score + 0.1)%float
    else if longish then (score + 0.05)%float
    else score in
  if entity then (score + 0.1)%float else score.

(** A test on every value of a flag. *)
Definition both (p : bool -> bool) : bool := p true && p false.

(** ** Search from the command line *)








(** ** Native messaging *)

(** A codec that knows three texts: the empty object, [null], and one
    text for every other value. *)
Definition toy_dumps (message : Json.json) : list Byte.byte :=
  match message with
  | Json.JObj [] => [Byte.x7b; Byte.x7d]
  | Json.JNull => [Byte.x6e; Byte.x75; Byte.x6c; Byte.x6c]
  | _ => [Byte.x3f]
  end.

Definition toy_loads (body : list Byte.byte) : option Json.json :=
  match body with
  | [Byte.x7b; Byte.x7d] => Some (Json.JObj [])
  | [Byte.x6e; Byte.x75; Byte.x6c; Byte.x6c] => Some Json.JNull
  | _ => None
  end.

(** A host whose database is not looked at. *)
Definition toy_main : nat -> Native.process unit -> option (Native.exit * Native.process unit) :=
  Native.main toy_loads toy_dumps (fun _ => "None") (fun _ => "error") unit
    (fun data w => (data, w)).

(** The frame of [null], followed by the frame of the empty object. *)
Definition null_then_object : list Byte.byte :=
  [Byte.x04; Byte.x00; Byte.x00; Byte.x00; Byte.x6e; Byte.x75; Byte.x6c; Byte.x6c;
   Byte.x02; Byte.x00; Byte.x00; Byte.x00; Byte.x7b; Byte.x7d].

(** A frame that announces two mebibytes, and the start of its body. *)
Definition oversized : list Byte.byte :=
  [Byte.x00; Byte.x00; Byte.x20; Byte.x00; Byte.x7b; Byte.x7d].

(** A store with one short observation still to be embedded. *)
Definition short_row : Store.observation :=
  {| Store.entity_id := 1; Store.observation_text := Some fox;
     Store.observation_index := 1; Store.source_type := "manual";
     Store.embedding := None; Store.created_at := 0 |}.

Definition short_tables : Store.tables :=
  {| Store.observations := {[ 7 := short_row ]}; Store.observations_archive := ∅ |}.

Definition short_store : Store.connection :=
  {| Store.committed := short_tables; Store.working := short_tables;
     Store.observations_id_seq := 8; Store.clock := 100; Store.faults := None |}.

(** * Properties *)

(** ** Floats *)

Lemma ltb_leb (x y : float) : PrimFloat.ltb x y = true -> PrimFloat.leb x y = true.
Proof.
  rewrite ltb_spec, leb_spec. unfold SFltb, SFleb.
  destruct (SFcompare (Prim2SF x) (Prim2SF y)) as [[ | | ] | ]; congruence.
Qed.

(** Clamping between two ordered bounds lands between them, whatever the
    score is. *)
Lemma clamp_between (lo hi s : float) :
  PrimFloat.leb lo lo = true -> PrimFloat.leb lo hi = true -> PrimFloat.leb hi hi = true ->
  PrimFloat.leb lo (PyFloat.py_max lo (PyFloat.py_min hi s)) = true /\
  PrimFloat.leb (PyFloat.py_max lo (PyFloat.py_min hi s)) hi = true.
Proof.
  intros Hlo Hlohi Hhi. unfold PyFloat.py_max, PyFloat.py_min.
  destruct (PrimFloat.ltb s hi) eqn:E1.
  - destruct (PrimFloat.ltb lo s) eqn:E2; auto using ltb_leb.
  - destruct (PrimFloat.ltb lo hi) eqn:E2; auto.
Qed.

(** ** Regular expressions *)

Lemma count_matches_none (re : Regex.regex) (s : string) :
  Regex.search re s = false -> forall skip, Regex.count_matches re skip s = O.
Proof.
  induction s as [ | c s IH]; intros Hs skip; [reflexivity | ].
  cbn [Regex.search] in Hs. cbn [Regex.count_matches].
  destruct (Regex.match_here re (String c s)); [discriminate | ].
  destruct skip; apply IH, Hs.
Qed.

Lemma findall_count_none (pattern s : string) :
  Regex.re_search pattern s = false -> Regex.findall_count pattern s = O.
Proof. intros H. apply count_matches_none, H. Qed.

(** ** The chunker *)

(** C3.  For the text made of 900 letters "a", a full stop, a blank and
    900 letters "b", and the size limit 800, the chunker returns two chunks
    of 901 and 900 characters: sentences longer than the limit are emitted
    whole, not split at the limit. *)
Theorem smart_chunk_text_oversized_sentences :
  Chunker.smart_chunk_text
    (Text.repeat_str "a" 900 ++ ". " ++ Text.repeat_str "b" 900) 800
  = [Text.repeat_str "a" 900 ++ "."; Text.repeat_str "b" 900]
  /\ Text.len (Text.repeat_str "a" 900 ++ ".") = 901
  /\ Text.len (Text.repeat_str "b" 900) = 900.
Proof. vm_compute. repeat split. Qed.

Lemma append_blank_not_empty (a b : string) : Text.is_empty (a ++ b ++ " ") = false.
Proof. destruct a; [destruct b | ]; reflexivity. Qed.

Lemma add_sentence_fills (max_size : Z) (st : list string * string) (sentence : string) :
  Text.is_empty (snd (Chunker.add_sentence max_size st sentence)) = false.
Proof.
  unfold Chunker.add_sentence. destruct st as [chunks current_chunk].
  destruct (Text.len current_chunk + Text.len sentence <? max_size); cbn [snd].
  - apply append_blank_not_empty.
  - apply (append_blank_not_empty EmptyString).
Qed.

Lemma sentence_pieces_not_nil (m : Chunker.scan) (s : string) :
  Chunker.sentence_pieces m s <> [].
Proof.
  revert m. induction s as [ | c s IH]; intros m; [discriminate | ].
  cbn [Chunker.sentence_pieces].
  assert (Hcons : forall l, Text.cons_char c l <> []) by (intros [ | p ps]; discriminate).
  destruct m; try destruct (Text.is_space c); try apply Hcons; try apply IH; discriminate.
Qed.

(** The chunk being filled is never empty when the loop over the sentences
    ends: the fallback [[text[:max_size]]] of [smart_chunk_text] is never
    taken, and the last chunk is the trimmed rest. *)
Lemma sentence_chunks_never_falls_back (text : string) (max_size : Z) :
  Chunker.sentence_chunks text max_size
  = (fst (fold_left (Chunker.add_sentence max_size) (Chunker.split_sentences text)
            ([], EmptyString))
     ++ [Text.strip (snd (fold_left (Chunker.add_sentence max_size)
                            (Chunker.split_sentences text) ([], EmptyString)))])%list.
Proof.
  unfold Chunker.sentence_chunks, Chunker.split_sentences.
  pose proof (sentence_pieces_not_nil Chunker.Elsewhere text) as Hne.
  assert (Hfill : forall (l : list string) (st : list string * string),
            l <> [] ->
            Text.is_empty (snd (fold_left (Chunker.add_sentence max_size) l st)) = false).
  { induction l as [ | x l IH]; intros st Hl; [congruence | ].
    cbn [fold_left]. destruct l as [ | y l]; [apply add_sentence_fills | ].
    apply IH. discriminate. }
  specialize (Hfill _ ([], EmptyString) Hne).
  destruct (fold_left (Chunker.add_sentence max_size)
              (Chunker.sentence_pieces Chunker.Elsewhere text) ([], EmptyString))
    as [chunks current_chunk].
  cbn [fst snd] in *. rewrite Hfill.
  destruct chunks; reflexivity.
Qed.

Lemma append_cons (c : ascii) (a b : string) :
  (String c a ++ b)%string = String c (a ++ b).
Proof. reflexivity. Qed.

Lemma append_empty_l (a : string) : ("" ++ a)%string = a.
Proof. reflexivity. Qed.

Lemma append_assoc (a b c : string) : ((a ++ b) ++ c)%string = (a ++ b ++ c)%string.
Proof.
  induction a as [ | x a IH]; [reflexivity | ]. rewrite !append_cons. f_equal. exact IH.
Qed.

Lemma append_empty_r (a : string) : (a ++ "")%string = a.
Proof.
  induction a as [ | x a IH]; [reflexivity | ]. rewrite append_cons. f_equal. exact IH.
Qed.

Lemma len_append (a b : string) : Text.len (a ++ b) = Text.len a + Text.len b.
Proof.
  unfold Text.len. induction a as [ | x a IH]; [reflexivity | ].
  rewrite append_cons. cbn [String.length]. lia.
Qed.

Lemma filled_snoc (group : list string) (sentence : string) :
  filled (group ++ [sentence]) = (filled group ++ sentence ++ " ")%string.
Proof.
  induction group as [ | s group IH]; [reflexivity | ].
  cbn [app filled]. rewrite IH, !append_assoc. reflexivity.
Qed.

Lemma filled_not_empty (group : list string) :
  group <> [] -> Text.is_empty (filled group) = false.
Proof.
  destruct group as [ | s group]; [congruence | ]. intros _. cbn [filled].
  destruct s; reflexivity.
Qed.

(** The groups start with the group being filled, and hold its sentences
    and the ones still to come, in order. *)
Lemma sentence_groups_head (max_size : Z) (sentences : list string) :
  forall group, exists more tail,
    sentence_groups max_size group sentences = ((group ++ more)%list :: tail).
Proof.
  induction sentences as [ | s rest IH]; intros group; cbn [sentence_groups].
  - exists [], []. rewrite app_nil_r. reflexivity.
  - destruct (Text.len (filled group) + Text.len s <? max_size).
    + destruct (IH (group ++ [s])%list) as (more & tail & ->).
      exists (s :: more), tail. rewrite <- app_assoc. reflexivity.
    + exists [], (sentence_groups max_size [s] rest). rewrite app_nil_r. reflexivity.
Qed.

Lemma sentence_groups_concat (max_size : Z) (sentences : list string) :
  forall group, concat (sentence_groups max_size group sentences) = (group ++ sentences)%list.
Proof.
  induction sentences as [ | s rest IH]; intros group; cbn [sentence_groups].
  - cbn. rewrite !app_nil_r. reflexivity.
  - destruct (Text.len (filled group) + Text.len s <? max_size).
    + rewrite IH, <- app_assoc. reflexivity.
    + cbn [concat]. rewrite IH. reflexivity.
Qed.

Lemma sentence_groups_not_nil (max_size : Z) (sentences : list string) :
  forall group, group <> [] ->
    Forall (fun g => g <> []) (sentence_groups max_size group sentences).
Proof.
  induction sentences as [ | s rest IH]; intros group Hne; cbn [sentence_groups].
  - constructor; [exact Hne | constructor].
  - destruct (Text.len (filled group) + Text.len s <? max_size).
    + apply IH. destruct group; discriminate.
    + constructor; [exact Hne | ]. apply IH. discriminate.
Qed.

Lemma sentence_groups_within (max_size : Z) (sentences : list string) :
  forall group,
    length group = 1%nat \/ Text.len (filled group) <= max_size ->
    Forall (fun g => length g = 1%nat \/ Text.len (filled g) <= max_size)
      (sentence_groups max_size group sentences).
Proof.
  induction sentences as [ | s rest IH]; intros group Hg; cbn [sentence_groups].
  - constructor; [exact Hg | constructor].
  - destruct (Text.len (filled group) + Text.len s <? max_size) eqn:Hfit.
    + apply IH. right. apply Z.ltb_lt in Hfit.
      rewrite filled_snoc, !len_append. change (Text.len " ") with 1. lia.
    + constructor; [exact Hg | ]. apply IH. left. reflexivity.
Qed.

Lemma sentence_groups_full (max_size : Z) (sentences : list string) :
  forall group, Sorted (full max_size) (sentence_groups max_size group sentences).
Proof.
  induction sentences as [ | s rest IH]; intros group; cbn [sentence_groups].
  - constructor; constructor.
  - destruct (Text.len (filled group) + Text.len s <? max_size) eqn:Hfit; [apply IH | ].
    constructor; [apply IH | ].
    destruct (sentence_groups_head max_size rest [s]) as (more & tail & ->).
    constructor. cbn [app full]. apply Z.ltb_ge, Hfit.
Qed.

(** The loop over the sentences closes one chunk per group. *)
Lemma fold_add_sentence_groups (max_size : Z) (sentences : list string) :
  forall (chunks : list string) (group : list string),
    group <> [] ->
    (fst (fold_left (Chunker.add_sentence max_size) sentences (chunks, filled group))
       ++ [Text.strip (snd (fold_left (Chunker.add_sentence max_size) sentences
                              (chunks, filled group)))])%list
    = (chunks ++ map (fun g => Text.strip (filled g))
                   (sentence_groups max_size group sentences))%list.
Proof.
  induction sentences as [ | s rest IH]; intros chunks group Hne;
    cbn [fold_left sentence_groups].
  - reflexivity.
  - unfold Chunker.add_sentence at 2 4.
    destruct (Text.len (filled group) + Text.len s <? max_size).
    + rewrite <- filled_snoc. apply IH. destruct group; discriminate.
    + rewrite (filled_not_empty group Hne).
      change (s ++ " ")%string with (filled [s]).
      rewrite (IH (chunks ++ [Text.strip (filled group)])%list [s]) by discriminate.
      rewrite <- app_assoc. reflexivity.
Qed.

(** The second half of the chunker gives a sentence-based split. *)
Lemma sentence_chunks_sentence_based (text : string) (max_size : Z) :
  sentence_based text max_size (Chunker.sentence_chunks text max_size).
Proof.
  rewrite sentence_chunks_never_falls_back. unfold Chunker.split_sentences.
  pose proof (sentence_pieces_not_nil Chunker.Elsewhere text) as Hne.
  destruct (Chunker.sentence_pieces Chunker.Elsewhere text) as [ | s rest] eqn:Hs;
    [congruence | ].
  cbn [fold_left].
  assert (Hfirst : Chunker.add_sentence max_size ([], EmptyString) s = ([], filled [s])).
  { unfold Chunker.add_sentence. change (Text.len "") with 0.
    destruct (0 + Text.len s <? max_size); reflexivity. }
  rewrite Hfirst, (fold_add_sentence_groups max_size rest [] [s]) by discriminate.
  exists (sentence_groups max_size [s] rest).
  split; [unfold Chunker.split_sentences; rewrite Hs; apply sentence_groups_concat | ].
  split; [apply sentence_groups_not_nil; discriminate | ].
  split; [apply sentence_groups_within; left; reflexivity | ].
  split; [apply sentence_groups_full | reflexivity].
Qed.

(** The test of a topical split fails as soon as one non-blank piece does
    not fit. *)
Lemma topics_fit_false (topics : list string) (max_size : Z) (t : string) :
  In t topics -> Text.nonblank t = true -> max_size <= Text.len t ->
  Chunker.topics_fit topics max_size = false.
Proof.
  intros Hin Hnb Hlen. unfold Chunker.topics_fit.
  apply andb_false_iff. right.
  apply not_true_is_false. intros Hall.
  rewrite forallb_forall in Hall.
  assert (Hlt : (Text.len t <? max_size) = true).
  { apply Hall. apply filter_In. split; assumption. }
  apply Z.ltb_lt in Hlt. lia.
Qed.

(** C8.  With a size limit above the 15 characters of its longer piece,
    the text "(1) intro text (2) more text" splits into the two topics.
    Whenever one non-blank piece of the split by markers does not fit the
    limit, the pieces are given up and the result is a sentence-based split
    of the whole text: the sentences of the text, in order, cut into
    consecutive groups that give one chunk each, a group of several
    sentences staying within the limit and ending only before a sentence
    that does not fit.  So the text "(1) Aaa. Bbb (2) ccc. Ddd", whose
    first piece has the 13 characters of the limit, is cut at its sentence
    ends, and its second chunk reaches over the marker of the second
    topic. *)
Theorem topical_split_edge_cases :
  (forall max_size : Z, 15 < max_size ->
     Chunker.smart_chunk_text "(1) intro text (2) more text" max_size
     = ["(1) intro text"; "(2) more text"]) /\
  (forall (text : string) (max_size : Z) (t : string),
     In t (Chunker.split_topics text) -> Text.nonblank t = true -> max_size <= Text.len t ->
     sentence_based text max_size (Chunker.smart_chunk_text text max_size)) /\
  Chunker.split_topics straddling = [""; "(1) Aaa. Bbb "; "(2) ccc. Ddd"] /\
  Chunker.split_sentences straddling = ["(1) Aaa."; "Bbb (2) ccc."; "Ddd"] /\
  Chunker.smart_chunk_text straddling 13 = ["(1) Aaa."; "Bbb (2) ccc."; "Ddd"].
Proof.
  split; [ | split; [ | split; [ | split]]].
  - intros max_size H. unfold Chunker.smart_chunk_text.
    replace (Chunker.split_topics "(1) intro text (2) more text")
      with [""; "(1) intro text "; "(2) more text"] by (vm_compute; reflexivity).
    assert (Hfit : Chunker.topics_fit [""; "(1) intro text "; "(2) more text"] max_size = true).
    { unfold Chunker.topics_fit.
      replace (List.filter Text.nonblank [""; "(1) intro text "; "(2) more text"])
        with ["(1) intro text "; "(2) more text"] by (vm_compute; reflexivity).
      cbn [forallb length]. change (Text.len "(1) intro text ") with 15.
      change (Text.len "(2) more text") with 13.
      rewrite !andb_true_iff, !Z.ltb_lt. lia. }
    rewrite Hfit. vm_compute. reflexivity.
  - intros text max_size t Hin Hnb Hlen. unfold Chunker.smart_chunk_text.
    rewrite (topics_fit_false _ _ t Hin Hnb Hlen). apply sentence_chunks_sentence_based.
  - vm_compute. reflexivity.
  - vm_compute. reflexivity.
  - vm_compute. reflexivity.
Qed.

(** A size limit between the longer piece and the whole text, and the
    text whose first topic does not fit. *)
Lemma topical_split_edge_cases_witness :
  Chunker.smart_chunk_text "(1) intro text (2) more text" 20
  = ["(1) intro text"; "(2) more text"] /\
  sentence_based straddling 13 ["(1) Aaa."; "Bbb (2) ccc."; "Ddd"].
Proof.
  destruct topical_split_edge_cases as (Htopics & Hsentences & _ & _ & Hchunks).
  split.
  - apply (Htopics 20). lia.
  - rewrite <- Hchunks. apply (Hsentences straddling 13 "(1) Aaa. Bbb ").
    + vm_compute. auto.
    + reflexivity.
    + vm_compute. discriminate.
Defined.

(** ** The classifier *)

Lemma type_score_none (text_lower : string) (patterns : list string) :
  forallb (fun pattern => negb (Regex.re_search pattern text_lower)) patterns = true ->
  Backfill.type_score text_lower patterns = O.
Proof.
  unfold Backfill.type_score.
  assert (H : forall n : nat,
             forallb (fun pattern => negb (Regex.re_search pattern text_lower)) patterns = true ->
             fold_left (fun score pattern =>
                          (score + Regex.findall_count pattern text_lower)%nat) patterns n = n).
  { induction patterns as [ | p ps IH]; intros n Hall; cbn [fold_left forallb] in *.
    - reflexivity.
    - apply andb_true_iff in Hall. destruct Hall as [Hp Hps].
      apply negb_true_iff in Hp. rewrite (findall_count_none _ _ Hp).
      rewrite Nat.add_0_r. apply IH, Hps. }
  apply H.
Qed.

Lemma type_scores_none (table : list (string * list string)) (text_lower : string) :
  forallb (fun entry =>
             forallb (fun pattern => negb (Regex.re_search pattern text_lower)) (snd entry))
    table = true ->
  List.filter (fun entry : string * nat => (0 <? snd entry)%nat)
    (map (fun entry => (fst entry, Backfill.type_score text_lower (snd entry))) table) = [].
Proof.
  induction table as [ | entry table IH]; intros Hall; cbn [map List.filter forallb] in *.
  - reflexivity.
  - apply andb_true_iff in Hall. destruct Hall as [He Ht].
    cbn [snd]. rewrite (type_score_none _ _ He). cbn. apply IH, Ht.
Qed.

(** C9.  The text "Successfully fixed the deployment issue" is typed
    [technical_achievement] and scored above the base 0.5, whatever the
    entity and the configured identities; a text no type pattern matches is
    typed [note]. *)
Theorem classifier_examples_and_default :
  Backfill.infer_observation_type "Successfully fixed the deployment issue"
  = "technical_achievement" /\
  (forall (user_entities_env : string) (entity_name : option string),
     PrimFloat.ltb 0.5
       (Backfill.calculate_importance user_entities_env
          "Successfully fixed the deployment issue" entity_name) = true) /\
  (forall text : string,
     no_type_pattern_matches text = true -> Backfill.infer_observation_type text = "note").
Proof.
  split; [ | split].
  - vm_compute. reflexivity.
  - intros env entity_name.
    unfold Backfill.calculate_importance, Backfill.raw_importance. cbv zeta.
    destruct entity_name as [name | ].
    + destruct (negb (Text.is_empty name) && _); vm_compute; reflexivity.
    + vm_compute. reflexivity.
  - intros text H. unfold Backfill.infer_observation_type, Backfill.type_scores.
    unfold no_type_pattern_matches in H. rewrite (type_scores_none _ _ H). reflexivity.
Qed.

(** A text without any of the words of the tables. *)
Lemma classifier_examples_and_default_witness :
  Backfill.infer_observation_type "hello world" = "note".
Proof.
  apply (proj2 (proj2 classifier_examples_and_default) "hello world").
  vm_compute. reflexivity.
Defined.

(** C5.  The backfill calculator returns a score between 0.1 and 1.0 and
    the ingestion-time calculator one between 0.0 and 1.0, for every
    input. *)
Theorem importance_within_bounds :
  (forall (user_entities_env text : string) (entity_name : option string),
     PrimFloat.leb 0.1 (Backfill.calculate_importance user_entities_env text entity_name) = true
     /\ PrimFloat.leb (Backfill.calculate_importance user_entities_env text entity_name) 1.0
        = true) /\
  (forall (capture_type : string) (has_notes : bool) (tags : list string),
     PrimFloat.leb 0.0 (Host.calculate_importance capture_type has_notes tags) = true
     /\ PrimFloat.leb (Host.calculate_importance capture_type has_notes tags) 1.0 = true).
Proof.
  split.
  - intros env text entity_name. unfold Backfill.calculate_importance.
    apply clamp_between; reflexivity.
  - intros capture_type has_notes tags. unfold Host.calculate_importance. cbv zeta.
    apply clamp_between; reflexivity.
Qed.

(** ** The ingestion boundary *)

Lemma mem_In (x : string) (l : list string) : Host.mem x l = true <-> In x l.
Proof.
  unfold Host.mem. rewrite existsb_exists. split.
  - intros [y [Hy Heq]]. apply String.eqb_eq in Heq. subst. exact Hy.
  - intros H. exists x. split; [exact H | apply String.eqb_refl].
Qed.

Lemma is_empty_false (s : string) : s <> "" -> Text.is_empty s = false.
Proof. destruct s; [congruence | reflexivity]. Qed.

(** What [collect_tags] guarantees of its result. *)
Lemma collect_tags_spec (category : string) (tags : Host.tags_value) (result : list string) :
  Host.collect_tags category tags = Some result ->
  In "browser" result /\
  (category <> "" -> category <> "auto" -> In category result) /\
  (forall s piece, tags = Host.TagsStr s -> In piece (Text.split_on "," s) ->
     Text.nonblank piece = true -> In (Text.strip piece) result) /\
  (forall l t, tags = Host.TagsList l -> In t l -> In t result).
Proof.
  unfold Host.collect_tags.
  destruct (match tags with
            | Host.TagsStr s => Some (Host.split_tags s)
            | Host.TagsList l => Some l
            | Host.TagsOther => None
            end) as [given | ] eqn:Hgiven; [ | discriminate].
  intros Hres. injection Hres as Hres.
  set (with_category :=
         if negb (Text.is_empty category) && negb (String.eqb category "auto")
         then (if Host.mem category given then given else (given ++ [category])%list)
         else given) in *.
  assert (Hkeep1 : forall t, In t given -> In t with_category).
  { intros t Ht. unfold with_category.
    destruct (negb (Text.is_empty category) && negb (String.eqb category "auto")); [ | exact Ht].
    destruct (Host.mem category given); [exact Ht | apply in_or_app; left; exact Ht]. }
  assert (Hkeep2 : forall t, In t with_category -> In t result).
  { intros t Ht. subst result.
    destruct (Host.mem "browser" with_category); [exact Ht | apply in_or_app; left; exact Ht]. }
  repeat split.
  - subst result. destruct (Host.mem "browser" with_category) eqn:Hb.
    + apply mem_In, Hb.
    + apply in_or_app. right. left. reflexivity.
  - intros Hne Hauto. apply Hkeep2. unfold with_category.
    assert (He : Text.is_empty category = false) by (apply is_empty_false, Hne).
    assert (Ha : String.eqb category "auto" = false) by (apply String.eqb_neq, Hauto).
    rewrite He, Ha. cbn [negb andb].
    destruct (Host.mem category given) eqn:Hm.
    + apply mem_In, Hm.
    + apply in_or_app. right. left. reflexivity.
  - intros s piece -> Hin Hnb. injection Hgiven as <-.
    apply Hkeep2, Hkeep1. unfold Host.split_tags.
    apply in_map, filter_In. split; assumption.
  - intros l t -> Hin. injection Hgiven as <-. apply Hkeep2, Hkeep1, Hin.
Qed.

(** The tags a successful save answers with are the ones it stores, and
    they come from [collect_tags]. *)
Lemma save_observation_tags netloc path date_str now_iso (db db' : Host.database)
  (data : Host.message) (observation_id entity_id : Z) (observation_type : string)
  (importance : float) (tags : list string) :
  Host.save_observation netloc path date_str now_iso db data
  = (Host.Saved observation_id entity_id observation_type importance tags, db') ->
  Host.collect_tags (Host.category data) (Host.tags data) = Some tags /\
  Host.obs_tags <$> (Host.observations db' !! observation_id) = Some tags.
Proof.
  unfold Host.save_observation.
  destruct (Host.collect_tags (Host.category data) (Host.tags data)) as [tags0 | ];
    [ | discriminate].
  destruct (Host.get_or_create_entity netloc path db (Host.url data) (Host.title data))
    as [[eid db1] | ]; [ | discriminate].
  destruct (Host.observations db1 !! Host.observations_id_seq db1) eqn:Hfree; [discriminate | ].
  intros H. injection H as <- <- <- <- <- <-.
  split; [reflexivity | ].
  cbn [Host.observations]. rewrite lookup_insert_eq. reflexivity.
Qed.

(** C10, as stated, fails: a save with the empty category succeeds, the
    category differs from ['auto'], and it is not among the tags. *)
Lemma save_empty_category_not_tagged :
  let r := Host.save_observation (fun _ => "example.org") (fun _ => "/page")
             "January 01, 2025" "2025-01-01T00:00:00" empty_host_db note_without_category in
  fst r = Host.Saved 1 1 "note" 0.79999999999999993 ["reading"; "browser"] /\
  Host.category note_without_category <> "auto" /\
  ~ In (Host.category note_without_category) ["reading"; "browser"].
Proof.
  split; [reflexivity | split].
  - discriminate.
  - cbn. intros [H | [H | []]]; discriminate.
Qed.

(** C10, amended.  After a successful save the tags of the answer are the
    tags stored with the observation; they contain ['browser']; they
    contain the category when it is neither empty nor ['auto']; and when the
    tags came as a comma-separated string, they contain every non-blank
    piece of it, trimmed. *)
Theorem save_observation_tag_list netloc path date_str now_iso (db db' : Host.database)
  (data : Host.message) (observation_id entity_id : Z) (observation_type : string)
  (importance : float) (tags : list string) :
  Host.save_observation netloc path date_str now_iso db data
  = (Host.Saved observation_id entity_id observation_type importance tags, db') ->
  Host.obs_tags <$> (Host.observations db' !! observation_id) = Some tags /\
  In "browser" tags /\
  (Host.category data <> "" -> Host.category data <> "auto" -> In (Host.category data) tags) /\
  (forall s piece, Host.tags data = Host.TagsStr s -> In piece (Text.split_on "," s) ->
     Text.nonblank piece = true -> In (Text.strip piece) tags).
Proof.
  intros H. destruct (save_observation_tags _ _ _ _ _ _ _ _ _ _ _ _ H) as [Hc Hstored].
  destruct (collect_tags_spec _ _ _ Hc) as (Hb & Hcat & Hstr & _).
  repeat split; assumption.
Qed.

Lemma save_observation_tag_list_witness :
  Host.obs_tags <$>
    (Host.observations
       (snd (Host.save_observation (fun _ => "example.org") (fun _ => "/page")
               "January 01, 2025" "2025-01-01T00:00:00" empty_host_db note_with_category))
     !! 1) = Some ["reading"; "later"; "research"; "browser"] /\
  In "browser" ["reading"; "later"; "research"; "browser"] /\
  In "research" ["reading"; "later"; "research"; "browser"] /\
  In "later" ["reading"; "later"; "research"; "browser"].
Proof.
  pose proof (save_observation_tag_list (fun _ => "example.org") (fun _ => "/page")
                "January 01, 2025" "2025-01-01T00:00:00" empty_host_db
                (snd (Host.save_observation (fun _ => "example.org") (fun _ => "/page")
                        "January 01, 2025" "2025-01-01T00:00:00" empty_host_db
                        note_with_category))
                note_with_category 1 1 "note" 0.79999999999999993
                ["reading"; "later"; "research"; "browser"] eq_refl) as (H1 & H2 & H3 & H4).
  split; [exact H1 | split; [exact H2 | split]].
  - apply H3; discriminate.
  - apply (H4 " reading , later " " later "); [reflexivity | | reflexivity].
    right. left. reflexivity.
Defined.

(** ** The embedding provider chain *)







Lemma get_ollama_embedding_none (ollama lmstudio : string -> Provider.reply) (text : string) :
  Provider.get_ollama_embedding ollama lmstudio text = None <->
  (forall v, Provider.ollama_try (ollama (Provider.clean text)) <> Json.Done (Some v)) /\
  (forall v, Provider.lmstudio_try (lmstudio (Provider.clean text)) <> Json.Done (Some v)).
Proof.
  unfold Provider.get_ollama_embedding.
  destruct (Provider.ollama_try (ollama (Provider.clean text))) as [[e1 | ] | ];
    destruct (Provider.lmstudio_try (lmstudio (Provider.clean text))) as [[e2 | ] | ];
    split; try discriminate; try (intros _; split; intros v; discriminate);
    try (intros [H1 H2]; first [ exfalso; apply (H1 e1); reflexivity
                               | exfalso; apply (H2 e2); reflexivity
                               | reflexivity ]).
Qed.


(** C6.  A reply of the primary that holds something else than a vector
    where the vector is expected is taken for an embedding, and the
    fallback is not asked.  In the embedding pass, the primary's reply
    [{"embedding": "oops"}] makes the chain return the text ['oops'],
    which is no list of numbers, although the fallback answers with a
    vector, the one the chain returns when the primary refuses the
    connection.  In the retrieval handler, the primary's reply
    [{"embeddings": [[null]]}] ends in the answer 500, although the
    fallback answers with a vector, for which the handler answers 200 with
    the source ['lmstudio'] when the primary refuses the connection. *)
Theorem malformed_primary_reply_accepted :
  Provider.get_ollama_embedding ollama_malformed fallback_answers "fox"
  = Some (Json.JStr "oops") /\
  Pass.numbers (Json.JStr "oops") = None /\
  Provider.get_ollama_embedding refused fallback_answers "fox"
  = Some (Json.JArr [Json.JNum 1; Json.JNum 0]) /\
  Retrieval.api_semantic_search cosine_over_29 ∅ api_ollama_malformed fallback_query_answers
    (fun _ => "0") fox_tables "fox" None None false
  = Retrieval.ServerError /\
  Retrieval.status Retrieval.ServerError = 500 /\
  Retrieval.api_semantic_search cosine_over_29 ∅ refused fallback_query_answers
    (fun _ => "0") fox_tables "fox" None None false
  = Retrieval.Results "fox" [fox_result] 1 (1 # 2) (Some "lmstudio").
Proof.
  split; [reflexivity | ]. split; [reflexivity | ]. split; [reflexivity | ].
  split; [vm_compute; reflexivity | ]. split; [reflexivity | ].
  vm_compute. reflexivity.
Qed.

(** ** Chunking and archiving one observation *)

(** C1.  The log entry is split into two chunks, the second of which
    starts with "The quick brown fox".  The two rows stored for it get the
    indices 4 and 5, after the entity's maximum 3, and carry the marker
    "Log:" and the part tags; but the text stored for the second chunk
    starts with "quick brown fox": the first four characters of the chunk,
    as many as the marker has, are cut off, and the original cannot be
    rebuilt from the stored rows. *)
Theorem chunk_long_observation_cuts_chunks :
  Chunker.smart_chunk_text long_log Chunker.MAX_CHUNK_SIZE
  = ["Log: " ++ Text.join " " (repeat fox 17); Text.join " " (repeat fox 13)] /\
  let r := Store.chunk_long_observation 7 long_log 1 3 log_store in
  fst r = Store.Ok [8; 9] /\
  Store.observations (Store.committed (snd r)) !! 8
  = Some {| Store.entity_id := 1;
            Store.observation_text :=
              Some ("Log: (Part 1/2) " ++ Text.join " " (repeat fox 17));
            Store.observation_index := 4; Store.source_type := "chunked";
            Store.embedding := None; Store.created_at := 100 |} /\
  Store.observations (Store.committed (snd r)) !! 9
  = Some {| Store.entity_id := 1;
            Store.observation_text :=
              Some ("Log: (Part 2/2) quick brown fox jumps over the lazy dog. "
                    ++ Text.join " " (repeat fox 12));
            Store.observation_index := 5; Store.source_type := "chunked";
            Store.embedding := None; Store.created_at := 100 |}.
Proof. vm_compute. repeat split. Qed.

(** A statement changes nothing but the count of faults. *)
Lemma statement_run (c : Store.connection) :
  match Store.statement c with
  | (_, c') =>
      Store.committed c' = Store.committed c /\ Store.working c' = Store.working c /\
      Store.clock c' = Store.clock c /\
      Store.observations_id_seq c' = Store.observations_id_seq c
  end.
Proof. unfold Store.statement. destruct (Store.faults c) as [[ | n] | ]; cbn; auto. Qed.

Lemma insert_chunk_run (c : Store.connection) (entity_id : Z) (text : string) (index : Z) :
  match Store.insert_chunk entity_id text index c with
  | (Store.Ok new_id, c') =>
      Store.committed c' = Store.committed c /\ Store.clock c' = Store.clock c /\
      Store.observations (Store.working c) !! new_id = None /\
      Store.observations (Store.working c')
      = <[new_id := chunk_row c entity_id text index]> (Store.observations (Store.working c)) /\
      Store.observations_archive (Store.working c')
      = Store.observations_archive (Store.working c)
  | (Store.Raise, c') => Store.committed c' = Store.committed c
  end.
Proof.
  unfold Store.insert_chunk, Store.bind.
  pose proof (statement_run c) as Hs.
  destruct (Store.statement c) as [[[] | ] c1]; destruct Hs as (Hc & Hw & Hk & _).
  - destruct (Store.observations (Store.working c1) !! Store.observations_id_seq c1) eqn:Hfree;
      cbn [Store.committed Store.working Store.clock Store.with_working Store.observations
           Store.observations_archive].
    + exact Hc.
    + rewrite <- Hw. unfold chunk_row. rewrite <- Hk. auto.
  - exact Hc.
Qed.

Lemma insert_chunks_run (date_prefix : string) (total : nat) (entity_id max_index : Z)
  (chunks : list string) :
  forall (i : nat) (c : Store.connection),
  match Store.insert_chunks date_prefix total entity_id max_index i chunks c with
  | (Store.Ok ids, c') =>
      Store.committed c' = Store.committed c /\ Store.clock c' = Store.clock c /\
      Store.observations_archive (Store.working c')
      = Store.observations_archive (Store.working c) /\
      length ids = length chunks /\
      (forall k o, Store.observations (Store.working c) !! k = Some o ->
         Store.observations (Store.working c') !! k = Some o) /\
      old_or_chunk (Store.observations (Store.working c)) (Store.observations (Store.working c')) /\
      (forall (j : nat) (id : Z), ids !! j = Some id ->
         Store.observations (Store.working c) !! id = None /\
         exists chunk_text, chunks !! j = Some chunk_text /\
           Store.observations (Store.working c') !! id
           = Some (chunk_row c entity_id
                     (Store.chunk_with_part date_prefix (i + j) total chunk_text)
                     (max_index + Z.of_nat (i + j))))
  | (Store.Raise, c') => Store.committed c' = Store.committed c
  end.
Proof.
  induction chunks as [ | chunk_text rest IH]; intros i c.
  - cbn. repeat split; auto.
    + intros k o Hk. left. exact Hk.
    + discriminate.
    + discriminate.
  - cbn [Store.insert_chunks]. unfold Store.bind at 1.
    pose proof (insert_chunk_run c entity_id
                  (Store.chunk_with_part date_prefix i total chunk_text)
                  (max_index + Z.of_nat i)) as H1.
    destruct (Store.insert_chunk entity_id _ _ c) as [[new_id | ] c1]; [ | exact H1].
    destruct H1 as (Hc1 & Hk1 & Hfree & Hobs1 & Harch1).
    unfold Store.bind at 1. specialize (IH (S i) c1).
    destruct (Store.insert_chunks date_prefix total entity_id max_index (S i) rest c1)
      as [[ids | ] c2]; [ | congruence].
    destruct IH as (Hc2 & Hk2 & Harch2 & Hlen & Hkeep & Hold & Hnew).
    cbn [Store.ret].
    assert (Hhere : Store.observations (Store.working c2) !! new_id
                    = Some (chunk_row c entity_id
                              (Store.chunk_with_part date_prefix i total chunk_text)
                              (max_index + Z.of_nat i))).
    { apply Hkeep. rewrite Hobs1. apply lookup_insert_eq. }
    split; [congruence | ]. split; [congruence | ]. split; [congruence | ].
    split; [cbn; congruence | ].
    split; [ | split].
    + intros k o Hk. apply Hkeep. rewrite Hobs1.
      rewrite lookup_insert_ne; [exact Hk | ]. intros ->. congruence.
    + intros k o Hk. destruct (Hold k o Hk) as [Hin | Hchunk]; [ | right; exact Hchunk].
      rewrite Hobs1 in Hin. destruct (decide (new_id = k)) as [-> | Hne].
      * rewrite lookup_insert_eq in Hin. injection Hin as <-. right. split; reflexivity.
      * rewrite lookup_insert_ne in Hin by exact Hne. left. exact Hin.
    + intros [ | j] id Hj.
      * cbn in Hj. injection Hj as <-. split; [exact Hfree | ].
        exists chunk_text. split; [reflexivity | ].
        rewrite Nat.add_0_r. exact Hhere.
      * cbn in Hj. destruct (Hnew j id Hj) as (Hnone & text & Htext & Hrow).
        split.
        -- rewrite Hobs1 in Hnone. destruct (decide (new_id = id)) as [-> | Hne].
           ++ rewrite lookup_insert_eq in Hnone. discriminate.
           ++ rewrite lookup_insert_ne in Hnone by exact Hne. exact Hnone.
        -- exists text. split; [exact Htext | ].
           rewrite Hrow. unfold chunk_row. rewrite Hk1.
           replace (S i + j)%nat with (i + S j)%nat by lia. reflexivity.
Qed.

Lemma archive_observation_run (c : Store.connection) (obs_id : Z) (orig : Store.observation) :
  Store.observations (Store.working c) !! obs_id = Some orig ->
  match Store.archive_observation obs_id c with
  | (Store.Ok _, c') =>
      Store.committed c' = Store.committed c /\ Store.clock c' = Store.clock c /\
      Store.observations (Store.working c') = Store.observations (Store.working c) /\
      Store.observations_archive (Store.working c') !! obs_id = Some orig
  | (Store.Raise, c') => Store.committed c' = Store.committed c
  end.
Proof.
  intros Horig. unfold Store.archive_observation, Store.bind.
  pose proof (statement_run c) as Hs.
  destruct (Store.statement c) as [[[] | ] c1]; destruct Hs as (Hc & Hw & Hk & _);
    [ | exact Hc].
  rewrite Hw, Horig.
  destruct (Store.observations_archive (Store.working c) !! obs_id); [exact Hc | ].
  cbn. rewrite lookup_insert_eq. auto.
Qed.

Lemma delete_observation_run (c : Store.connection) (obs_id : Z) :
  match Store.delete_observation obs_id c with
  | (Store.Ok _, c') =>
      Store.committed c' = Store.committed c /\ Store.clock c' = Store.clock c /\
      Store.observations (Store.working c') = delete obs_id (Store.observations (Store.working c)) /\
      Store.observations_archive (Store.working c')
      = Store.observations_archive (Store.working c)
  | (Store.Raise, c') => Store.committed c' = Store.committed c
  end.
Proof.
  unfold Store.delete_observation, Store.bind.
  pose proof (statement_run c) as Hs.
  destruct (Store.statement c) as [[[] | ] c1]; destruct Hs as (Hc & Hw & Hk & _);
    [ | exact Hc].
  cbn. rewrite Hw. auto.
Qed.

Lemma commit_run (c : Store.connection) :
  match Store.commit c with
  | (Store.Ok _, c') =>
      Store.committed c' = Store.working c /\ Store.working c' = Store.working c /\
      Store.clock c' = Store.clock c
  | (Store.Raise, c') =>
      Store.committed c' = Store.committed c /\ Store.working c' = Store.working c
  end.
Proof.
  unfold Store.commit, Store.bind.
  pose proof (statement_run c) as Hs.
  destruct (Store.statement c) as [[[] | ] c1]; destruct Hs as (Hc & Hw & Hk & _); cbn; auto.
Qed.

(** What a run of [chunk_long_observation] leaves, when the observation is
    in the table. *)
Lemma chunk_long_observation_run (c : Store.connection) (obs_id : Z) (obs_text : string)
  (entity_id max_index : Z) (orig : Store.observation) :
  Store.observations (Store.working c) !! obs_id = Some orig ->
  let chunks := Chunker.smart_chunk_text obs_text Chunker.MAX_CHUNK_SIZE in
  match Store.chunk_long_observation obs_id obs_text entity_id max_index c with
  | (Store.Ok new_obs_ids, c') =>
      if (length chunks <=? 1)%nat then new_obs_ids = [] /\ c' = c
      else
        length new_obs_ids = length chunks /\
        Store.committed c' = Store.working c' /\
        Store.observations_archive (Store.working c') !! obs_id = Some orig /\
        Store.observations (Store.working c') !! obs_id = None /\
        (forall k o, k <> obs_id -> Store.observations (Store.working c) !! k = Some o ->
           Store.observations (Store.working c') !! k = Some o) /\
        old_or_chunk (Store.observations (Store.working c))
          (Store.observations (Store.working c')) /\
        (forall (j : nat) (new_id : Z), new_obs_ids !! j = Some new_id ->
           exists chunk_text, chunks !! j = Some chunk_text /\
             Store.observations (Store.working c') !! new_id
             = Some (chunk_row c entity_id
                       (Store.chunk_with_part (Store.date_prefix_of obs_text) (S j)
                          (length chunks) chunk_text)
                       (max_index + Z.of_nat (S j))))
  | (Store.Raise, c') => Store.committed c' = Store.committed c
  end.
Proof.
  intros Horig chunks. unfold Store.chunk_long_observation. fold chunks.
  destruct (length chunks <=? 1)%nat; [cbn; auto | ].
  unfold Store.bind at 1.
  pose proof (insert_chunks_run (Store.date_prefix_of obs_text) (length chunks) entity_id
                max_index chunks 1 c) as H1.
  destruct (Store.insert_chunks _ _ _ _ 1 chunks c) as [[ids | ] c1]; [ | exact H1].
  destruct H1 as (Hc1 & Hk1 & Harch1 & Hlen & Hkeep & Hold & Hnew).
  unfold Store.bind at 1.
  pose proof (archive_observation_run c1 obs_id orig (Hkeep _ _ Horig)) as H2.
  destruct (Store.archive_observation obs_id c1) as [[[] | ] c2]; [ | congruence].
  destruct H2 as (Hc2 & Hk2 & Hobs2 & Harch2).
  unfold Store.bind at 1.
  pose proof (delete_observation_run c2 obs_id) as H3.
  destruct (Store.delete_observation obs_id c2) as [[[] | ] c3]; [ | congruence].
  destruct H3 as (Hc3 & Hk3 & Hobs3 & Harch3).
  unfold Store.bind at 1.
  pose proof (commit_run c3) as H4.
  destruct (Store.commit c3) as [[[] | ] c4]; [ | destruct H4; congruence].
  destruct H4 as (Hc4 & Hw4 & Hk4). cbn [Store.ret].
  rewrite Hw4, Hc4, Hobs3, Harch3, Hobs2.
  split; [exact Hlen | ]. split; [reflexivity | ]. split; [exact Harch2 | ].
  split; [apply lookup_delete_eq | ].
  split; [ | split].
  - intros k o Hne Hk. rewrite lookup_delete_ne by congruence. apply Hkeep, Hk.
  - intros k o Hk. apply Hold. destruct (decide (obs_id = k)) as [-> | Hne].
    + rewrite lookup_delete_eq in Hk. discriminate.
    + rewrite lookup_delete_ne in Hk by exact Hne. exact Hk.
  - intros j new_id Hj. destruct (Hnew j new_id Hj) as (Hnone & text & Htext & Hrow).
    exists text. split; [exact Htext | ].
    rewrite lookup_delete_ne; [exact Hrow | ]. intros ->. congruence.
Qed.

(** C7.  When the observation is in the table and the chunker gives two
    chunks or more, a run that completes leaves, committed, the original
    under its id in the archive, no row under that id among the
    observations, and one row for each chunk; a run that raises, at
    whichever statement, leaves the committed tables as they were. *)
Theorem chunk_long_observation_atomic (c : Store.connection) (obs_id : Z) (obs_text : string)
  (entity_id max_index : Z) (orig : Store.observation) :
  Store.observations (Store.working c) !! obs_id = Some orig ->
  let chunks := Chunker.smart_chunk_text obs_text Chunker.MAX_CHUNK_SIZE in
  match Store.chunk_long_observation obs_id obs_text entity_id max_index c with
  | (Store.Ok new_obs_ids, c') =>
      if (length chunks <=? 1)%nat then new_obs_ids = [] /\ c' = c
      else
        length new_obs_ids = length chunks /\
        Store.observations_archive (Store.close c') !! obs_id = Some orig /\
        Store.observations (Store.close c') !! obs_id = None /\
        (forall (j : nat) (new_id : Z), new_obs_ids !! j = Some new_id ->
           exists chunk_text, chunks !! j = Some chunk_text /\
             Store.observations (Store.close c') !! new_id
             = Some (chunk_row c entity_id
                       (Store.chunk_with_part (Store.date_prefix_of obs_text) (S j)
                          (length chunks) chunk_text)
                       (max_index + Z.of_nat (S j))))
  | (Store.Raise, c') => Store.close c' = Store.close c
  end.
Proof.
  intros Horig chunks.
  pose proof (chunk_long_observation_run c obs_id obs_text entity_id max_index orig Horig) as H.
  cbv zeta in H. fold chunks in H.
  destruct (Store.chunk_long_observation obs_id obs_text entity_id max_index c)
    as [[ids | ] c']; [ | exact H].
  destruct (length chunks <=? 1)%nat; [exact H | ].
  destruct H as (Hlen & Hcommit & Harch & Hgone & _ & _ & Hnew).
  unfold Store.close. rewrite Hcommit. auto.
Qed.

Lemma chunk_long_observation_atomic_witness :
  (let chunks := Chunker.smart_chunk_text long_log Chunker.MAX_CHUNK_SIZE in
   match Store.chunk_long_observation 7 long_log 1 3 log_store with
   | (Store.Ok new_obs_ids, c') =>
       if (length chunks <=? 1)%nat then new_obs_ids = [] /\ c' = log_store
       else
         length new_obs_ids = length chunks /\
         Store.observations_archive (Store.close c') !! 7 = Some log_row /\
         Store.observations (Store.close c') !! 7 = None /\
         (forall (j : nat) (new_id : Z), new_obs_ids !! j = Some new_id ->
            exists chunk_text, chunks !! j = Some chunk_text /\
              Store.observations (Store.close c') !! new_id
              = Some (chunk_row log_store 1
                        (Store.chunk_with_part (Store.date_prefix_of long_log) (S j)
                           (length chunks) chunk_text)
                        (3 + Z.of_nat (S j))))
   | (Store.Raise, c') => Store.close c' = Store.close log_store
   end) /\
  Store.close (snd (Store.chunk_long_observation 7 long_log 1 3 failing_log_store))
  = log_tables.
Proof.
  split.
  - exact (chunk_long_observation_atomic log_store 7 long_log 1 3 log_row eq_refl).
  - pose proof (chunk_long_observation_atomic failing_log_store 7 long_log 1 3 log_row eq_refl)
      as H.
    cbv zeta in H.
    destruct (Store.chunk_long_observation 7 long_log 1 3 failing_log_store)
      as [[ids | ] c'] eqn:E.
    + vm_compute in E. discriminate E.
    + exact H.
Defined.

(** ** The embedding pass *)

Lemma shape_alter (v : Store.vector) (id : Z) (m : gmap Z Store.observation) :
  shape (alter (Pass.set_embedding v) id m) = shape m.
Proof.
  unfold shape. apply map_eq. intros k. rewrite !lookup_fmap.
  destruct (decide (id = k)) as [-> | Hne].
  - rewrite lookup_alter_eq. destruct (m !! k); reflexivity.
  - rewrite lookup_alter_ne by exact Hne. reflexivity.
Qed.

Lemma shape_lookup (m m' : gmap Z Store.observation) (k : Z) (o' : Store.observation) :
  shape m' = shape m -> m' !! k = Some o' ->
  exists o, m !! k = Some o /\ Store.observation_text o = Store.observation_text o' /\
            Store.source_type o = Store.source_type o'.
Proof.
  intros Hs Hk. assert (H : shape m !! k = shape m' !! k) by (rewrite Hs; reflexivity).
  unfold shape in H. rewrite !lookup_fmap, Hk in H. cbn in H.
  destruct (m !! k) as [o | ]; [ | discriminate].
  exists o. cbn in H. injection H as H1 H2. auto.
Qed.

Lemma embedded_rows_alter (v : Store.vector) (id : Z) (t t' : Store.tables) :
  Store.observations t' = alter (Pass.set_embedding v) id (Store.observations t) ->
  embedded_rows short_or_chunk t ->
  (forall o, Store.observations t !! id = Some o -> short_or_chunk o) ->
  embedded_rows short_or_chunk t'.
Proof.
  intros Hobs Hok Hrow k o' Hk Hemb. rewrite Hobs in Hk.
  destruct (decide (id = k)) as [-> | Hne].
  - rewrite lookup_alter_eq in Hk.
    destruct (Store.observations t !! k) as [o | ] eqn:Ho; [ | discriminate].
    cbn in Hk. injection Hk as <-. apply (Hrow o eq_refl).
  - rewrite lookup_alter_ne in Hk by exact Hne. apply (Hok k o' Hk Hemb).
Qed.

Lemma embedded_rows_old_or_chunk (P : Store.observation -> Prop) (t t' : Store.tables) :
  old_or_chunk (Store.observations t) (Store.observations t') ->
  embedded_rows P t -> embedded_rows P t'.
Proof.
  intros Hold Hok k o Hk Hemb. destruct (Hold k o Hk) as [Hin | [_ Hnone]].
  - apply (Hok k o Hin Hemb).
  - congruence.
Qed.

Lemma update_embedding_run (e : Json.json) (id : Z) (c : Store.connection) :
  match Pass.update_embedding e id c with
  | (Store.Ok _, c') =>
      Store.committed c' = Store.committed c /\
      exists v, Store.observations (Store.working c')
                = alter (Pass.set_embedding v) id (Store.observations (Store.working c))
  | (Store.Raise, c') => Store.committed c' = Store.committed c
  end.
Proof.
  unfold Pass.update_embedding, Store.bind.
  pose proof (statement_run c) as Hs.
  destruct (Store.statement c) as [[[] | ] c1]; destruct Hs as (Hc & Hw & _); [ | exact Hc].
  destruct (Pass.as_vector e) as [v | ]; [ | exact Hc].
  cbn. split; [exact Hc | ]. exists v. rewrite Hw. reflexivity.
Qed.

Lemma select_text_run (id : Z) (c : Store.connection) :
  match Pass.select_text id c with
  | (_, c') => Store.committed c' = Store.committed c /\ Store.working c' = Store.working c
  end.
Proof.
  unfold Pass.select_text, Store.bind.
  pose proof (statement_run c) as Hs.
  destruct (Store.statement c) as [[[] | ] c1]; destruct Hs as (Hc & Hw & _); cbn; auto.
Qed.

Lemma select_max_index_run (entity : Z) (c : Store.connection) :
  match Pass.select_max_index entity c with
  | (_, c') => Store.committed c' = Store.committed c /\ Store.working c' = Store.working c
  end.
Proof.
  unfold Pass.select_max_index, Store.bind.
  pose proof (statement_run c) as Hs.
  destruct (Store.statement c) as [[[] | ] c1]; destruct Hs as (Hc & Hw & _); cbn; auto.
Qed.

Lemma snapshot_shape (todo : list Pass.pending) (m m' : gmap Z Store.observation) :
  shape m' = shape m -> snapshot todo m -> snapshot todo m'.
Proof.
  intros Hs Hsnap obs Hin. destruct (Hsnap obs Hin) as (o & Ho & Ht).
  assert (H : shape m' !! Pass.id obs = shape m !! Pass.id obs) by (rewrite Hs; reflexivity).
  unfold shape in H. rewrite !lookup_fmap, Ho in H. cbn in H.
  destruct (m' !! Pass.id obs) as [o' | ]; [ | discriminate].
  exists o'. split; [reflexivity | ]. cbn in H. injection H as H1 H2. congruence.
Qed.

Section PassProofs.

Variable ollama lmstudio : string -> Provider.reply.

Lemma embed_chunks_run (todo : list Pass.pending) (new_ids : list Z) :
  forall (embedded_count : Z) (c : Store.connection),
  pass_invariant c ->
  snapshot todo (Store.observations (Store.working c)) ->
  (forall id o, id ∈ new_ids -> Store.observations (Store.working c) !! id = Some o ->
     Store.source_type o = "chunked") ->
  match Pass.embed_chunks ollama lmstudio new_ids embedded_count c with
  | (Store.Ok _, c') =>
      pass_invariant c' /\ snapshot todo (Store.observations (Store.working c'))
  | (Store.Raise, c') => embedded_rows short_or_chunk (Store.committed c')
  end.
Proof.
  induction new_ids as [ | new_id rest IH]; intros count c Hinv Hsnap Hchunked.
  - cbn. auto.
  - cbn [Pass.embed_chunks]. unfold Store.bind at 1.
    pose proof (select_text_run new_id c) as H1.
    destruct (Pass.select_text new_id c) as [[chunk_text | ] c1]; destruct H1 as [Hc1 Hw1];
      [ | rewrite Hc1; apply Hinv].
    assert (Hinv1 : pass_invariant c1) by (unfold pass_invariant; rewrite Hc1, Hw1; exact Hinv).
    assert (Hsnap1 : snapshot todo (Store.observations (Store.working c1)))
      by (rewrite Hw1; exact Hsnap).
    assert (Hchunked1 : forall id o, id ∈ new_id :: rest ->
              Store.observations (Store.working c1) !! id = Some o ->
              Store.source_type o = "chunked") by (rewrite Hw1; exact Hchunked).
    assert (Hskip : forall n,
              match Pass.embed_chunks ollama lmstudio rest n c1 with
              | (Store.Ok _, c') =>
                  pass_invariant c' /\ snapshot todo (Store.observations (Store.working c'))
              | (Store.Raise, c') => embedded_rows short_or_chunk (Store.committed c')
              end).
    { intros n. apply IH; [exact Hinv1 | exact Hsnap1 | ].
      intros id o Hid. apply Hchunked1. apply elem_of_cons. right. exact Hid. }
    destruct chunk_text as [text | ]; [ | apply Hskip].
    destruct (Text.is_empty text); [apply Hskip | ].
    destruct (Pass.get_ollama_embedding ollama lmstudio text) as [e | ]; [ | apply Hskip].
    unfold Store.bind at 1.
    pose proof (update_embedding_run e new_id c1) as H2.
    destruct (Pass.update_embedding e new_id c1) as [[[] | ] c2];
      [ | rewrite H2; apply Hinv1].
    destruct H2 as (Hc2 & v & Hobs2).
    assert (Hshape : shape (Store.observations (Store.working c2))
                     = shape (Store.observations (Store.working c1)))
      by (rewrite Hobs2; apply shape_alter).
    apply IH.
    + split; [rewrite Hc2; apply Hinv1 | ].
      apply (embedded_rows_alter v new_id (Store.working c1)); [exact Hobs2 | apply Hinv1 | ].
      intros o Ho. unfold short_or_chunk.
      destruct (Store.observation_text o); [ | exact I].
      right. apply (Hchunked1 new_id o); [apply elem_of_cons; left; reflexivity | exact Ho].
    + apply (snapshot_shape _ (Store.observations (Store.working c1))); assumption.
    + intros id o Hid Ho.
      destruct (shape_lookup _ _ id o Hshape Ho) as (o1 & Ho1 & _ & Hsrc).
      rewrite <- Hsrc. apply (Hchunked1 id o1); [apply elem_of_cons; right; exact Hid | exact Ho1].
Qed.

Lemma embed_whole_run (todo : list Pass.pending) (batch_size : Z) (obs : Pass.pending)
  (counts : Z * Z) (c : Store.connection) :
  pass_invariant c ->
  snapshot todo (Store.observations (Store.working c)) ->
  (forall o, Store.observations (Store.working c) !! Pass.id obs = Some o ->
     short_or_chunk o) ->
  match Pass.embed_whole ollama lmstudio batch_size obs counts c with
  | (Store.Ok _, c') =>
      pass_invariant c' /\ snapshot todo (Store.observations (Store.working c'))
  | (Store.Raise, c') => embedded_rows short_or_chunk (Store.committed c')
  end.
Proof.
  intros Hinv Hsnap Hrow. unfold Pass.embed_whole. destruct counts as [embedded chunked].
  destruct (Pass.get_ollama_embedding ollama lmstudio (Pass.pending_text obs)) as [e | ];
    [ | cbn; auto].
  unfold Store.bind at 1.
  pose proof (update_embedding_run e (Pass.id obs) c) as H1.
  destruct (Pass.update_embedding e (Pass.id obs) c) as [[[] | ] c1];
    [ | rewrite H1; apply Hinv].
  destruct H1 as (Hc1 & v & Hobs1).
  assert (Hinv1 : pass_invariant c1).
  { split; [rewrite Hc1; apply Hinv | ].
    apply (embedded_rows_alter v (Pass.id obs) (Store.working c));
      [exact Hobs1 | apply Hinv | exact Hrow]. }
  assert (Hsnap1 : snapshot todo (Store.observations (Store.working c1))).
  { apply (snapshot_shape _ (Store.observations (Store.working c))); [ | exact Hsnap].
    rewrite Hobs1. apply shape_alter. }
  cbv zeta. destruct (batch_size =? 0); [cbn; apply Hinv1 | ].
  destruct ((embedded + 1) mod batch_size =? 0); [ | cbn; auto].
  unfold Store.bind at 1. pose proof (commit_run c1) as H2.
  destruct (Store.commit c1) as [[[] | ] c2].
  - destruct H2 as (Hc2 & Hw2 & _). cbn. unfold pass_invariant.
    rewrite Hc2, Hw2. split; [split; apply Hinv1 | exact Hsnap1].
  - destruct H2 as [Hc2 _]. rewrite Hc2. apply Hinv1.
Qed.

End PassProofs.

Section PassLoop.

Variable ollama lmstudio : string -> Provider.reply.

Lemma snapshot_tail (obs : Pass.pending) (rest : list Pass.pending)
  (m : gmap Z Store.observation) :
  snapshot (obs :: rest) m -> snapshot rest m.
Proof. intros H x Hx. apply H. apply elem_of_cons. right. exact Hx. Qed.

Lemma embed_one_run (batch_size : Z) (obs : Pass.pending) (rest : list Pass.pending)
  (counts : Z * Z) (c : Store.connection) :
  pass_invariant c ->
  snapshot (obs :: rest) (Store.observations (Store.working c)) ->
  Pass.id obs ∉ (Pass.id <$> rest) ->
  splits (Pass.pending_text obs) ->
  match Pass.embed_one ollama lmstudio batch_size obs counts c with
  | (Store.Ok _, c') =>
      pass_invariant c' /\ snapshot rest (Store.observations (Store.working c'))
  | (Store.Raise, c') => embedded_rows short_or_chunk (Store.committed c')
  end.
Proof.
  intros Hinv Hsnap Hfresh Hsplits. unfold Pass.embed_one.
  destruct counts as [embedded chunked].
  destruct (Hsnap obs ltac:(apply elem_of_cons; left; reflexivity)) as (orig & Horig & Htext).
  destruct (Chunker.MAX_CHUNK_SIZE <? Text.len (Pass.pending_text obs)) eqn:Hlong.
  - unfold Store.bind at 1.
    pose proof (select_max_index_run (Pass.pending_entity obs) c) as H1.
    destruct (Pass.select_max_index (Pass.pending_entity obs) c) as [[result | ] c1];
      destruct H1 as [Hc1 Hw1]; [ | rewrite Hc1; apply Hinv].
    assert (Hinv1 : pass_invariant c1) by (unfold pass_invariant; rewrite Hc1, Hw1; exact Hinv).
    rewrite <- Hw1 in Hsnap, Horig.
    unfold Store.bind at 1.
    pose proof (chunk_long_observation_run c1 (Pass.id obs) (Pass.pending_text obs)
                  (Pass.pending_entity obs) (default 0 result) orig Horig) as H2.
    cbv zeta in H2.
    destruct (Store.chunk_long_observation (Pass.id obs) (Pass.pending_text obs)
                (Pass.pending_entity obs) (default 0 result) c1) as [[new_ids | ] c2];
      [ | rewrite H2; apply Hinv1].
    destruct (length (Chunker.smart_chunk_text (Pass.pending_text obs) Chunker.MAX_CHUNK_SIZE)
              <=? 1)%nat eqn:Hn.
    + exfalso. apply Z.ltb_lt in Hlong. apply Nat.leb_le in Hn.
      specialize (Hsplits Hlong). lia.
    + destruct H2 as (Hlen & Hcommit & _ & _ & Hkeep & Hold & Hnew).
      apply Nat.leb_gt in Hn.
      destruct new_ids as [ | id1 ids]; [cbn in Hlen; lia | ].
      unfold Store.bind at 1.
      assert (Hinv2 : pass_invariant c2).
      { unfold pass_invariant. rewrite Hcommit.
        assert (embedded_rows short_or_chunk (Store.working c2))
          by (apply (embedded_rows_old_or_chunk _ (Store.working c1)); [exact Hold | apply Hinv1]).
        split; assumption. }
      assert (Hsnap2 : snapshot rest (Store.observations (Store.working c2))).
      { intros x Hx. destruct (Hsnap x ltac:(apply elem_of_cons; right; exact Hx))
          as (o & Ho & Ht).
        exists o. split; [ | exact Ht]. apply Hkeep; [ | exact Ho].
        intros Heq. apply Hfresh. rewrite <- Heq. apply list_elem_of_fmap. exists x. auto. }
      pose proof (embed_chunks_run ollama lmstudio rest (id1 :: ids) embedded c2 Hinv2 Hsnap2)
        as H3.
      destruct (Pass.embed_chunks ollama lmstudio (id1 :: ids) embedded c2) as [[n | ] c3].
      * destruct H3 as [Hinv3 Hsnap3].
        { intros id o Hid Ho. apply list_elem_of_lookup in Hid. destruct Hid as [j Hj].
          destruct (Hnew j id Hj) as (text & _ & Hrow). rewrite Hrow in Ho.
          injection Ho as <-. reflexivity. }
        unfold Store.bind at 1. pose proof (commit_run c3) as H4.
        destruct (Store.commit c3) as [[[] | ] c4].
        -- destruct H4 as (Hc4 & Hw4 & _). cbn. unfold pass_invariant.
           rewrite Hc4, Hw4. split; [split; apply Hinv3 | exact Hsnap3].
        -- destruct H4 as [Hc4 _]. rewrite Hc4. apply Hinv3.
      * apply H3. intros id o Hid Ho. apply list_elem_of_lookup in Hid. destruct Hid as [j Hj].
        destruct (Hnew j id Hj) as (text & _ & Hrow). rewrite Hrow in Ho.
        injection Ho as <-. reflexivity.
  - apply (embed_whole_run ollama lmstudio rest batch_size obs (embedded, chunked) c Hinv).
    + apply (snapshot_tail obs), Hsnap.
    + intros o Ho. rewrite Horig in Ho. injection Ho as <-.
      unfold short_or_chunk. rewrite Htext. left. apply Z.ltb_ge, Hlong.
Qed.

Lemma embed_loop_run (batch_size : Z) (todo : list Pass.pending) :
  forall (counts : Z * Z) (c : Store.connection),
  pass_invariant c ->
  snapshot todo (Store.observations (Store.working c)) ->
  NoDup (Pass.id <$> todo) ->
  (forall obs, obs ∈ todo -> splits (Pass.pending_text obs)) ->
  match Pass.embed_loop ollama lmstudio batch_size todo counts c with
  | (Store.Ok _, c') => pass_invariant c'
  | (Store.Raise, c') => embedded_rows short_or_chunk (Store.committed c')
  end.
Proof.
  induction todo as [ | obs rest IH]; intros counts c Hinv Hsnap Hnd Hsplits.
  - cbn. exact Hinv.
  - cbn [Pass.embed_loop]. unfold Store.bind at 1.
    rewrite fmap_cons in Hnd. apply NoDup_cons in Hnd. destruct Hnd as [Hfresh Hnd].
    pose proof (embed_one_run batch_size obs rest counts c Hinv Hsnap Hfresh
                  (Hsplits obs ltac:(apply elem_of_cons; left; reflexivity))) as H1.
    destruct (Pass.embed_one ollama lmstudio batch_size obs counts c) as [[counts' | ] c1];
      [ | exact H1].
    destruct H1 as [Hinv1 Hsnap1]. apply IH; try assumption.
    intros x Hx. apply Hsplits. apply elem_of_cons. right. exact Hx.
Qed.

End PassLoop.

Lemma to_pending_spec (kv : Z * Store.observation) (p : Pass.pending) :
  Pass.to_pending kv = Some p ->
  Pass.id p = fst kv /\ Store.observation_text (snd kv) = Some (Pass.pending_text p).
Proof.
  unfold Pass.to_pending.
  destruct (Store.embedding (snd kv)); [discriminate | ].
  destruct (Store.observation_text (snd kv)); [ | discriminate].
  intros H. injection H as <-. auto.
Qed.

Lemma omap_to_pending_NoDup (l : list (Z * Store.observation)) :
  NoDup (l.*1) -> NoDup (Pass.id <$> omap Pass.to_pending l).
Proof.
  induction l as [ | kv l IH]; intros Hnd; [constructor | ].
  rewrite fmap_cons in Hnd. apply NoDup_cons in Hnd. destruct Hnd as [Hfresh Hnd].
  cbn [omap list_omap]. destruct (Pass.to_pending kv) as [p | ] eqn:Hp; [ | apply IH, Hnd].
  rewrite fmap_cons. apply NoDup_cons. split; [ | apply IH, Hnd].
  intros Hin. apply Hfresh.
  apply list_elem_of_fmap in Hin. destruct Hin as (q & Hq & Hin).
  apply list_elem_of_omap in Hin. destruct Hin as (kv' & Hkv' & Hq').
  apply list_elem_of_fmap. exists kv'. split; [ | exact Hkv'].
  destruct (to_pending_spec _ _ Hp) as [<- _]. destruct (to_pending_spec _ _ Hq') as [<- _].
  exact Hq.
Qed.

Lemma pending_rows_NoDup (t : Store.tables) : NoDup (Pass.id <$> Pass.pending_rows t).
Proof.
  unfold Pass.pending_rows. apply omap_to_pending_NoDup.
  rewrite (merge_sort_Permutation Pass.newer (map_to_list (Store.observations t))).
  apply NoDup_fst_map_to_list.
Qed.

Lemma pending_rows_snapshot (t : Store.tables) :
  snapshot (Pass.pending_rows t) (Store.observations t).
Proof.
  intros obs Hin. unfold Pass.pending_rows in Hin.
  apply list_elem_of_omap in Hin. destruct Hin as ([k o] & Hkv & Hp).
  rewrite (merge_sort_Permutation Pass.newer (map_to_list (Store.observations t))) in Hkv.
  apply elem_of_map_to_list in Hkv.
  destruct (to_pending_spec _ _ Hp) as [Hid Htext]. cbn in Hid, Htext.
  exists o. rewrite Hid. auto.
Qed.

Lemma select_pending_run (limit : option Z) (c : Store.connection) :
  match Pass.select_pending limit c with
  | (Store.Ok todo, c') =>
      Store.committed c' = Store.committed c /\ Store.working c' = Store.working c /\
      snapshot todo (Store.observations (Store.working c)) /\ NoDup (Pass.id <$> todo)
  | (Store.Raise, c') => Store.committed c' = Store.committed c
  end.
Proof.
  unfold Pass.select_pending, Store.bind.
  pose proof (statement_run c) as Hs.
  destruct (Store.statement c) as [[[] | ] c1]; destruct Hs as (Hc & Hw & _); [ | exact Hc].
  pose proof (pending_rows_snapshot (Store.working c1)) as Hsnap.
  pose proof (pending_rows_NoDup (Store.working c1)) as Hnd.
  rewrite Hw in Hsnap, Hnd |- *. cbv zeta.
  assert (Htake : forall n,
            snapshot (take n (Pass.pending_rows (Store.working c)))
              (Store.observations (Store.working c)) /\
            NoDup (Pass.id <$> take n (Pass.pending_rows (Store.working c)))).
  { intros n. split.
    - intros obs Hin. apply Hsnap. apply (subseteq_take n). exact Hin.
    - rewrite fmap_take. eapply sublist_NoDup; [exact Hnd | apply sublist_take]. }
  destruct limit as [n | ]; [ | auto].
  destruct (n =? 0); [auto | ]. destruct (n <? 0); [exact Hc | ].
  destruct (Store.BIGINT_MAX <? n); [exact Hc | ].
  destruct (Htake (Z.to_nat n)). auto.
Qed.

Lemma no_vector_yet (P : Store.observation -> Prop) (id : Z) (row : Store.observation) :
  Store.embedding row = None ->
  embedded_rows P {| Store.observations := {[ id := row ]}; Store.observations_archive := ∅ |}.
Proof.
  intros Hnone k o Hk Hemb. cbn in Hk. apply lookup_singleton_Some in Hk.
  destruct Hk as [_ <-]. congruence.
Qed.

(** C4.  The pass embeds whole an observation above the threshold that the
    chunker leaves in one piece.  On a store whose only observation is a
    text of 900 letters without a vector, where the invariant holds, the
    chunker returns that text as its one chunk, the pass completes with one
    observation embedded and none chunked, and the committed row holds a
    vector with its 900 characters and its source ['manual']: the invariant
    no longer holds. *)
Theorem unsplit_observation_embedded_whole :
  Text.len unsplit_text = 900 /\
  embedded_rows short_or_chunk (Store.committed unsplit_store) /\
  Chunker.smart_chunk_text unsplit_text Chunker.MAX_CHUNK_SIZE = [unsplit_text] /\
  fst (Pass.embed_observations ollama_answers refused None 10 unsplit_store)
  = Store.Ok (Some (1, 0)) /\
  Store.observations
    (Store.close (snd (Pass.embed_observations ollama_answers refused None 10
                         unsplit_store))) !! 7
  = Some {| Store.entity_id := 1; Store.observation_text := Some unsplit_text;
            Store.observation_index := 1; Store.source_type := "manual";
            Store.embedding := Some (repeat (1 : Q) 768);
            Store.created_at := 0 |} /\
  ~ embedded_rows short_or_chunk
      (Store.close (snd (Pass.embed_observations ollama_answers refused None 10 unsplit_store))).
Proof.
  assert (Hrow : Store.observations
                   (Store.close (snd (Pass.embed_observations ollama_answers refused None 10
                                        unsplit_store))) !! 7
                 = Some {| Store.entity_id := 1; Store.observation_text := Some unsplit_text;
                           Store.observation_index := 1; Store.source_type := "manual";
                           Store.embedding := Some (repeat (1 : Q) 768);
                           Store.created_at := 0 |})
    by (vm_compute; reflexivity).
  split; [vm_compute; reflexivity | ].
  split; [apply no_vector_yet; reflexivity | ].
  split; [vm_compute; reflexivity | ].
  split; [vm_compute; reflexivity | ].
  split; [exact Hrow | ].
  intros H.
  specialize (H 7 _ Hrow ltac:(discriminate)).
  unfold short_or_chunk in H. cbn [Store.observation_text Store.source_type] in H.
  destruct H as [H | H]; [ | discriminate H].
  vm_compute in H. apply H. reflexivity.
Qed.

(** ** Semantic retrieval *)





(** The order of the store on its [double precision] values. *)
Lemma float8_le_numbers (x y : Q) :
  Retrieval.float8_le (Retrieval.Number x) (Retrieval.Number y) = true <-> (x <= y)%Q.
Proof. cbn [Retrieval.float8_le]. apply Qle_bool_iff. Qed.

Lemma float8_le_trans (a b c : Retrieval.float8) :
  Retrieval.float8_le a b = true -> Retrieval.float8_le b c = true ->
  Retrieval.float8_le a c = true.
Proof.
  destruct a as [x | ], b as [y | ], c as [z | ]; try (intros; reflexivity);
    try (intros; discriminate).
  rewrite !float8_le_numbers. intros. lra.
Qed.

Lemma float8_le_total (a b : Retrieval.float8) :
  Retrieval.float8_le a b = true \/ Retrieval.float8_le b a = true.
Proof.
  destruct a as [x | ], b as [y | ]; try (left; reflexivity); try (right; reflexivity).
  rewrite !float8_le_numbers.
  destruct (Qlt_le_dec y x) as [H | H]; [right; apply Qlt_le_weak, H | left; exact H].
Qed.

#[local] Instance better_transitive : Transitive Retrieval.better.
Proof. intros a b c Hab Hbc. unfold Retrieval.better in *. eapply float8_le_trans; eauto. Qed.

#[local] Instance better_total : Total Retrieval.better.
Proof. intros a b. unfold Retrieval.better. destruct (float8_le_total
         (Retrieval.similarity a) (Retrieval.similarity b)); auto. Qed.

#[local] Instance nearer_transitive : Transitive Neighbours.nearer.
Proof. intros a b c Hab Hbc. unfold Neighbours.nearer in *. eapply float8_le_trans; eauto. Qed.

#[local] Instance nearer_total : Total Neighbours.nearer.
Proof. intros a b. unfold Neighbours.nearer. apply float8_le_total. Qed.


(** What the ranking query returns for a pool of rows. *)
Lemma ranked_spec (floor : Q) (limit : Z) (rows : list Retrieval.hit) :
  (length (Retrieval.ranked floor limit rows) <= Z.to_nat limit)%nat /\
  (forall h, h ∈ Retrieval.ranked floor limit rows ->
     h ∈ rows /\ Retrieval.above floor h = true) /\
  StronglySorted Retrieval.better (Retrieval.ranked floor limit rows) /\
  (forall h, h ∈ rows -> Retrieval.above floor h = true ->
     h ∈ Retrieval.ranked floor limit rows \/
     forall h', h' ∈ Retrieval.ranked floor limit rows -> Retrieval.better h' h).
Proof.
  unfold Retrieval.ranked.
  set (kept := List.filter (Retrieval.above floor) rows).
  set (sorted := merge_sort Retrieval.better kept).
  assert (Hperm : sorted ≡ₚ kept) by apply merge_sort_Permutation.
  assert (Hkept : forall h, h ∈ kept <-> h ∈ rows /\ Retrieval.above floor h = true).
  { intros h. unfold kept. rewrite !list_elem_of_In, filter_In. reflexivity. }
  assert (Hsorted : StronglySorted Retrieval.better
                      (take (Z.to_nat limit) sorted ++ drop (Z.to_nat limit) sorted)%list).
  { rewrite take_drop. apply StronglySorted_merge_sort; apply _. }
  split; [rewrite length_take; lia | ].
  split; [ | split].
  - intros h Hh. apply Hkept. rewrite <- Hperm. apply (subseteq_take (Z.to_nat limit)), Hh.
  - apply (StronglySorted_app_1_l _ _ _ Hsorted).
  - intros h Hrows Hfloor.
    assert (Hh : h ∈ (take (Z.to_nat limit) sorted ++ drop (Z.to_nat limit) sorted)%list).
    { rewrite take_drop, Hperm. apply Hkept. auto. }
    apply elem_of_app in Hh. destruct Hh as [Hh | Hh]; [left; exact Hh | right].
    intros h' Hin. apply (StronglySorted_app_1_elem_of _ _ _ h' h Hsorted Hin Hh).
Qed.


(** The rows of a table with a vector are the candidates. *)
Lemma candidates_elem cosine_similarity (names : gmap Z string) (label : string)
  (table : gmap Z Store.observation) (q : Store.vector) (k : Z) (o : Store.observation)
  (v : Store.vector) :
  table !! k = Some o -> Store.embedding o = Some v ->
  {| Retrieval.hit_id := k; Retrieval.hit_row := o;
     Retrieval.entity_name := names !! Store.entity_id o;
     Retrieval.storage := label; Retrieval.similarity := cosine_similarity q v |}
  ∈ Retrieval.candidates cosine_similarity names label table q.
Proof.
  intros Hk Hv. unfold Retrieval.candidates. apply list_elem_of_omap.
  exists (k, o). split; [apply elem_of_map_to_list, Hk | ]. cbn. rewrite Hv. reflexivity.
Qed.



(** The text of a stored vector is never empty. *)
Lemma vector_text_not_empty (number_text : Q -> string) (v : Store.vector) :
  Text.is_empty (Retrieval.vector_text number_text v) = false.
Proof. reflexivity. Qed.




Lemma fox_and_dog_search :
  Retrieval.api_semantic_search cosine_over_29 ∅ query_answers refused (fun _ => "0")
    fox_tables "fox" (Some 5) None true
  = Retrieval.Results "fox" [fox_result; dog_result] 2 (1 # 2) (Some "ollama").
Proof. vm_compute. reflexivity. Qed.



(** ** Further properties of the chunker *)

Lemma squeeze_append (a b : string) : squeeze (a ++ b) = (squeeze a ++ squeeze b)%string.
Proof.
  induction a as [ | x a IH]; [reflexivity | ].
  rewrite append_cons. cbn [squeeze].
  destruct (Text.is_space x); rewrite ?append_cons, IH; reflexivity.
Qed.

Lemma squeeze_lstrip (s : string) : squeeze (Text.lstrip s) = squeeze s.
Proof.
  induction s as [ | c s IH]; cbn; [reflexivity | ].
  destruct (Text.is_space c) eqn:E; [exact IH | cbn; rewrite E; reflexivity].
Qed.

Lemma rstrip_empty_squeeze (s : string) :
  Text.is_empty (Text.rstrip s) = true -> squeeze s = EmptyString.
Proof.
  induction s as [ | c s IH]; cbn; [reflexivity | ].
  destruct (Text.is_space c) eqn:E; cbn [andb].
  - destruct (Text.is_empty (Text.rstrip s)) eqn:E'; [intros _; apply IH; reflexivity | ].
    discriminate.
  - discriminate.
Qed.

Lemma squeeze_rstrip (s : string) : squeeze (Text.rstrip s) = squeeze s.
Proof.
  induction s as [ | c s IH]; cbn; [reflexivity | ].
  destruct (Text.is_space c) eqn:E; cbn [andb].
  - destruct (Text.is_empty (Text.rstrip s)) eqn:E'.
    + cbn. symmetry. apply rstrip_empty_squeeze, E'.
    + cbn. rewrite E. exact IH.
  - cbn. rewrite E, IH. reflexivity.
Qed.

Lemma squeeze_strip (s : string) : squeeze (Text.strip s) = squeeze s.
Proof. unfold Text.strip. rewrite squeeze_rstrip. apply squeeze_lstrip. Qed.

Lemma blank_squeeze (s : string) : Text.nonblank s = false -> squeeze s = EmptyString.
Proof.
  unfold Text.nonblank. intros H. apply negb_false_iff in H.
  rewrite <- squeeze_strip. destruct (Text.strip s); [reflexivity | discriminate].
Qed.

Lemma len_lstrip (s : string) : Text.len (Text.lstrip s) <= Text.len s.
Proof.
  unfold Text.len. induction s as [ | c s IH]; cbn [Text.lstrip String.length]; [lia | ].
  destruct (Text.is_space c); cbn [String.length]; lia.
Qed.

Lemma len_rstrip (s : string) : Text.len (Text.rstrip s) <= Text.len s.
Proof.
  unfold Text.len. induction s as [ | c s IH]; cbn [Text.rstrip String.length]; [lia | ].
  cbv zeta. destruct (Text.is_space c && Text.is_empty (Text.rstrip s));
    cbn [String.length]; lia.
Qed.

Lemma len_strip (s : string) : Text.len (Text.strip s) <= Text.len s.
Proof.
  unfold Text.strip. pose proof (len_rstrip (Text.lstrip s)). pose proof (len_lstrip s). lia.
Qed.

Lemma rstrip_append_blank (s : string) : Text.rstrip (s ++ " ") = Text.rstrip s.
Proof.
  induction s as [ | c s IH]; [reflexivity | ].
  rewrite append_cons. cbn [Text.rstrip]. rewrite IH. reflexivity.
Qed.

(** The blank the loop appends to a sentence is removed again when the
    chunk is closed. *)
Lemma strip_append_blank (s : string) : Text.strip (s ++ " ") = Text.strip s.
Proof.
  unfold Text.strip. induction s as [ | c s IH]; [reflexivity | ].
  rewrite append_cons. cbn [Text.lstrip]. destruct (Text.is_space c); [exact IH | ].
  apply (rstrip_append_blank (String c s)).
Qed.

Lemma rstrip_idempotent (s : string) : Text.rstrip (Text.rstrip s) = Text.rstrip s.
Proof.
  induction s as [ | c s IH]; [reflexivity | ].
  cbn [Text.rstrip]. cbv zeta.
  destruct (Text.is_space c && Text.is_empty (Text.rstrip s)) eqn:E; [reflexivity | ].
  cbn [Text.rstrip]. cbv zeta. rewrite IH, E. reflexivity.
Qed.

Lemma lstrip_rstrip_lstrip (s : string) :
  Text.lstrip (Text.rstrip (Text.lstrip s)) = Text.rstrip (Text.lstrip s).
Proof.
  induction s as [ | c s IH]; [reflexivity | ].
  cbn [Text.lstrip]. destruct (Text.is_space c) eqn:E; [exact IH | ].
  cbn [Text.rstrip]. cbv zeta. rewrite E. cbn [andb Text.lstrip]. rewrite E. reflexivity.
Qed.

Lemma strip_trimmed (s : string) : trimmed (Text.strip s).
Proof.
  unfold trimmed, Text.strip. rewrite lstrip_rstrip_lstrip. apply rstrip_idempotent.
Qed.

Lemma concat_all_app (l k : list string) :
  Text.concat_all (l ++ k) = (Text.concat_all l ++ Text.concat_all k)%string.
Proof.
  induction l as [ | x l IH]; [reflexivity | ].
  cbn [app Text.concat_all]. rewrite IH, append_assoc. reflexivity.
Qed.

Lemma concat_all_cons_char (c : ascii) (l : list string) :
  Text.concat_all (Text.cons_char c l) = String c (Text.concat_all l).
Proof. destruct l; reflexivity. Qed.

(** Cutting a text before its markers loses nothing. *)
Lemma topic_pieces_concat (s : string) : Text.concat_all (Chunker.topic_pieces s) = s.
Proof.
  induction s as [ | c s IH]; [reflexivity | ].
  cbn [Chunker.topic_pieces]. destruct (Chunker.at_marker s).
  - cbn [Text.concat_all]. rewrite IH. reflexivity.
  - rewrite concat_all_cons_char, IH. reflexivity.
Qed.

Lemma split_topics_concat (text : string) : Text.concat_all (Chunker.split_topics text) = text.
Proof.
  unfold Chunker.split_topics. destruct (Chunker.at_marker text); cbn [Text.concat_all];
    apply topic_pieces_concat.
Qed.

Lemma topic_pieces_head (c : ascii) (s : string) :
  exists p ps, Chunker.topic_pieces (String c s) = String c p :: ps.
Proof.
  cbn [Chunker.topic_pieces]. destruct (Chunker.at_marker s); [eauto | ].
  destruct (Chunker.topic_pieces s) as [ | p ps]; cbn; eauto.
Qed.

Lemma at_marker_paren (s : string) : Chunker.at_marker s = true -> starts_with_paren s = true.
Proof.
  destruct s as [ | c s]; [discriminate | ]. cbn.
  destruct c as [[ | ] [ | ] [ | ] [ | ] [ | ] [ | ] [ | ] [ | ]]; try discriminate. reflexivity.
Qed.

Lemma at_marker_head (s : string) :
  Chunker.at_marker s = true ->
  exists p ps, Chunker.topic_pieces s = p :: ps /\ starts_with_paren p = true.
Proof.
  intros H. pose proof (at_marker_paren s H) as Hp.
  destruct s as [ | c s]; [discriminate | ].
  destruct (topic_pieces_head c s) as (p & ps & E). exists (String c p), ps.
  split; [exact E | exact Hp].
Qed.

(** Every piece but the first starts with the parenthesis of a marker. *)
Lemma topic_pieces_tail (s : string) :
  List.Forall (fun p => starts_with_paren p = true) (tl (Chunker.topic_pieces s)).
Proof.
  induction s as [ | c s IH]; [constructor | ].
  cbn [Chunker.topic_pieces]. destruct (Chunker.at_marker s) eqn:E.
  - cbn [tl]. destruct (at_marker_head s E) as (p & ps & Hp & Hparen).
    rewrite Hp in IH |- *. constructor; assumption.
  - destruct (Chunker.topic_pieces s) as [ | p ps]; [constructor | exact IH].
Qed.

Lemma paren_nonblank (p : string) : starts_with_paren p = true -> Text.nonblank p = true.
Proof.
  destruct p as [ | c p]; [discriminate | ]. cbn [starts_with_paren].
  destruct c as [[ | ] [ | ] [ | ] [ | ] [ | ] [ | ] [ | ] [ | ]]; try discriminate.
  intros _. unfold Text.nonblank, Text.strip. cbn [Text.lstrip].
  change (Text.is_space "(") with false. cbv iota. cbn [Text.rstrip]. cbv zeta.
  change (Text.is_space "(") with false. reflexivity.
Qed.

(** A split into more than one piece has a piece that is not blank. *)
Lemma split_topics_second (text : string) :
  (1 < length (Chunker.split_topics text))%nat ->
  exists p, In p (Chunker.split_topics text) /\ Text.nonblank p = true.
Proof.
  unfold Chunker.split_topics. destruct (Chunker.at_marker text) eqn:E; intros Hlen.
  - destruct (at_marker_head text E) as (p & ps & Hp & Hparen).
    exists p. rewrite Hp. split; [right; left; reflexivity | apply paren_nonblank, Hparen].
  - pose proof (topic_pieces_tail text) as Htail.
    destruct (Chunker.topic_pieces text) as [ | p0 [ | p1 ps]]; cbn in Hlen; try lia.
    cbn [tl] in Htail. inversion Htail as [ | ? ? Hparen _]; subst.
    exists p1. split; [right; left; reflexivity | apply paren_nonblank, Hparen].
Qed.

(** X1.  The chunker never returns an empty list. *)
Theorem smart_chunk_text_not_nil (text : string) (max_size : Z) :
  Chunker.smart_chunk_text text max_size <> [].
Proof.
  unfold Chunker.smart_chunk_text. cbv zeta.
  destruct (Chunker.topics_fit (Chunker.split_topics text) max_size) eqn:Hfit.
  - unfold Chunker.topics_fit in Hfit. apply andb_true_iff in Hfit. destruct Hfit as [Hlen _].
    apply Z.ltb_lt in Hlen.
    destruct (split_topics_second text ltac:(lia)) as (p & Hin & Hnb).
    assert (Hp : In (Text.strip p)
                   (map Text.strip (List.filter Text.nonblank (Chunker.split_topics text)))).
    { apply in_map, filter_In. split; assumption. }
    intros Hnil. rewrite Hnil in Hp. exact Hp.
  - rewrite sentence_chunks_never_falls_back.
    intros H. apply app_eq_nil in H. destruct H as [_ H]. discriminate H.
Qed.

Lemma squeeze_topics (l : list string) :
  squeeze (Text.concat_all (map Text.strip (List.filter Text.nonblank l)))
  = squeeze (Text.concat_all l).
Proof.
  induction l as [ | p l IH]; [reflexivity | ].
  cbn [List.filter Text.concat_all]. rewrite (squeeze_append p).
  destruct (Text.nonblank p) eqn:E.
  - cbn [map Text.concat_all]. rewrite squeeze_append, squeeze_strip, IH. reflexivity.
  - rewrite (blank_squeeze p E), IH. reflexivity.
Qed.

(** The split into sentences only drops whitespace. *)
Lemma sentence_pieces_squeeze (s : string) :
  forall m, squeeze (Text.concat_all (Chunker.sentence_pieces m s)) = squeeze s.
Proof.
  induction s as [ | c s IH]; intros m; [reflexivity | ].
  cbn [Chunker.sentence_pieces squeeze].
  destruct m; destruct (Text.is_space c) eqn:E;
    rewrite ?concat_all_cons_char; cbn [Text.concat_all squeeze];
    rewrite ?append_empty_l, ?E, ?IH; reflexivity.
Qed.

Lemma held_add_sentence (max_size : Z) (st : list string * string) (sentence : string) :
  held (Chunker.add_sentence max_size st sentence) = (held st ++ squeeze sentence)%string.
Proof.
  unfold Chunker.add_sentence, held. destruct st as [chunks current_chunk].
  destruct (Text.len current_chunk + Text.len sentence <? max_size); cbn [fst snd].
  - rewrite !squeeze_append. change (squeeze " ") with EmptyString.
    rewrite append_empty_r, append_assoc. reflexivity.
  - rewrite !squeeze_append. change (squeeze " ") with EmptyString. rewrite append_empty_r.
    destruct current_chunk as [ | c r]; cbn [Text.is_empty].
    + cbn [squeeze]. rewrite append_empty_r. reflexivity.
    + rewrite concat_all_app, squeeze_append. cbn [Text.concat_all].
      rewrite append_empty_r, squeeze_strip. reflexivity.
Qed.

Lemma held_fold (max_size : Z) (l : list string) :
  forall st, held (fold_left (Chunker.add_sentence max_size) l st)
             = (held st ++ squeeze (Text.concat_all l))%string.
Proof.
  induction l as [ | x l IH]; intros st; cbn [fold_left Text.concat_all].
  - cbn [squeeze]. rewrite append_empty_r. reflexivity.
  - rewrite IH, held_add_sentence, squeeze_append, append_assoc. reflexivity.
Qed.

(** X2.  The chunks hold, in order, exactly the characters of the text
    that are not whitespace: chunking drops or adds whitespace only. *)
Theorem smart_chunk_text_covers (text : string) (max_size : Z) :
  squeeze (Text.concat_all (Chunker.smart_chunk_text text max_size)) = squeeze text.
Proof.
  unfold Chunker.smart_chunk_text. cbv zeta.
  destruct (Chunker.topics_fit (Chunker.split_topics text) max_size).
  - rewrite squeeze_topics, split_topics_concat. reflexivity.
  - rewrite sentence_chunks_never_falls_back.
    pose proof (held_fold max_size (Chunker.split_sentences text) ([], EmptyString)) as H.
    unfold held in H at 1.
    rewrite concat_all_app, squeeze_append. cbn [Text.concat_all].
    rewrite append_empty_r, squeeze_strip, H.
    unfold Chunker.split_sentences. rewrite sentence_pieces_squeeze. reflexivity.
Qed.

Lemma fold_add_sentence_fills (max_size : Z) (l : list string) :
  forall st : list string * string,
  l <> [] ->
  Text.is_empty (snd (fold_left (Chunker.add_sentence max_size) l st)) = false.
Proof.
  induction l as [ | x l IH]; intros st Hl; [congruence | ].
  cbn [fold_left]. destruct l as [ | y l]; [apply add_sentence_fills | ].
  apply IH. discriminate.
Qed.

(** The loop keeps closed chunks and the chunk being filled within the
    limit, unless they are one sentence. *)
Lemma add_sentence_keeps (max_size : Z) (all : list string) (st : list string * string)
  (sentence : string) :
  In sentence all ->
  (forall c, In c (fst st) -> exists y, c = Text.strip y /\ short_or_sentence max_size all y) ->
  (snd st = EmptyString \/
   exists y, snd st = (y ++ " ")%string /\ short_or_sentence max_size all y) ->
  (forall c, In c (fst (Chunker.add_sentence max_size st sentence)) ->
     exists y, c = Text.strip y /\ short_or_sentence max_size all y) /\
  (exists y, snd (Chunker.add_sentence max_size st sentence) = (y ++ " ")%string /\
             short_or_sentence max_size all y).
Proof.
  intros Hin Hchunks Hcur. unfold Chunker.add_sentence. destruct st as [chunks current_chunk].
  cbn [fst snd] in *.
  destruct (Text.len current_chunk + Text.len sentence <? max_size) eqn:E; cbn [fst snd].
  - split; [exact Hchunks | ]. apply Z.ltb_lt in E.
    destruct Hcur as [-> | (y & -> & Hy)].
    + exists sentence. split; [reflexivity | left]. change (Text.len "") with 0 in E. lia.
    + exists (y ++ " " ++ sentence)%string. split.
      * rewrite !append_assoc. reflexivity.
      * left. rewrite !len_append in *. lia.
  - split; [ | exists sentence; split; [reflexivity | right; exact Hin]].
    destruct current_chunk as [ | c r]; cbn [Text.is_empty]; [exact Hchunks | ].
    intros x Hx. apply in_app_or in Hx. destruct Hx as [Hx | [<- | []]]; [apply Hchunks, Hx | ].
    destruct Hcur as [Hcur | (y & Hy & Hgood)]; [discriminate | ].
    exists y. rewrite Hy, strip_append_blank. split; [reflexivity | exact Hgood].
Qed.

Lemma fold_add_sentence_keeps (max_size : Z) (all : list string) (l : list string) :
  forall st,
  (forall s, In s l -> In s all) ->
  (forall c, In c (fst st) -> exists y, c = Text.strip y /\ short_or_sentence max_size all y) ->
  (snd st = EmptyString \/
   exists y, snd st = (y ++ " ")%string /\ short_or_sentence max_size all y) ->
  (forall c, In c (fst (fold_left (Chunker.add_sentence max_size) l st)) ->
     exists y, c = Text.strip y /\ short_or_sentence max_size all y) /\
  (snd (fold_left (Chunker.add_sentence max_size) l st) = EmptyString \/
   exists y, snd (fold_left (Chunker.add_sentence max_size) l st) = (y ++ " ")%string /\
             short_or_sentence max_size all y).
Proof.
  induction l as [ | x l IH]; intros st Hall Hchunks Hcur; cbn [fold_left]; [auto | ].
  destruct (add_sentence_keeps max_size all st x (Hall x (or_introl eq_refl)) Hchunks Hcur)
    as [H1 H2].
  apply IH; [intros s Hs; apply Hall; right; exact Hs | exact H1 | right; exact H2].
Qed.

(** Every chunk is the trimmed form of a text that is shorter than the
    limit or is one sentence of the split. *)
Lemma smart_chunk_text_chunks (text : string) (max_size : Z) (c : string) :
  In c (Chunker.smart_chunk_text text max_size) ->
  exists y, c = Text.strip y /\
            short_or_sentence max_size (Chunker.split_sentences text) y.
Proof.
  unfold Chunker.smart_chunk_text. cbv zeta.
  destruct (Chunker.topics_fit (Chunker.split_topics text) max_size) eqn:Hfit.
  - intros Hc. apply in_map_iff in Hc. destruct Hc as (t & <- & Ht).
    unfold Chunker.topics_fit in Hfit. apply andb_true_iff in Hfit. destruct Hfit as [_ Hall].
    rewrite forallb_forall in Hall. exists t. split; [reflexivity | left].
    apply Z.ltb_lt, Hall, Ht.
  - rewrite sentence_chunks_never_falls_back.
    destruct (fold_add_sentence_keeps max_size (Chunker.split_sentences text)
                (Chunker.split_sentences text) ([], EmptyString))
      as [Hchunks Hcur]; [auto | intros ? [] | left; reflexivity | ].
    intros Hc. apply in_app_or in Hc. destruct Hc as [Hc | [<- | []]]; [apply Hchunks, Hc | ].
    destruct Hcur as [Hempty | (y & -> & Hy)].
    + pose proof (fold_add_sentence_fills max_size (Chunker.split_sentences text)
                    ([], EmptyString) (sentence_pieces_not_nil Chunker.Elsewhere text)) as Hfill.
      rewrite Hempty in Hfill. discriminate Hfill.
    + exists y. rewrite strip_append_blank. auto.
Qed.

(** X3.  A chunk is shorter than the size limit, unless it is one whole
    sentence of the text, trimmed: only a sentence that does not fit is
    emitted over the limit. *)
Theorem smart_chunk_text_bound (text : string) (max_size : Z) (c : string) :
  In c (Chunker.smart_chunk_text text max_size) ->
  Text.len c < max_size \/
  exists sentence, In sentence (Chunker.split_sentences text) /\ c = Text.strip sentence.
Proof.
  intros Hc. destruct (smart_chunk_text_chunks text max_size c Hc) as (y & -> & [Hy | Hy]).
  - left. pose proof (len_strip y). lia.
  - right. exists y. auto.
Qed.

Lemma smart_chunk_text_bound_witness :
  Text.len "cc. d." < 8 \/
  exists sentence,
    In sentence (Chunker.split_sentences "aaa. bbbbbbbbbb. cc. d. e. ffff") /\
    "cc. d." = Text.strip sentence.
Proof.
  apply (smart_chunk_text_bound "aaa. bbbbbbbbbb. cc. d. e. ffff" 8 "cc. d.").
  vm_compute. auto.
Defined.

(** X4.  No chunk starts or ends with whitespace. *)
Theorem smart_chunk_text_trimmed (text : string) (max_size : Z) (c : string) :
  In c (Chunker.smart_chunk_text text max_size) -> trimmed c.
Proof.
  intros Hc. destruct (smart_chunk_text_chunks text max_size c Hc) as (y & -> & _).
  apply strip_trimmed.
Qed.

Lemma smart_chunk_text_trimmed_witness : trimmed "(1) intro text".
Proof.
  apply (smart_chunk_text_trimmed "(1) intro text (2) more text" 20 "(1) intro text").
  vm_compute. auto.
Defined.

(** ** Further properties of chunking and archiving *)

Lemma upto_colon_spec (s p : string) :
  Store.upto_colon s = Some p ->
  exists body rest, p = (body ++ ":")%string /\ s = (p ++ rest)%string /\
                    Text.contains ":" body = false.
Proof.
  revert p. induction s as [ | c s IH]; intros p; [discriminate | ].
  cbn [Store.upto_colon]. destruct (Ascii.eqb c ":") eqn:E.
  - apply Ascii.eqb_eq in E. subst c. intros H. injection H as <-.
    exists EmptyString, s. auto.
  - destruct (Store.upto_colon s) as [p' | ]; [ | discriminate].
    cbn [option_map]. intros H. injection H as <-.
    destruct (IH p' eq_refl) as (body & rest & -> & Hs & Hbody).
    exists (String c body), rest. rewrite !append_cons. rewrite Hs at 1.
    split; [reflexivity | split; [rewrite !append_assoc; reflexivity | ]].
    cbn [Text.contains Text.starts_with]. rewrite Ascii.eqb_sym, E. exact Hbody.
Qed.

(** X5.  The marker taken from a text is a prefix of the text; it is
    empty, or it ends with the first colon of the text and holds at least
    one character before it. *)
Theorem date_prefix_of_prefix (obs_text : string) :
  (exists rest, obs_text = (Store.date_prefix_of obs_text ++ rest)%string) /\
  (Store.date_prefix_of obs_text = EmptyString \/
   exists body, Store.date_prefix_of obs_text = (body ++ ":")%string /\
                body <> EmptyString /\ Text.contains ":" body = false).
Proof.
  unfold Store.date_prefix_of.
  destruct obs_text as [ | c s]; [split; [exists EmptyString; reflexivity | left; reflexivity] | ].
  destruct (Ascii.eqb c ":") eqn:E.
  - apply Ascii.eqb_eq in E. subst c.
    split; [exists (String ":" s); reflexivity | left; reflexivity].
  - assert (Hmatch : (match c with
                      | ":"%char => EmptyString
                      | _ => match Store.upto_colon (String c s) with
                             | Some p => p
                             | None => EmptyString
                             end
                      end) = match Store.upto_colon (String c s) with
                             | Some p => p
                             | None => EmptyString
                             end).
    { destruct c as [[ | ] [ | ] [ | ] [ | ] [ | ] [ | ] [ | ] [ | ]];
        first [reflexivity | discriminate E]. }
    rewrite Hmatch.
    destruct (Store.upto_colon (String c s)) as [p | ] eqn:Hp.
    + destruct (upto_colon_spec _ _ Hp) as (body & rest & -> & Hs & Hbody).
      split; [exists rest; exact Hs | right].
      exists body. split; [reflexivity | split; [ | exact Hbody]].
      intros ->. rewrite append_empty_l in Hs. injection Hs as Hc _.
      subst c. discriminate E.
    + split; [exists (String c s); reflexivity | left; reflexivity].
Qed.

Lemma insert_chunk_seq (c : Store.connection) (entity_id : Z) (text : string) (index : Z) :
  match Store.insert_chunk entity_id text index c with
  | (Store.Ok new_id, c') =>
      new_id = Store.observations_id_seq c /\
      Store.observations_id_seq c' = Store.observations_id_seq c + 1 /\
      (forall k, k <> new_id ->
         Store.observations (Store.working c') !! k = Store.observations (Store.working c) !! k)
  | (Store.Raise, _) => True
  end.
Proof.
  unfold Store.insert_chunk, Store.bind.
  pose proof (statement_run c) as Hs.
  destruct (Store.statement c) as [[[] | ] c1]; destruct Hs as (Hc & Hw & Hk & Hseq);
    [ | exact I].
  destruct (Store.observations (Store.working c1) !! Store.observations_id_seq c1);
    [exact I | ].
  cbn. rewrite Hseq, Hw. split; [reflexivity | split; [reflexivity | ]].
  intros k Hk'. rewrite lookup_insert_ne by congruence. reflexivity.
Qed.

Lemma insert_chunks_seq (date_prefix : string) (total : nat) (entity_id max_index : Z)
  (chunks : list string) :
  forall (i : nat) (c : Store.connection),
  match Store.insert_chunks date_prefix total entity_id max_index i chunks c with
  | (Store.Ok ids, c') =>
      Store.observations_id_seq c' = Store.observations_id_seq c + Z.of_nat (length chunks) /\
      (forall (j : nat) (id : Z), ids !! j = Some id ->
         id = Store.observations_id_seq c + Z.of_nat j) /\
      (forall k, k ∉ ids ->
         Store.observations (Store.working c') !! k = Store.observations (Store.working c) !! k)
  | (Store.Raise, _) => True
  end.
Proof.
  induction chunks as [ | chunk_text rest IH]; intros i c.
  - cbn. split; [lia | split; [discriminate | reflexivity]].
  - cbn [Store.insert_chunks]. unfold Store.bind at 1.
    pose proof (insert_chunk_seq c entity_id
                  (Store.chunk_with_part date_prefix i total chunk_text)
                  (max_index + Z.of_nat i)) as H1.
    destruct (Store.insert_chunk entity_id _ _ c) as [[new_id | ] c1]; [ | exact I].
    destruct H1 as (Hid & Hseq1 & Hframe1).
    unfold Store.bind at 1. specialize (IH (S i) c1).
    destruct (Store.insert_chunks date_prefix total entity_id max_index (S i) rest c1)
      as [[ids | ] c2]; [ | exact I].
    destruct IH as (Hseq2 & Hids & Hframe2). cbn [Store.ret length].
    split; [lia | split].
    + intros [ | j] id Hj; cbn in Hj.
      * injection Hj as <-. lia.
      * rewrite (Hids j id Hj). lia.
    + intros k Hk. apply not_elem_of_cons in Hk. destruct Hk as [Hne Hk].
      rewrite (Hframe2 k Hk). apply Hframe1, Hne.
Qed.

(** X6.  A completed chunking changes three things only: the rows of the
    chunks, numbered consecutively from the sequence under ids that were
    free; the row of the original, removed; and the archive, which gains
    the original under its id.  Every other observation and every other
    archived row is as before, and all of it is committed. *)
Theorem chunk_long_observation_frame (c c' : Store.connection) (obs_id : Z) (obs_text : string)
  (entity_id max_index : Z) (orig : Store.observation) (id1 : Z) (ids : list Z) :
  Store.observations (Store.working c) !! obs_id = Some orig ->
  Store.chunk_long_observation obs_id obs_text entity_id max_index c
  = (Store.Ok (id1 :: ids), c') ->
  Store.committed c' = Store.working c' /\
  (forall (j : nat) (id : Z), (id1 :: ids) !! j = Some id ->
     id = Store.observations_id_seq c + Z.of_nat j /\
     Store.observations (Store.working c) !! id = None) /\
  Store.observations_id_seq c'
  = Store.observations_id_seq c + Z.of_nat (length (id1 :: ids)) /\
  (forall k, k <> obs_id -> k ∉ id1 :: ids ->
     Store.observations (Store.working c') !! k = Store.observations (Store.working c) !! k) /\
  Store.observations_archive (Store.working c')
  = <[obs_id := orig]> (Store.observations_archive (Store.working c)).
Proof.
  intros Horig Hrun. unfold Store.chunk_long_observation in Hrun.
  set (chunks := Chunker.smart_chunk_text obs_text Chunker.MAX_CHUNK_SIZE) in *.
  destruct (length chunks <=? 1)%nat; [discriminate Hrun | ].
  unfold Store.bind at 1 in Hrun.
  pose proof (insert_chunks_run (Store.date_prefix_of obs_text) (length chunks) entity_id
                max_index chunks 1 c) as H1.
  pose proof (insert_chunks_seq (Store.date_prefix_of obs_text) (length chunks) entity_id
                max_index chunks 1 c) as H1'.
  destruct (Store.insert_chunks _ _ _ _ 1 chunks c) as [[ids0 | ] c1]; [ | discriminate Hrun].
  destruct H1 as (Hc1 & Hk1 & Harch1 & Hlen & Hkeep & Hold & Hnew).
  destruct H1' as (Hseq1 & Hids & Hframe1).
  unfold Store.bind at 1 in Hrun.
  unfold Store.archive_observation, Store.bind in Hrun.
  pose proof (statement_run c1) as Hs2.
  destruct (Store.statement c1) as [[[] | ] c2]; destruct Hs2 as (Hc2 & Hw2 & Hk2 & Hseq2);
    [ | discriminate Hrun].
  rewrite Hw2, (Hkeep _ _ Horig) in Hrun.
  destruct (Store.observations_archive (Store.working c1) !! obs_id) eqn:Hfree;
    [discriminate Hrun | ].
  unfold Store.delete_observation, Store.bind in Hrun.
  match type of Hrun with
  | context [Store.statement ?x] =>
      pose proof (statement_run x) as Hs3; destruct (Store.statement x) as [[[] | ] c3];
        destruct Hs3 as (Hc3 & Hw3 & Hk3 & Hseq3); [ | discriminate Hrun]
  end.
  unfold Store.commit, Store.bind in Hrun.
  match type of Hrun with
  | context [Store.statement ?x] =>
      pose proof (statement_run x) as Hs4; destruct (Store.statement x) as [[[] | ] c4];
        destruct Hs4 as (Hc4 & Hw4 & Hk4 & Hseq4); [ | discriminate Hrun]
  end.
  cbn [Store.ret] in Hrun. injection Hrun as <- <-.
  cbn [Store.committed Store.working Store.observations_id_seq Store.with_working] in *.
  rewrite Hw4. cbn [Store.observations Store.observations_archive].
  rewrite Hw3. cbn [Store.observations Store.observations_archive Store.with_working
                    Store.working].
  split; [reflexivity | ].
  split; [ | split; [ | split]].
  - intros j id Hj. split; [apply (Hids j id Hj) | apply (Hnew j id Hj)].
  - rewrite Hseq4. cbn [Store.observations_id_seq Store.with_working]. rewrite Hseq3.
    cbn [Store.observations_id_seq Store.with_working]. rewrite Hseq2, Hseq1, Hlen.
    reflexivity.
  - intros k Hne Hk. rewrite lookup_delete_ne by congruence. apply Hframe1, Hk.
  - rewrite Harch1. reflexivity.
Qed.

Lemma chunk_long_observation_frame_witness :
  Store.observations_id_seq (snd (Store.chunk_long_observation 7 long_log 1 3 log_store))
  = 8 + 2 /\
  Store.observations_archive
    (Store.working (snd (Store.chunk_long_observation 7 long_log 1 3 log_store)))
  = <[7 := log_row]> ∅.
Proof.
  destruct (chunk_long_observation_frame log_store
              (snd (Store.chunk_long_observation 7 long_log 1 3 log_store))
              7 long_log 1 3 log_row 8 [9] eq_refl)
    as (_ & _ & Hseq & _ & Harch).
  - vm_compute. reflexivity.
  - split; [exact Hseq | exact Harch].
Defined.

Lemma fold_max_bound (rest : list (Z * Store.observation)) :
  forall m0 : Z,
  m0 <= fold_left (fun m kv' => Z.max m (Store.observation_index (snd kv'))) rest m0 /\
  (forall kv, In kv rest ->
     Store.observation_index (snd kv)
     <= fold_left (fun m kv' => Z.max m (Store.observation_index (snd kv'))) rest m0).
Proof.
  induction rest as [ | x rest IH]; intros m0; cbn [fold_left].
  - split; [lia | intros ? []].
  - destruct (IH (Z.max m0 (Store.observation_index (snd x)))) as [H1 H2].
    split; [lia | ]. intros kv [<- | Hin]; [lia | apply H2, Hin].
Qed.

(** The maximum read for an entity bounds the index of each of its rows. *)
Lemma max_index_of_bound (t : Store.tables) (entity : Z) (k : Z) (o : Store.observation) :
  Store.observations t !! k = Some o -> Store.entity_id o = entity ->
  exists m, Pass.max_index_of t entity = Some m /\ Store.observation_index o <= m.
Proof.
  intros Hk He. unfold Pass.max_index_of.
  assert (Hin : In (k, o)
                  (List.filter (fun kv => Z.eqb (Store.entity_id (snd kv)) entity)
                     (map_to_list (Store.observations t)))).
  { apply filter_In. split.
    - apply list_elem_of_In, elem_of_map_to_list, Hk.
    - cbn. apply Z.eqb_eq, He. }
  destruct (List.filter _ _) as [ | kv rest]; [destruct Hin | ].
  eexists. split; [reflexivity | ].
  destruct (fold_max_bound rest (Store.observation_index (snd kv))) as [H1 H2].
  destruct Hin as [Heq | Hin]; [subst kv; exact H1 | apply (H2 _ Hin)].
Qed.

(** X7.  Chunked with the maximum the pass reads for the entity, an
    observation is replaced by rows of that entity whose indices are above
    the index of every row the entity had. *)
Theorem chunk_indices_above_existing (c c' : Store.connection) (obs_id : Z)
  (obs_text : string) (entity : Z) (orig : Store.observation) (new_obs_ids : list Z)
  (j : nat) (new_id : Z) :
  Store.observations (Store.working c) !! obs_id = Some orig ->
  Store.chunk_long_observation obs_id obs_text entity
    (default 0 (Pass.max_index_of (Store.working c) entity)) c
  = (Store.Ok new_obs_ids, c') ->
  new_obs_ids !! j = Some new_id ->
  exists row, Store.observations (Store.working c') !! new_id = Some row /\
    Store.entity_id row = entity /\
    forall k o, Store.observations (Store.working c) !! k = Some o ->
                Store.entity_id o = entity ->
                Store.observation_index o < Store.observation_index row.
Proof.
  intros Horig Hrun Hj.
  pose proof (chunk_long_observation_run c obs_id obs_text entity
                (default 0 (Pass.max_index_of (Store.working c) entity)) orig Horig) as H.
  cbv zeta in H. rewrite Hrun in H.
  destruct (length (Chunker.smart_chunk_text obs_text Chunker.MAX_CHUNK_SIZE) <=? 1)%nat.
  - destruct H as [-> _]. discriminate Hj.
  - destruct H as (_ & _ & _ & _ & _ & _ & Hnew).
    destruct (Hnew j new_id Hj) as (text & _ & Hrow).
    eexists. split; [exact Hrow | ]. split; [reflexivity | ].
    intros k o Hk He. cbn [chunk_row Store.observation_index].
    destruct (max_index_of_bound (Store.working c) entity k o Hk He) as (m & -> & Hm).
    unfold default. cbn [from_option id]. lia.
Qed.

Lemma chunk_indices_above_existing_witness :
  exists row,
    Store.observations
      (Store.working (snd (Store.chunk_long_observation 7 long_log 1
                             (default 0 (Pass.max_index_of (Store.working log_store) 1))
                             log_store))) !! 9 = Some row /\
    Store.entity_id row = 1 /\
    forall k o, Store.observations (Store.working log_store) !! k = Some o ->
                Store.entity_id o = 1 ->
                Store.observation_index o < Store.observation_index row.
Proof.
  apply (chunk_indices_above_existing log_store _ 7 long_log 1 log_row [8; 9] 1%nat 9).
  - reflexivity.
  - vm_compute. reflexivity.
  - reflexivity.
Defined.

(** ** Further properties of the embedding pass *)

Lemma embedded_kept_alter (start m : gmap Z Store.observation) (v : Store.vector) (id : Z) :
  embedded_kept start m -> unembedded start id ->
  embedded_kept start (alter (Pass.set_embedding v) id m).
Proof.
  intros Hkept Hun k o Hk Hemb. destruct (decide (id = k)) as [-> | Hne].
  - specialize (Hun o Hk). contradiction.
  - rewrite lookup_alter_ne by exact Hne. apply (Hkept k o Hk Hemb).
Qed.

Section PassKeeps.

Variable ollama lmstudio : string -> Provider.reply.
Variable start : gmap Z Store.observation.

Lemma update_embedding_keeps (e : Json.json) (id : Z) (c : Store.connection) :
  keeps_embedded start c -> unembedded start id ->
  match Pass.update_embedding e id c with
  | (Store.Ok _, c') => keeps_embedded start c' /\ rows_stay c c'
  | (Store.Raise, c') => embedded_kept start (Store.observations (Store.committed c'))
  end.
Proof.
  intros [Hc Hw] Hun. pose proof (update_embedding_run e id c) as H.
  destruct (Pass.update_embedding e id c) as [[[] | ] c1].
  - destruct H as (Hc1 & v & Hobs). split; [split; [rewrite Hc1; exact Hc | ] | ].
    + rewrite Hobs. apply embedded_kept_alter; assumption.
    + intros k [o Ho]. rewrite Hobs. destruct (decide (id = k)) as [-> | Hne].
      * rewrite lookup_alter_eq, Ho. eexists. reflexivity.
      * rewrite lookup_alter_ne by exact Hne. eexists. exact Ho.
  - rewrite H. exact Hc.
Qed.

Lemma commit_keeps (c : Store.connection) :
  keeps_embedded start c ->
  match Store.commit c with
  | (Store.Ok _, c') => keeps_embedded start c' /\ rows_stay c c'
  | (Store.Raise, c') => embedded_kept start (Store.observations (Store.committed c'))
  end.
Proof.
  intros [Hc Hw]. pose proof (commit_run c) as H.
  destruct (Store.commit c) as [[[] | ] c1].
  - destruct H as (Hc1 & Hw1 & _). unfold keeps_embedded, rows_stay. rewrite Hc1, Hw1. auto.
  - destruct H as [Hc1 _]. rewrite Hc1. exact Hc.
Qed.

Lemma embed_chunks_keeps (new_ids : list Z) :
  forall (embedded_count : Z) (c : Store.connection),
  keeps_embedded start c ->
  (forall id, id ∈ new_ids -> unembedded start id) ->
  match Pass.embed_chunks ollama lmstudio new_ids embedded_count c with
  | (Store.Ok _, c') => keeps_embedded start c' /\ rows_stay c c'
  | (Store.Raise, c') => embedded_kept start (Store.observations (Store.committed c'))
  end.
Proof.
  induction new_ids as [ | new_id rest IH]; intros count c Hkeeps Hun.
  - cbn. split; [exact Hkeeps | intros k Hk; exact Hk].
  - cbn [Pass.embed_chunks]. unfold Store.bind at 1.
    pose proof (select_text_run new_id c) as H1.
    destruct (Pass.select_text new_id c) as [[chunk_text | ] c1]; destruct H1 as [Hc1 Hw1];
      [ | rewrite Hc1; apply Hkeeps].
    assert (Hkeeps1 : keeps_embedded start c1)
      by (unfold keeps_embedded; rewrite Hc1, Hw1; exact Hkeeps).
    assert (Hrest : forall id, id ∈ rest -> unembedded start id)
      by (intros id Hid; apply Hun, elem_of_cons; right; exact Hid).
    assert (Hskip : forall n,
              match Pass.embed_chunks ollama lmstudio rest n c1 with
              | (Store.Ok _, c') => keeps_embedded start c' /\ rows_stay c c'
              | (Store.Raise, c') =>
                  embedded_kept start (Store.observations (Store.committed c'))
              end).
    { intros n. specialize (IH n c1 Hkeeps1 Hrest).
      destruct (Pass.embed_chunks ollama lmstudio rest n c1) as [[m | ] c']; [ | exact IH].
      destruct IH as [Hk Hstay]. split; [exact Hk | ].
      intros k Hk'. apply Hstay. rewrite Hw1. exact Hk'. }
    destruct chunk_text as [text | ]; [ | apply Hskip].
    destruct (Text.is_empty text); [apply Hskip | ].
    destruct (Pass.get_ollama_embedding ollama lmstudio text) as [e | ]; [ | apply Hskip].
    unfold Store.bind at 1.
    pose proof (update_embedding_keeps e new_id c1 Hkeeps1
                  (Hun new_id ltac:(apply elem_of_cons; left; reflexivity))) as H2.
    destruct (Pass.update_embedding e new_id c1) as [[[] | ] c2]; [ | exact H2].
    destruct H2 as [Hkeeps2 Hstay2]. specialize (IH (count + 1) c2 Hkeeps2 Hrest).
    destruct (Pass.embed_chunks ollama lmstudio rest (count + 1) c2) as [[m | ] c'];
      [ | exact IH].
    destruct IH as [Hk Hstay]. split; [exact Hk | ].
    intros k Hk'. apply Hstay, Hstay2. rewrite Hw1. exact Hk'.
Qed.

Lemma embed_whole_keeps (batch_size : Z) (obs : Pass.pending) (counts : Z * Z)
  (c : Store.connection) :
  keeps_embedded start c -> unembedded start (Pass.id obs) ->
  match Pass.embed_whole ollama lmstudio batch_size obs counts c with
  | (Store.Ok _, c') => keeps_embedded start c' /\ rows_stay c c'
  | (Store.Raise, c') => embedded_kept start (Store.observations (Store.committed c'))
  end.
Proof.
  intros Hkeeps Hun. unfold Pass.embed_whole. destruct counts as [embedded chunked].
  destruct (Pass.get_ollama_embedding ollama lmstudio (Pass.pending_text obs)) as [e | ];
    [ | cbn; split; [exact Hkeeps | intros k Hk; exact Hk]].
  unfold Store.bind at 1.
  pose proof (update_embedding_keeps e (Pass.id obs) c Hkeeps Hun) as H1.
  destruct (Pass.update_embedding e (Pass.id obs) c) as [[[] | ] c1]; [ | exact H1].
  destruct H1 as [Hkeeps1 Hstay1].
  cbv zeta. destruct (batch_size =? 0); [cbn; apply Hkeeps1 | ].
  destruct ((embedded + 1) mod batch_size =? 0); [ | cbn; auto].
  unfold Store.bind at 1. pose proof (commit_keeps c1 Hkeeps1) as H2.
  destruct (Store.commit c1) as [[[] | ] c2]; [ | exact H2].
  destruct H2 as [Hkeeps2 Hstay2]. cbn. split; [exact Hkeeps2 | ].
  intros k Hk. apply Hstay2, Hstay1, Hk.
Qed.

Lemma embed_one_keeps (batch_size : Z) (obs : Pass.pending) (counts : Z * Z)
  (c : Store.connection) :
  keeps_embedded start c -> unembedded start (Pass.id obs) ->
  is_Some (Store.observations (Store.working c) !! Pass.id obs) ->
  match Pass.embed_one ollama lmstudio batch_size obs counts c with
  | (Store.Ok _, c') =>
      keeps_embedded start c' /\
      (forall k, k <> Pass.id obs ->
         is_Some (Store.observations (Store.working c) !! k) ->
         is_Some (Store.observations (Store.working c') !! k))
  | (Store.Raise, c') => embedded_kept start (Store.observations (Store.committed c'))
  end.
Proof.
  intros Hkeeps Hun [orig Horig]. unfold Pass.embed_one. destruct counts as [embedded chunked].
  assert (Hwhole : forall c0,
            keeps_embedded start c0 -> Store.working c0 = Store.working c ->
            match Pass.embed_whole ollama lmstudio batch_size obs (embedded, chunked) c0 with
            | (Store.Ok _, c') =>
                keeps_embedded start c' /\
                (forall k, k <> Pass.id obs ->
                   is_Some (Store.observations (Store.working c) !! k) ->
                   is_Some (Store.observations (Store.working c') !! k))
            | (Store.Raise, c') =>
                embedded_kept start (Store.observations (Store.committed c'))
            end).
  { intros c0 Hk0 Hw0. pose proof (embed_whole_keeps batch_size obs (embedded, chunked) c0
                                     Hk0 Hun) as H.
    destruct (Pass.embed_whole ollama lmstudio batch_size obs (embedded, chunked) c0)
      as [[n | ] c']; [ | exact H].
    destruct H as [Hk Hstay]. split; [exact Hk | ].
    intros k _ Hk'. apply Hstay. rewrite Hw0. exact Hk'. }
  destruct (Chunker.MAX_CHUNK_SIZE <? Text.len (Pass.pending_text obs));
    [ | apply Hwhole; [exact Hkeeps | reflexivity]].
  unfold Store.bind at 1.
  pose proof (select_max_index_run (Pass.pending_entity obs) c) as H1.
  destruct (Pass.select_max_index (Pass.pending_entity obs) c) as [[result | ] c1];
    destruct H1 as [Hc1 Hw1]; [ | rewrite Hc1; apply Hkeeps].
  assert (Hkeeps1 : keeps_embedded start c1)
    by (unfold keeps_embedded; rewrite Hc1, Hw1; exact Hkeeps).
  rewrite <- Hw1 in Horig. unfold Store.bind at 1.
  pose proof (chunk_long_observation_run c1 (Pass.id obs) (Pass.pending_text obs)
                (Pass.pending_entity obs) (default 0 result) orig Horig) as H2.
  cbv zeta in H2.
  destruct (Store.chunk_long_observation (Pass.id obs) (Pass.pending_text obs)
              (Pass.pending_entity obs) (default 0 result) c1) as [[new_ids | ] c2];
    [ | rewrite H2; apply Hkeeps1].
  destruct (length (Chunker.smart_chunk_text (Pass.pending_text obs) Chunker.MAX_CHUNK_SIZE)
            <=? 1)%nat.
  - destruct H2 as [-> ->]. apply Hwhole; assumption.
  - destruct H2 as (Hlen & Hcommit & _ & _ & Hkeep & _ & Hnew).
    assert (Hw2 : embedded_kept start (Store.observations (Store.working c2))).
    { intros k o Hk Hemb. apply Hkeep; [ | apply Hkeeps1; assumption].
      intros ->. specialize (Hun o Hk). contradiction. }
    assert (Hkeeps2 : keeps_embedded start c2)
      by (unfold keeps_embedded; rewrite Hcommit; auto).
    assert (Hfresh : forall id, id ∈ new_ids -> unembedded start id).
    { intros id Hid o Ho. apply list_elem_of_lookup in Hid. destruct Hid as [j Hj].
      destruct (Hnew j id Hj) as (text & _ & Hrow).
      destruct (Store.embedding o) as [v | ] eqn:Hv; [ | reflexivity].
      assert (Hsame : Store.observations (Store.working c2) !! id = Some o)
        by (apply Hw2; [exact Ho | congruence]).
      rewrite Hrow in Hsame. injection Hsame as <-. discriminate Hv. }
    assert (Hstay2 : forall k, k <> Pass.id obs ->
              is_Some (Store.observations (Store.working c) !! k) ->
              is_Some (Store.observations (Store.working c2) !! k)).
    { intros k Hne [o Ho]. exists o. apply Hkeep; [exact Hne | rewrite Hw1; exact Ho]. }
    destruct new_ids as [ | id1 ids]; [cbn in Hlen; discriminate Hlen || idtac | ].
    { pose proof (embed_whole_keeps batch_size obs (embedded, chunked) c2 Hkeeps2 Hun) as H.
      destruct (Pass.embed_whole ollama lmstudio batch_size obs (embedded, chunked) c2)
        as [[n | ] c']; [ | exact H].
      destruct H as [Hk Hstay]. split; [exact Hk | ].
      intros k Hne Hk'. apply Hstay, Hstay2; assumption. }
    unfold Store.bind at 1.
    pose proof (embed_chunks_keeps (id1 :: ids) embedded c2 Hkeeps2 Hfresh) as H3.
    destruct (Pass.embed_chunks ollama lmstudio (id1 :: ids) embedded c2) as [[n | ] c3];
      [ | exact H3].
    destruct H3 as [Hkeeps3 Hstay3].
    unfold Store.bind at 1. pose proof (commit_keeps c3 Hkeeps3) as H4.
    destruct (Store.commit c3) as [[[] | ] c4]; [ | exact H4].
    destruct H4 as [Hkeeps4 Hstay4]. cbn. split; [exact Hkeeps4 | ].
    intros k Hne Hk. apply Hstay4, Hstay3, Hstay2; assumption.
Qed.

Lemma embed_loop_keeps (batch_size : Z) (todo : list Pass.pending) :
  forall (counts : Z * Z) (c : Store.connection),
  keeps_embedded start c ->
  (forall obs, obs ∈ todo ->
     unembedded start (Pass.id obs) /\
     is_Some (Store.observations (Store.working c) !! Pass.id obs)) ->
  NoDup (Pass.id <$> todo) ->
  match Pass.embed_loop ollama lmstudio batch_size todo counts c with
  | (Store.Ok _, c') => keeps_embedded start c'
  | (Store.Raise, c') => embedded_kept start (Store.observations (Store.committed c'))
  end.
Proof.
  induction todo as [ | obs rest IH]; intros counts c Hkeeps Htodo Hnd.
  - cbn. exact Hkeeps.
  - cbn [Pass.embed_loop]. unfold Store.bind at 1.
    rewrite fmap_cons in Hnd. apply NoDup_cons in Hnd. destruct Hnd as [Hfresh Hnd].
    destruct (Htodo obs ltac:(apply elem_of_cons; left; reflexivity)) as [Hun Hrow].
    pose proof (embed_one_keeps batch_size obs counts c Hkeeps Hun Hrow) as H1.
    destruct (Pass.embed_one ollama lmstudio batch_size obs counts c) as [[counts' | ] c1];
      [ | exact H1].
    destruct H1 as [Hkeeps1 Hstay1]. apply IH; [exact Hkeeps1 | | exact Hnd].
    intros x Hx. destruct (Htodo x ltac:(apply elem_of_cons; right; exact Hx)) as [Hux Hrx].
    split; [exact Hux | ]. apply Hstay1; [ | exact Hrx].
    intros Heq. apply Hfresh. rewrite <- Heq. apply list_elem_of_fmap. exists x. auto.
Qed.

End PassKeeps.

Lemma pending_rows_unembedded (t : Store.tables) (obs : Pass.pending) :
  obs ∈ Pass.pending_rows t ->
  unembedded (Store.observations t) (Pass.id obs) /\
  is_Some (Store.observations t !! Pass.id obs).
Proof.
  intros Hin. unfold Pass.pending_rows in Hin.
  apply list_elem_of_omap in Hin. destruct Hin as ([k o] & Hkv & Hp).
  rewrite (merge_sort_Permutation Pass.newer (map_to_list (Store.observations t))) in Hkv.
  apply elem_of_map_to_list in Hkv.
  destruct (to_pending_spec _ _ Hp) as [Hid _]. cbn in Hid. rewrite Hid.
  split; [ | exists o; exact Hkv].
  intros o' Ho'. rewrite Hkv in Ho'. injection Ho' as <-.
  unfold Pass.to_pending in Hp. cbn [snd] in Hp.
  destruct (Store.embedding o); [discriminate Hp | reflexivity].
Qed.

Lemma select_pending_unembedded (limit : option Z) (c : Store.connection) :
  match Pass.select_pending limit c with
  | (Store.Ok todo, _) =>
      forall obs, obs ∈ todo ->
        unembedded (Store.observations (Store.working c)) (Pass.id obs) /\
        is_Some (Store.observations (Store.working c) !! Pass.id obs)
  | (Store.Raise, _) => True
  end.
Proof.
  unfold Pass.select_pending, Store.bind.
  pose proof (statement_run c) as Hs.
  destruct (Store.statement c) as [[[] | ] c1]; destruct Hs as (Hc & Hw & _); [ | exact I].
  cbv zeta. rewrite Hw.
  destruct limit as [n | ]; [ | apply pending_rows_unembedded].
  destruct (n =? 0); [apply pending_rows_unembedded | ]. destruct (n <? 0); [exact I | ].
  destruct (Store.BIGINT_MAX <? n); [exact I | ].
  intros obs Hin. apply pending_rows_unembedded. apply (subseteq_take (Z.to_nat n)). exact Hin.
Qed.

(** X8.  The embedding pass leaves alone what is already embedded: an
    observation that holds a vector when the pass starts on a connection
    without open changes is in the committed table, unchanged, when the
    pass ends, whatever the providers answer and wherever the store fails. *)
Theorem embed_observations_keeps_embedded (ollama lmstudio : string -> Provider.reply)
  (limit : option Z) (batch_size : Z) (c : Store.connection) (k : Z) (o : Store.observation) :
  Store.working c = Store.committed c ->
  Store.observations (Store.committed c) !! k = Some o ->
  Store.embedding o <> None ->
  Store.observations
    (Store.close (snd (Pass.embed_observations ollama lmstudio limit batch_size c))) !! k
  = Some o.
Proof.
  intros Hclean Hk Hemb.
  set (start := Store.observations (Store.committed c)).
  assert (Hgoal : embedded_kept start
            (Store.observations
               (Store.close (snd (Pass.embed_observations ollama lmstudio limit batch_size c)))));
    [ | apply Hgoal; assumption].
  assert (Hself : embedded_kept start start) by (intros k' o' Hk' _; exact Hk').
  unfold Store.close, Pass.embed_observations. unfold Store.bind at 1.
  pose proof (select_pending_run limit c) as H1.
  pose proof (select_pending_unembedded limit c) as Hun.
  destruct (Pass.select_pending limit c) as [[todo | ] c1]; [ | cbn; rewrite H1; exact Hself].
  destruct H1 as (Hc1 & Hw1 & _ & Hnd).
  assert (Hkeeps1 : keeps_embedded start c1).
  { unfold keeps_embedded. rewrite Hc1, Hw1, Hclean. auto. }
  destruct todo as [ | obs rest]; [cbn; apply Hkeeps1 | ].
  unfold Store.bind at 1.
  assert (Htodo : forall x, x ∈ obs :: rest ->
            unembedded start (Pass.id x) /\
            is_Some (Store.observations (Store.working c1) !! Pass.id x)).
  { intros x Hx. rewrite Hw1. unfold start. rewrite <- Hclean. apply Hun, Hx. }
  pose proof (embed_loop_keeps ollama lmstudio start batch_size (obs :: rest) (0, 0) c1
                Hkeeps1 Htodo Hnd) as H2.
  destruct (Pass.embed_loop ollama lmstudio batch_size (obs :: rest) (0, 0) c1)
    as [[counts | ] c2]; [ | exact H2].
  unfold Store.bind at 1. pose proof (commit_keeps start c2 H2) as H3.
  destruct (Store.commit c2) as [[[] | ] c3]; cbn; [apply H3 | exact H3].
Qed.

Lemma embed_observations_keeps_embedded_witness :
  Store.observations
    (Store.close (snd (Pass.embed_observations ollama_answers refused None 10 mixed_store))) !! 5
  = Some fox_row.
Proof.
  apply embed_observations_keeps_embedded.
  - reflexivity.
  - vm_compute. reflexivity.
  - discriminate.
Defined.

(** X29.  Apart from the observations the chunker leaves in one piece, the
    pass keeps the invariant of the specification.  Started on a connection
    without open changes, where every observation with a vector is a text
    within the threshold or a chunk, and every observation without a vector
    that is above the threshold is cut by the chunker in two chunks or
    more, the pass ends, completed or interrupted, with committed tables
    where every observation with a vector is a text within the threshold or
    a chunk. *)
Theorem embed_observations_short_or_chunk (ollama lmstudio : string -> Provider.reply)
  (limit : option Z) (batch_size : Z) (c : Store.connection) :
  Store.working c = Store.committed c ->
  embedded_rows short_or_chunk (Store.committed c) ->
  (forall k o text, Store.observations (Store.committed c) !! k = Some o ->
     Store.embedding o = None -> Store.observation_text o = Some text -> splits text) ->
  embedded_rows short_or_chunk
    (Store.close (snd (Pass.embed_observations ollama lmstudio limit batch_size c))).
Proof.
  intros Hclean Hok Hsplits. unfold Store.close, Pass.embed_observations.
  unfold Store.bind at 1.
  pose proof (select_pending_run limit c) as H1.
  pose proof (select_pending_unembedded limit c) as Hun.
  destruct (Pass.select_pending limit c) as [[todo | ] c1]; [ | cbn; rewrite H1; exact Hok].
  destruct H1 as (Hc1 & Hw1 & Hsnap & Hnd).
  assert (Hinv1 : pass_invariant c1).
  { unfold pass_invariant. rewrite Hc1, Hw1, Hclean. auto. }
  assert (Htodo : forall obs, obs ∈ todo -> splits (Pass.pending_text obs)).
  { intros obs Hin. destruct (Hsnap obs Hin) as (o & Ho & Htext).
    destruct (Hun obs Hin) as [Hnone _]. rewrite Hclean in Ho, Hnone.
    apply (Hsplits (Pass.id obs) o _ Ho (Hnone o Ho) Htext). }
  rewrite <- Hw1 in Hsnap.
  destruct todo as [ | obs rest]; [cbn; apply Hinv1 | ].
  unfold Store.bind at 1.
  pose proof (embed_loop_run ollama lmstudio batch_size (obs :: rest) (0, 0) c1 Hinv1 Hsnap Hnd
                Htodo) as H2.
  destruct (Pass.embed_loop ollama lmstudio batch_size (obs :: rest) (0, 0) c1)
    as [[counts | ] c2]; [ | exact H2].
  unfold Store.bind at 1. pose proof (commit_run c2) as H3.
  destruct (Store.commit c2) as [[[] | ] c3]; cbn.
  - destruct H3 as (Hc3 & _). rewrite Hc3. apply H2.
  - destruct H3 as (Hc3 & _). rewrite Hc3. apply H2.
Qed.

Lemma embed_observations_short_or_chunk_witness :
  embedded_rows short_or_chunk
    (Store.close (snd (Pass.embed_observations ollama_answers refused None 10 mixed_store))).
Proof.
  apply embed_observations_short_or_chunk.
  - reflexivity.
  - intros k o Hk Hemb. cbn in Hk.
    destruct (decide (k = 5)) as [-> | H5].
    + rewrite lookup_insert_eq in Hk. injection Hk as <-.
      left. vm_compute. discriminate.
    + rewrite lookup_insert_ne in Hk by congruence.
      apply lookup_singleton_Some in Hk. destruct Hk as [_ <-].
      exfalso. apply Hemb. reflexivity.
  - intros k o text Hk Hnone Htext. cbn in Hk.
    destruct (decide (k = 5)) as [-> | H5].
    + rewrite lookup_insert_eq in Hk. injection Hk as <-. discriminate Hnone.
    + rewrite lookup_insert_ne in Hk by congruence.
      apply lookup_singleton_Some in Hk. destruct Hk as [_ <-].
      injection Htext as <-. intros _. vm_compute. lia.
Defined.

(** ** Further properties of the providers and of retrieval *)

(** X9.  An embedding returned by the provider chain of the embedding pass
    is never an empty or otherwise false value: the caller's test
    [if embedding] always passes on it. *)
Theorem get_ollama_embedding_truthy (ollama lmstudio : string -> Provider.reply)
  (text : string) (e : Json.json) :
  Provider.get_ollama_embedding ollama lmstudio text = Some e -> Json.truthy e = true.
Proof.
  unfold Provider.get_ollama_embedding.
  assert (H1 : forall r x, Provider.ollama_try r = Json.Done (Some x) -> Json.truthy x = true).
  { intros r x. unfold Provider.ollama_try. destruct r as [ | body | data]; try discriminate.
    destruct (Json.has "error" data) as [[ | ] | ]; cbn [Json.and_then]; try discriminate.
    destruct (Json.get data "embedding" Json.JNull) as [emb | ]; cbn [Json.and_then];
      try discriminate.
    destruct (Json.truthy emb) eqn:Ht; [ | discriminate].
    intros H. injection H as <-. exact Ht. }
  assert (H2 : forall r x, Provider.lmstudio_try r = Json.Done (Some x) -> Json.truthy x = true).
  { intros r x. unfold Provider.lmstudio_try. destruct r as [ | body | data]; try discriminate.
    destruct (Json.has "data" data) as [[ | ] | ]; cbn [Json.and_then]; try discriminate.
    destruct (Json.item data "data") as [d | ]; cbn [Json.and_then]; try discriminate.
    destruct (Json.truthy d); try discriminate.
    destruct (Json.first d) as [entry | ]; cbn [Json.and_then]; try discriminate.
    destruct (Json.get entry "embedding" (Json.JArr [])) as [emb | ]; cbn [Json.and_then];
      try discriminate.
    destruct (Json.truthy emb) eqn:Ht; [ | discriminate].
    intros H. injection H as <-. exact Ht. }
  destruct (Provider.ollama_try (ollama (Provider.clean text))) as [[e1 | ] | ] eqn:E1.
  - intros H. injection H as <-. apply (H1 _ _ E1).
  - destruct (Provider.lmstudio_try (lmstudio (Provider.clean text))) as [[e2 | ] | ] eqn:E2;
      try discriminate.
    intros H. injection H as <-. apply (H2 _ _ E2).
  - destruct (Provider.lmstudio_try (lmstudio (Provider.clean text))) as [[e2 | ] | ] eqn:E2;
      try discriminate.
    intros H. injection H as <-. apply (H2 _ _ E2).
Qed.

Lemma get_ollama_embedding_truthy_witness :
  Json.truthy (Json.JArr [Json.JNum 1; Json.JNum 0]) = true.
Proof.
  apply (get_ollama_embedding_truthy refused fallback_answers "any  text").
  reflexivity.
Defined.

Lemma api_embed_source (ollama lmstudio : string -> Provider.reply) (query : string)
  (e : Json.json) :
  Provider.embedding (Provider.api_embed ollama lmstudio query) = Some e ->
  Json.truthy e = true ->
  (Provider.embedding_source (Provider.api_embed ollama lmstudio query) = Some "ollama" /\
   api_yield (Provider.api_ollama_value (ollama query)) <> None) \/
  (Provider.embedding_source (Provider.api_embed ollama lmstudio query) = Some "lmstudio" /\
   api_yield (Provider.api_ollama_value (ollama query)) = None /\
   api_yield (Provider.api_lmstudio_value (lmstudio query)) <> None).
Proof.
  unfold Provider.api_embed, Provider.api_try_lmstudio, Provider.api_try_ollama,
    Provider.no_embedding, api_yield.
  destruct (Provider.api_ollama_value (ollama query)) as [e1 | ];
    cbn [Provider.embedding Provider.embedding_source Provider.errors].
  - destruct (Json.truthy e1) eqn:T1; cbn [negb Provider.embedding Provider.embedding_source].
    + intros _ _. left. split; [reflexivity | discriminate].
    + destruct (Provider.api_lmstudio_value (lmstudio query)) as [e2 | ];
        cbn [Provider.embedding Provider.embedding_source].
      * intros H Ht. injection H as ->. rewrite Ht. right.
        split; [reflexivity | split; [reflexivity | discriminate]].
      * intros H Ht. injection H as ->. congruence.
  - destruct (Provider.api_lmstudio_value (lmstudio query)) as [e2 | ];
      cbn [Provider.embedding Provider.embedding_source]; [ | discriminate].
    intros H Ht. injection H as ->. rewrite Ht. right.
    split; [reflexivity | split; [reflexivity | discriminate]].
Qed.

(** X10.  An answer with results names its provider: the source is
    ['ollama'] when the primary yields an embedding, and ['lmstudio'] only
    when the primary yields none and the fallback does; it is never left
    unset, and the query echoed is the trimmed one. *)
Theorem semantic_search_source cosine_similarity (names : gmap Z string)
  (ollama lmstudio : string -> Provider.reply) (number_text : Q -> string)
  (t : Store.tables) (q : string) (limit : option Z) (min_similarity : option Q)
  (include_archive : bool) (query : string) (results : list Retrieval.result_row)
  (count : Z) (floor : Q) (source : option string) :
  Retrieval.api_semantic_search cosine_similarity names ollama lmstudio number_text
    t q limit min_similarity include_archive
  = Retrieval.Results query results count floor source ->
  query = Text.strip q /\
  ((source = Some "ollama" /\
    api_yield (Provider.api_ollama_value (ollama query)) <> None) \/
   (source = Some "lmstudio" /\
    api_yield (Provider.api_ollama_value (ollama query)) = None /\
    api_yield (Provider.api_lmstudio_value (lmstudio query)) <> None)).
Proof.
  intros H. unfold Retrieval.api_semantic_search in H. cbv zeta in H.
  destruct (Text.is_empty (Text.strip q)); [discriminate | ].
  destruct (Provider.embedding (Provider.api_embed ollama lmstudio (Text.strip q)))
    as [e | ] eqn:He; [ | discriminate].
  destruct (Json.truthy e) eqn:Ht; cbn [negb] in H; [ | discriminate].
  destruct (Retrieval.search _ _ _ _ _ _ _); [ | discriminate].
  injection H as <- _ _ _ <-. split; [reflexivity | ].
  apply (api_embed_source ollama lmstudio (Text.strip q) e He Ht).
Qed.

Lemma semantic_search_source_witness :
  "fox" = Text.strip "fox" /\
  ((Some "ollama" = Some "ollama" /\
    api_yield (Provider.api_ollama_value (query_answers "fox")) <> None) \/
   (Some "ollama" = Some "lmstudio" /\
    api_yield (Provider.api_ollama_value (query_answers "fox")) = None /\
    api_yield (Provider.api_lmstudio_value (refused "fox")) <> None)).
Proof.
  exact (semantic_search_source cosine_over_29 ∅ query_answers refused (fun _ => "0")
           fox_tables "fox" (Some 5) None true "fox" [fox_result; dog_result] 2 (1 # 2)
           (Some "ollama") fox_and_dog_search).
Defined.



Lemma candidates_inv cosine_similarity (names : gmap Z string) (label : string)
  (table : gmap Z Store.observation) (q : Store.vector) (h : Retrieval.hit) :
  h ∈ Retrieval.candidates cosine_similarity names label table q ->
  exists (o : Store.observation) (v : Store.vector),
    table !! Retrieval.hit_id h = Some o /\ Store.embedding o = Some v /\
    h = hit_of cosine_similarity names label q (Retrieval.hit_id h) o v.
Proof.
  unfold Retrieval.candidates. intros Hin.
  apply list_elem_of_omap in Hin. destruct Hin as ([k o] & Hkv & Hh).
  apply elem_of_map_to_list in Hkv. cbn [fst snd] in Hh.
  destruct (Store.embedding o) as [v | ] eqn:Hv; [ | discriminate].
  injection Hh as <-. exists o, v. auto.
Qed.

(** X11.  Every row of an answer with results renders a stored observation
    that holds a vector: an active one under the label ['active'], or, only
    when the archive is included, an archived one under ['archive']; its
    text, entity and index are the stored ones. *)
Theorem semantic_search_sound cosine_similarity (names : gmap Z string)
  (ollama lmstudio : string -> Provider.reply) (number_text : Q -> string)
  (t : Store.tables) (q : string) (limit : option Z) (min_similarity : option Q)
  (include_archive : bool) (query : string) (results : list Retrieval.result_row)
  (count : Z) (floor : Q) (source : option string) (r : Retrieval.result_row) :
  Retrieval.api_semantic_search cosine_similarity names ollama lmstudio number_text
    t q limit min_similarity include_archive
  = Retrieval.Results query results count floor source ->
  r ∈ results ->
  rendered_from names t include_archive r.
Proof.
  intros H Hr. unfold Retrieval.api_semantic_search in H. cbv zeta in H.
  destruct (Text.is_empty (Text.strip q)); [discriminate | ].
  destruct (Provider.embedding (Provider.api_embed ollama lmstudio (Text.strip q)))
    as [e | ]; [ | discriminate].
  destruct (negb (Json.truthy e)); [discriminate | ].
  destruct (Retrieval.search cosine_similarity names t e include_archive
              (Retrieval.clamp_similarity min_similarity) (Retrieval.clamp_limit limit))
    as [hits | ] eqn:Hsearch; [ | discriminate].
  injection H as _ <- _ _ _.
  unfold Retrieval.search in Hsearch.
  destruct (Pass.numbers e) as [[ | x qv] | ]; try discriminate.
  destruct (forallb _ _); [ | discriminate]. injection Hsearch as <-.
  apply list_elem_of_fmap in Hr. destruct Hr as (h & -> & Hh).
  destruct (ranked_spec (Retrieval.clamp_similarity min_similarity)
              (Retrieval.clamp_limit limit)
              (Retrieval.pool cosine_similarity names t include_archive (x :: qv)))
    as (_ & Hin & _ & _).
  destruct (Hin h Hh) as [Hrows _]. unfold Retrieval.pool in Hrows.
  assert (Hfrom : (exists o v, Store.observations t !! Retrieval.hit_id h = Some o /\
                     Store.embedding o = Some v /\
                     h = hit_of cosine_similarity names "active" (x :: qv)
                           (Retrieval.hit_id h) o v) \/
                  (include_archive = true /\
                   exists o v, Store.observations_archive t !! Retrieval.hit_id h = Some o /\
                     Store.embedding o = Some v /\
                     h = hit_of cosine_similarity names "archive" (x :: qv)
                           (Retrieval.hit_id h) o v)).
  { destruct include_archive.
    - apply elem_of_app in Hrows. destruct Hrows as [Hrows | Hrows].
      + left. apply (candidates_inv _ _ _ _ _ _ Hrows).
      + right. split; [reflexivity | ]. apply (candidates_inv _ _ _ _ _ _ Hrows).
    - left. apply (candidates_inv _ _ _ _ _ _ Hrows). }
  destruct Hfrom as [(o & v & Hk & Hv & Heq) | (Harch & o & v & Hk & Hv & Heq)];
    exists o, v; rewrite Heq; cbn; rewrite Heq in Hk; cbn in Hk; auto 10.
Qed.

Lemma semantic_search_sound_witness : rendered_from ∅ fox_tables true dog_result.
Proof.
  apply (semantic_search_sound cosine_over_29 ∅ query_answers refused (fun _ => "0")
           fox_tables "fox" (Some 5) None true "fox" [fox_result; dog_result] 2 (1 # 2)
           (Some "ollama") dog_result fox_and_dog_search).
  apply elem_of_cons. right. apply elem_of_cons. left. reflexivity.
Defined.

(** The words of a text hold its characters other than whitespace. *)
Lemma words_from_squeeze (s : string) (in_word : bool) :
  Text.concat_all (Text.words_from in_word s) = squeeze s.
Proof.
  revert in_word. induction s as [ | c s IH]; intros in_word.
  - destruct in_word; reflexivity.
  - cbn [Text.words_from squeeze]. destruct (Text.is_space c).
    + destruct in_word; [cbn [Text.concat_all]; rewrite append_empty_l | ]; apply IH.
    + rewrite concat_all_cons_char. f_equal. apply IH.
Qed.

Lemma squeeze_join_blank (l : list string) :
  squeeze (Text.join " " l) = squeeze (Text.concat_all l).
Proof.
  induction l as [ | w l IH]; [reflexivity | ].
  destruct l as [ | w' l].
  - cbn [Text.join Text.concat_all]. rewrite append_empty_r. reflexivity.
  - change (Text.join " " (w :: w' :: l)) with (w ++ " " ++ Text.join " " (w' :: l))%string.
    cbn [Text.concat_all] in *. rewrite !squeeze_append, IH. rewrite squeeze_append.
    reflexivity.
Qed.

Lemma squeeze_idempotent (s : string) : squeeze (squeeze s) = squeeze s.
Proof.
  induction s as [ | c s IH]; [reflexivity | ].
  cbn [squeeze]. destruct (Text.is_space c) eqn:E; [exact IH | ].
  cbn [squeeze]. rewrite E, IH. reflexivity.
Qed.

(** Reading a word and a blank closes the word. *)
Lemma words_from_word (w rest : string) :
  spaceless w = true ->
  Text.words_from true (w ++ " " ++ rest) = w :: Text.words_from false rest.
Proof.
  induction w as [ | c w IH]; intros Hw; [reflexivity | ].
  cbn [spaceless] in Hw. apply andb_prop in Hw. destruct Hw as [Hc Hw].
  rewrite append_cons. cbn [Text.words_from].
  destruct (Text.is_space c); [discriminate Hc | ]. rewrite (IH Hw). reflexivity.
Qed.

Lemma words_from_last (w : string) :
  spaceless w = true -> Text.words_from true w = [w].
Proof.
  induction w as [ | c w IH]; intros Hw; [reflexivity | ].
  cbn [spaceless] in Hw. apply andb_prop in Hw. destruct Hw as [Hc Hw].
  cbn [Text.words_from]. destruct (Text.is_space c); [discriminate Hc | ].
  rewrite (IH Hw). reflexivity.
Qed.

(** Splitting the words joined by single blanks gives the words back. *)
Lemma split_ws_join (l : list string) :
  forallb is_word l = true -> Text.split_ws (Text.join " " l) = l.
Proof.
  unfold Text.split_ws. induction l as [ | w l IH]; intros Hl; [reflexivity | ].
  cbn [forallb] in Hl. apply andb_prop in Hl. destruct Hl as [Hw Hl].
  unfold is_word in Hw. apply andb_prop in Hw. destruct Hw as [Hne Hw].
  destruct w as [ | c w]; [discriminate Hne | ].
  cbn [spaceless] in Hw. apply andb_prop in Hw. destruct Hw as [Hc Hw].
  destruct l as [ | w' l].
  - cbn [Text.join Text.words_from]. destruct (Text.is_space c); [discriminate Hc | ].
    rewrite (words_from_last w Hw). reflexivity.
  - change (Text.join " " (String c w :: w' :: l))
      with (String c w ++ " " ++ Text.join " " (w' :: l))%string.
    rewrite append_cons. cbn [Text.words_from].
    destruct (Text.is_space c); [discriminate Hc | ].
    rewrite (words_from_word w _ Hw), (IH Hl). reflexivity.
Qed.

(** What [words_from] returns: words, after the rest of the word being
    read. *)
Lemma words_from_words (s : string) :
  forallb is_word (Text.words_from false s) = true /\
  match Text.words_from true s with
  | [] => False
  | w :: l => spaceless w = true /\ forallb is_word l = true
  end.
Proof.
  induction s as [ | c s [IH0 IH1]]; [split; [reflexivity | split; reflexivity] | ].
  cbn [Text.words_from]. destruct (Text.is_space c) eqn:E.
  - split; [exact IH0 | split; [reflexivity | exact IH0]].
  - destruct (Text.words_from true s) as [ | w l]; [contradiction | ].
    destruct IH1 as [Hw Hl]. cbn [Text.cons_char forallb].
    unfold is_word at 1. cbn [Text.is_empty negb spaceless]. rewrite E, Hw, Hl.
    split; [reflexivity | split; reflexivity].
Qed.

(** X12.  The cleaning of a text before it is sent to a provider is a
    normal form: cleaning a cleaned text changes nothing, and the cleaned
    text holds the characters of the text other than whitespace, in their
    order. *)
Theorem clean_normal_form (text : string) :
  Provider.clean (Provider.clean text) = Provider.clean text /\
  squeeze (Provider.clean text) = squeeze text.
Proof.
  unfold Provider.clean. split.
  - rewrite split_ws_join; [reflexivity | ]. apply (proj1 (words_from_words text)).
  - rewrite squeeze_join_blank. unfold Text.split_ws.
    rewrite words_from_squeeze. apply squeeze_idempotent.
Qed.

(** A similarity that is no number passes every floor.  In an answer
    with results the rows are in the order the store gives to their
    similarities, descending with NaN first; a row whose similarity is NaN
    is rendered with the similarity NaN; and every stored observation with
    a vector, active or (when included) archived, whose similarity to the
    query is NaN is among the results, unless the similarity of every
    result is NaN. *)
Lemma semantic_search_not_a_number cosine_similarity (names : gmap Z string)
  (ollama lmstudio : string -> Provider.reply) (number_text : Q -> string)
  (t : Store.tables) (q : string) (limit : option Z) (min_similarity : option Q)
  (include_archive : bool) (query : string) (results : list Retrieval.result_row)
  (count : Z) (floor : Q) (source : option string) :
  Retrieval.api_semantic_search cosine_similarity names ollama lmstudio number_text
    t q limit min_similarity include_archive
  = Retrieval.Results query results count floor source ->
  exists (e : Json.json) (qv : Store.vector) (hits : list Retrieval.hit),
    Provider.embedding (Provider.api_embed ollama lmstudio query) = Some e /\
    Pass.numbers e = Some qv /\
    results = map (Retrieval.format_row number_text) hits /\
    StronglySorted Retrieval.better hits /\
    (forall h, h ∈ hits -> Retrieval.similarity h = Retrieval.NaN ->
       Retrieval.result_similarity (Retrieval.format_row number_text h)
       = Some Retrieval.NaN) /\
    (forall (label : string) (table : gmap Z Store.observation) (k : Z)
            (o : Store.observation) (v : Store.vector),
       (label = "active" /\ table = Store.observations t) \/
       (include_archive = true /\ label = "archive" /\
        table = Store.observations_archive t) ->
       table !! k = Some o -> Store.embedding o = Some v ->
       cosine_similarity qv v = Retrieval.NaN ->
       hit_of cosine_similarity names label qv k o v ∈ hits \/
       forall h', h' ∈ hits -> Retrieval.similarity h' = Retrieval.NaN).
Proof.
  intros H. unfold Retrieval.api_semantic_search in H. cbv zeta in H.
  destruct (Text.is_empty (Text.strip q)); [discriminate | ].
  destruct (Provider.embedding (Provider.api_embed ollama lmstudio (Text.strip q)))
    as [e | ] eqn:He; [ | discriminate].
  destruct (negb (Json.truthy e)); [discriminate | ].
  destruct (Retrieval.search cosine_similarity names t e include_archive
              (Retrieval.clamp_similarity min_similarity) (Retrieval.clamp_limit limit))
    as [hits | ] eqn:Hsearch; [ | discriminate].
  injection H as <- <- <- <- <-.
  unfold Retrieval.search in Hsearch.
  destruct (Pass.numbers e) as [[ | x qv] | ] eqn:Hnum; try discriminate.
  destruct (forallb _ _); [ | discriminate]. injection Hsearch as <-.
  set (floor := Retrieval.clamp_similarity min_similarity) in *.
  set (rows := Retrieval.pool cosine_similarity names t include_archive (x :: qv)).
  destruct (ranked_spec floor (Retrieval.clamp_limit limit) rows)
    as (_ & _ & Hsorted & Htop).
  exists e, (x :: qv), (Retrieval.ranked floor (Retrieval.clamp_limit limit) rows).
  split; [exact He | ]. split; [exact Hnum | ]. split; [reflexivity | ].
  split; [exact Hsorted | ]. split.
  - intros h _ Hnan. cbn [Retrieval.format_row Retrieval.result_similarity].
    rewrite Hnan. reflexivity.
  - intros label table k o v Hwhere Hk Hv Hnan.
    set (h := hit_of cosine_similarity names label (x :: qv) k o v).
    assert (Hrows : h ∈ rows).
    { unfold rows, Retrieval.pool.
      destruct Hwhere as [[-> ->] | (-> & -> & ->)].
      - destruct include_archive; [apply elem_of_app; left | ];
          apply candidates_elem; assumption.
      - apply elem_of_app. right. apply candidates_elem; assumption. }
    assert (Hsim : Retrieval.similarity h = Retrieval.NaN) by exact Hnan.
    assert (Habove : Retrieval.above floor h = true).
    { unfold Retrieval.above. rewrite Hsim. reflexivity. }
    destruct (Htop h Hrows Habove) as [Hh | Hh]; [left; exact Hh | right].
    intros h' Hin'. specialize (Hh h' Hin'). unfold Retrieval.better in Hh.
    rewrite Hsim in Hh. destruct (Retrieval.similarity h'); [discriminate Hh | reflexivity].
Qed.

(** So the observation of the zero vector is the one result above the
    floor 0.9, which the fox, of similarity 21/29, does not reach. *)
Lemma zero_vector_search :
  Retrieval.api_semantic_search cosine_over_29 ∅ query_answers refused (fun _ => "0")
    zero_tables "fox" None (Some (9 # 10)) false
  = Retrieval.Results "fox" [zero_result] 1 (9 # 10) (Some "ollama").
Proof. vm_compute. reflexivity. Qed.

(** ** Further properties of the ingestion boundary *)

(** What a successful save did, step by step. *)
Lemma save_observation_saved netloc path date_str now_iso (db db' : Host.database)
  (data : Host.message) (observation_id entity_id : Z) (observation_type : string)
  (importance : float) (tags : list string) :
  Host.save_observation netloc path date_str now_iso db data
  = (Host.Saved observation_id entity_id observation_type importance tags, db') ->
  exists db1 row,
    Host.collect_tags (Host.category data) (Host.tags data) = Some tags /\
    Host.get_or_create_entity netloc path db (Host.url data) (Host.title data)
    = Some (entity_id, db1) /\
    observation_id = Host.observations_id_seq db1 /\
    Host.observations db1 !! observation_id = None /\
    importance
    = Host.calculate_importance (Host.capture_type data)
        (String.eqb (Host.capture_type data) "note"
         || String.eqb (Host.capture_type data) "selection") tags /\
    Host.entity_id row = entity_id /\
    Host.observation_index row = Host.next_index db1 entity_id /\
    Host.source_type row = "browser_extension" /\
    Host.importance row = importance /\
    Host.entities db' = Host.entities db1 /\
    Host.observations db' = <[observation_id := row]> (Host.observations db1).
Proof.
  unfold Host.save_observation.
  destruct (Host.collect_tags (Host.category data) (Host.tags data)) as [tags0 | ];
    [ | discriminate].
  destruct (Host.get_or_create_entity netloc path db (Host.url data) (Host.title data))
    as [[eid db1] | ]; [ | discriminate].
  destruct (Host.observations db1 !! Host.observations_id_seq db1) eqn:Hfree; [discriminate | ].
  intros H. injection H as <- <- <- <- <- <-.
  match goal with
  | |- context [<[_ := ?r]> (Host.observations db1)] => exists db1, r
  end.
  cbn [Host.entities Host.observations Host.entity_id Host.observation_index
       Host.source_type Host.importance].
  split; [reflexivity | ]. split; [reflexivity | ]. split; [reflexivity | ].
  split; [exact Hfree | ]. auto 10.
Qed.

(** X13.  A save always scores with the tag bonus, since the tag list
    never lacks ['browser']: a successful save answers 0.5 + 0.2 + 0.1 for a
    note or a selection, 0.5 + 0.1 - 0.1 for a page and 0.5 + 0.1 for any
    other capture, and stores that score. *)
Theorem save_observation_importance netloc path date_str now_iso (db db' : Host.database)
  (data : Host.message) (observation_id entity_id : Z) (observation_type : string)
  (importance : float) (tags : list string) :
  Host.save_observation netloc path date_str now_iso db data
  = (Host.Saved observation_id entity_id observation_type importance tags, db') ->
  importance = capture_importance (Host.capture_type data) /\
  Host.importance <$> (Host.observations db' !! observation_id) = Some importance.
Proof.
  intros H. destruct (save_observation_saved _ _ _ _ _ _ _ _ _ _ _ _ H)
    as (db1 & row & Hc & _ & _ & _ & Himp & _ & _ & _ & Hrow & _ & Hobs).
  split; [ | rewrite Hobs, lookup_insert_eq; cbn; rewrite Hrow; reflexivity].
  destruct (collect_tags_spec _ _ _ Hc) as (Hb & _).
  destruct tags as [ | t tags]; [destruct Hb | ].
  rewrite Himp. unfold Host.calculate_importance, capture_importance.
  change (0 <? Z.of_nat (length (t :: tags))) with true. cbv iota zeta.
  destruct (String.eqb (Host.capture_type data) "note") eqn:Hnote.
  - apply String.eqb_eq in Hnote. rewrite Hnote. vm_compute. reflexivity.
  - destruct (String.eqb (Host.capture_type data) "selection") eqn:Hsel.
    + apply String.eqb_eq in Hsel. rewrite Hsel. vm_compute. reflexivity.
    + cbn [orb]. destruct (String.eqb (Host.capture_type data) "page");
        vm_compute; reflexivity.
Qed.

Lemma save_first_note :
  Host.save_observation (fun _ => "example.org") (fun _ => "/page")
    "January 01, 2025" "2025-01-01T00:00:00" empty_host_db first_note
  = (Host.Saved 1 1 "note" 0.79999999999999993 ["research"; "browser"],
     snd (Host.save_observation (fun _ => "example.org") (fun _ => "/page")
            "January 01, 2025" "2025-01-01T00:00:00" empty_host_db first_note)).
Proof. vm_compute. reflexivity. Qed.

Lemma save_observation_importance_witness :
  (0.79999999999999993%float = capture_importance "note") /\
  Host.importance <$>
    (Host.observations
       (snd (Host.save_observation (fun _ => "example.org") (fun _ => "/page")
               "January 01, 2025" "2025-01-01T00:00:00" empty_host_db first_note)) !! 1)
  = Some 0.79999999999999993%float.
Proof.
  exact (save_observation_importance _ _ _ _ _ _ _ _ _ _ _ _ save_first_note).
Defined.

Lemma find_entity_Some (db : Host.database) (domain : string) (k : Z) :
  Host.find_entity db domain = Some k ->
  exists e, Host.entities db !! k = Some e /\ Host.name e = domain.
Proof.
  unfold Host.find_entity. intros H.
  set (l := List.filter (fun kv : Z * Host.entity => String.eqb (Host.name (snd kv)) domain)
              (map_to_list (Host.entities db))) in *.
  assert (Hl : forall kv, In kv l ->
                 Host.entities db !! fst kv = Some (snd kv) /\ Host.name (snd kv) = domain).
  { intros [k' e] Hin. apply filter_In in Hin. destruct Hin as [Hin Hname].
    rewrite <- list_elem_of_In in Hin. apply elem_of_map_to_list in Hin.
    split; [exact Hin | apply String.eqb_eq, Hname]. }
  destruct l as [ | kv l]; [discriminate H | ].
  cbn in H. injection H as <-. exists (snd kv). apply Hl. left. reflexivity.
Qed.

Lemma find_entity_None (db : Host.database) (domain : string) :
  Host.find_entity db domain = None ->
  forall k e, Host.entities db !! k = Some e -> Host.name e <> domain.
Proof.
  unfold Host.find_entity. intros H k e Hk Hname.
  set (l := List.filter (fun kv : Z * Host.entity => String.eqb (Host.name (snd kv)) domain)
              (map_to_list (Host.entities db))) in *.
  assert (Hin : In (k, e) l).
  { apply filter_In. split.
    - rewrite <- list_elem_of_In. apply elem_of_map_to_list. exact Hk.
    - apply String.eqb_eq. exact Hname. }
  destruct l as [ | kv l]; [destruct Hin | discriminate H].
Qed.

(** The two ways of [get_or_create_entity]: the entity found is counted
    once more, or a new one is stored under a free key. *)
Lemma get_or_create_entity_spec netloc path (db db1 : Host.database) (url title : string)
  (entity_id : Z) :
  Host.get_or_create_entity netloc path db url title = Some (entity_id, db1) ->
  Host.observations db1 = Host.observations db /\
  Host.observations_id_seq db1 = Host.observations_id_seq db /\
  ((exists e, Host.entities db !! entity_id = Some e /\
              Host.name e = Host.domain_of netloc path url /\
              Host.entities db1 = <[entity_id := Host.bump e]> (Host.entities db)) \/
   ((forall k e, Host.entities db !! k = Some e ->
       Host.name e <> Host.domain_of netloc path url) /\
    Host.entities db !! entity_id = None /\
    Host.entities db1
    = <[entity_id := new_entity (Host.domain_of netloc path url) title]> (Host.entities db))).
Proof.
  unfold Host.get_or_create_entity. cbv zeta.
  destruct (Host.find_entity db (Host.domain_of netloc path url)) as [k | ] eqn:Hfind.
  - intros H. injection H as <- <-. cbn. split; [reflexivity | ]. split; [reflexivity | ].
    left. destruct (find_entity_Some _ _ _ Hfind) as (e & Hk & Hname).
    exists e. split; [exact Hk | ]. split; [exact Hname | ].
    apply map_eq. intros i. destruct (decide (k = i)) as [<- | Hne].
    + rewrite lookup_alter_eq, lookup_insert_eq, Hk. reflexivity.
    + rewrite lookup_alter_ne, lookup_insert_ne by exact Hne. reflexivity.
  - destruct (Host.entities db !! Host.entities_id_seq db) eqn:Hfree; [discriminate | ].
    intros H. injection H as <- <-. cbn. split; [reflexivity | ]. split; [reflexivity | ].
    right. split; [apply find_entity_None, Hfind | ]. split; [exact Hfree | reflexivity].
Qed.

(** [next_index] is one more than the largest index of the entity's rows,
    and 1 when the entity has none. *)
Lemma fold_max_spec (x : Z) (l : list Z) :
  (forall y, In y (x :: l) -> y <= fold_right Z.max x l) /\
  In (fold_right Z.max x l) (x :: l).
Proof.
  induction l as [ | z l (IH1 & IH2)].
  - cbn. split; [intros y [<- | []]; lia | left; reflexivity].
  - cbn [fold_right]. split.
    + intros y [<- | [<- | Hy]].
      * specialize (IH1 x (or_introl eq_refl)). lia.
      * lia.
      * specialize (IH1 y (or_intror Hy)). lia.
    + destruct (Z.max_spec z (fold_right Z.max x l)) as [[_ ->] | [_ ->]].
      * destruct IH2 as [<- | Hin]; [left; reflexivity | right; right; exact Hin].
      * right. left. reflexivity.
Qed.

Lemma next_index_spec (db : Host.database) (entity_id : Z) :
  (forall k o, Host.observations db !! k = Some o -> Host.entity_id o = entity_id ->
     Host.observation_index o < Host.next_index db entity_id) /\
  ((Host.next_index db entity_id = 1 /\
    forall k o, Host.observations db !! k = Some o -> Host.entity_id o <> entity_id) \/
   exists k o, Host.observations db !! k = Some o /\ Host.entity_id o = entity_id /\
               Host.observation_index o + 1 = Host.next_index db entity_id).
Proof.
  unfold Host.next_index.
  set (rows := List.filter (fun kv : Z * Host.observation =>
                              Z.eqb (Host.entity_id (snd kv)) entity_id)
                 (map_to_list (Host.observations db))).
  set (l := map (fun kv : Z * Host.observation => Host.observation_index (snd kv)) rows).
  assert (Hrows : forall k o, In (k, o) rows <->
                    Host.observations db !! k = Some o /\ Host.entity_id o = entity_id).
  { intros k o. unfold rows. rewrite filter_In, <- list_elem_of_In, elem_of_map_to_list.
    cbn [snd]. rewrite Z.eqb_eq. reflexivity. }
  assert (Hl : forall k o, Host.observations db !! k = Some o -> Host.entity_id o = entity_id ->
                 In (Host.observation_index o) l).
  { intros k o Hk He. unfold l. apply in_map_iff. exists (k, o).
    split; [reflexivity | ]. apply Hrows. auto. }
  destruct l as [ | x l'] eqn:El.
  - cbn. split.
    + intros k o Hk He. destruct (Hl k o Hk He).
    + left. split; [reflexivity | ]. intros k o Hk He. destruct (Hl k o Hk He).
  - cbn [Host.max_of from_option]. unfold id.
    destruct (fold_max_spec x l') as (H1 & H2). split.
    + intros k o Hk He. specialize (H1 _ (Hl k o Hk He)). lia.
    + right. rewrite <- El in H2. unfold l in H2. apply in_map_iff in H2.
      destruct H2 as ([k o] & Hidx & Hin). apply Hrows in Hin. destruct Hin as [Hk He].
      exists k, o. cbn [snd] in Hidx. split; [exact Hk | ]. split; [exact He | ].
      rewrite Hidx. reflexivity.
Qed.

(** X14.  A successful save files the observation under the entity named
    after the URL's domain, whose count of observations is one more than
    before (1 for a new entity), in a row of a previously unused id whose
    index is above that of every row the entity had; the rows stored before
    stay as they were. *)
Theorem save_observation_filed netloc path date_str now_iso (db db' : Host.database)
  (data : Host.message) (observation_id entity_id : Z) (observation_type : string)
  (importance : float) (tags : list string) :
  Host.save_observation netloc path date_str now_iso db data
  = (Host.Saved observation_id entity_id observation_type importance tags, db') ->
  (exists e, Host.entities db' !! entity_id = Some e /\
             Host.name e = Host.domain_of netloc path (Host.url data) /\
             Host.observation_count e
             = from_option Host.observation_count 0 (Host.entities db !! entity_id) + 1) /\
  Host.observations db !! observation_id = None /\
  exists row,
    Host.observations db' !! observation_id = Some row /\
    Host.entity_id row = entity_id /\
    Host.source_type row = "browser_extension" /\
    forall k o, Host.observations db !! k = Some o ->
      Host.observations db' !! k = Some o /\
      (Host.entity_id o = entity_id -> Host.observation_index o < Host.observation_index row).
Proof.
  intros H. destruct (save_observation_saved _ _ _ _ _ _ _ _ _ _ _ _ H)
    as (db1 & row & _ & Hent & Hid & Hfree & _ & Hrow & Hidx & Hsrc & _ & Hents & Hobs).
  destruct (get_or_create_entity_spec _ _ _ _ _ _ _ Hent) as (Hobs1 & _ & Hcase).
  destruct (next_index_spec db1 entity_id) as (Habove & _).
  rewrite Hobs1 in Hfree. split; [ | split; [exact Hfree | ]].
  - destruct Hcase as [(e & Hk & Hname & He) | (_ & He)].
    + exists (Host.bump e). rewrite Hents, He, lookup_insert_eq, Hk. cbn.
      split; [reflexivity | ]. split; [exact Hname | reflexivity].
    + destruct He as [Hnone He].
      exists (new_entity (Host.domain_of netloc path (Host.url data)) (Host.title data)).
      rewrite Hents, He, lookup_insert_eq, Hnone. cbn. auto.
  - exists row. rewrite Hobs, lookup_insert_eq, Hobs1, Hidx.
    split; [reflexivity | ]. split; [exact Hrow | ]. split; [exact Hsrc | ].
    intros k o Hk. split.
    + rewrite lookup_insert_ne; [exact Hk | ]. intros ->. congruence.
    + intros He. apply (Habove k o); [rewrite Hobs1; exact Hk | exact He].
Qed.

Lemma save_observation_filed_witness :
  Host.observations empty_host_db !! 1 = None /\
  exists row,
    Host.observations
      (snd (Host.save_observation (fun _ => "example.org") (fun _ => "/page")
              "January 01, 2025" "2025-01-01T00:00:00" empty_host_db first_note)) !! 1
    = Some row /\
    Host.entity_id row = 1 /\ Host.source_type row = "browser_extension".
Proof.
  destruct (save_observation_filed _ _ _ _ _ _ _ _ _ _ _ _ save_first_note)
    as (_ & Hfree & row & Hrow & Heid & Hsrc & _).
  split; [exact Hfree | ]. exists row. auto.
Defined.

(** Creating or counting an entity keeps the names distinct. *)
Lemma get_or_create_entity_unique netloc path (db db1 : Host.database) (url title : string)
  (entity_id : Z) :
  unique_names db ->
  Host.get_or_create_entity netloc path db url title = Some (entity_id, db1) ->
  unique_names db1.
Proof.
  intros Huniq Hent. destruct (get_or_create_entity_spec _ _ _ _ _ _ _ Hent) as (_ & _ & Hcase).
  intros k1 k2 e1 e2 H1 H2 Hname.
  destruct Hcase as [(e & Hk & _ & He) | (Hnew & _ & He)]; rewrite He in H1, H2.
  - assert (Hold : forall k x, <[entity_id := Host.bump e]> (Host.entities db) !! k = Some x ->
                     exists y, Host.entities db !! k = Some y /\ Host.name y = Host.name x).
    { intros k x Hx. destruct (decide (entity_id = k)) as [<- | Hne].
      - rewrite lookup_insert_eq in Hx. injection Hx as <-. exists e. auto.
      - rewrite lookup_insert_ne in Hx by exact Hne. exists x. auto. }
    destruct (Hold _ _ H1) as (y1 & Hy1 & Hn1). destruct (Hold _ _ H2) as (y2 & Hy2 & Hn2).
    apply (Huniq k1 k2 y1 y2 Hy1 Hy2). congruence.
  - destruct (decide (entity_id = k1)) as [<- | Hne1];
      destruct (decide (entity_id = k2)) as [<- | Hne2]; [reflexivity | | | ].
    + rewrite lookup_insert_eq in H1. rewrite lookup_insert_ne in H2 by exact Hne2.
      injection H1 as <-. cbn in Hname. exfalso. apply (Hnew k2 e2 H2). congruence.
    + rewrite lookup_insert_eq in H2. rewrite lookup_insert_ne in H1 by exact Hne1.
      injection H2 as <-. cbn in Hname. exfalso. apply (Hnew k1 e1 H1). congruence.
    + rewrite lookup_insert_ne in H1 by exact Hne1.
      rewrite lookup_insert_ne in H2 by exact Hne2. apply (Huniq k1 k2 e1 e2 H1 H2 Hname).
Qed.

(** X15.  Two captures from one site end under one entity: when the names
    of the entities are distinct and a second save follows a first one for a
    URL of the same domain, both successful, the second answers the entity
    of the first, counts one observation more on it, and gives its row the
    index that follows the first row's. *)
Theorem save_observation_same_site netloc path date_str now_iso
  (db db1 db2 : Host.database) (first second : Host.message)
  (id1 id2 entity1 entity2 : Z) (type1 type2 : string) (importance1 importance2 : float)
  (tags1 tags2 : list string) :
  unique_names db ->
  Host.save_observation netloc path date_str now_iso db first
  = (Host.Saved id1 entity1 type1 importance1 tags1, db1) ->
  Host.save_observation netloc path date_str now_iso db1 second
  = (Host.Saved id2 entity2 type2 importance2 tags2, db2) ->
  Host.domain_of netloc path (Host.url second) = Host.domain_of netloc path (Host.url first) ->
  entity2 = entity1 /\
  Host.observation_index <$> (Host.observations db2 !! id2)
  = Z.succ <$> (Host.observation_index <$> (Host.observations db1 !! id1)) /\
  Host.observation_count <$> (Host.entities db2 !! entity1)
  = Z.succ <$> (Host.observation_count <$> (Host.entities db1 !! entity1)).
Proof.
  intros Huniq Hsave1 Hsave2 Hsite.
  destruct (save_observation_saved _ _ _ _ _ _ _ _ _ _ _ _ Hsave1)
    as (dbA & row1 & _ & HentA & _ & HfreeA & _ & Hrow1 & Hidx1 & _ & _ & HentsA & HobsA).
  destruct (save_observation_saved _ _ _ _ _ _ _ _ _ _ _ _ Hsave2)
    as (dbB & row2 & _ & HentB & _ & HfreeB & _ & Hrow2 & Hidx2 & _ & _ & HentsB & HobsB).
  pose proof (get_or_create_entity_unique _ _ _ _ _ _ _ Huniq HentA) as HuniqA.
  destruct (get_or_create_entity_spec _ _ _ _ _ _ _ HentA) as (_ & _ & HcaseA).
  destruct (get_or_create_entity_spec _ _ _ _ _ _ _ HentB) as (HobsB1 & _ & HcaseB).
  assert (Hhere : exists eA, Host.entities db1 !! entity1 = Some eA /\
                    Host.name eA = Host.domain_of netloc path (Host.url first)).
  { rewrite HentsA. destruct HcaseA as [(e & _ & Hname & ->) | (_ & _ & ->)];
      rewrite lookup_insert_eq; eexists; split; try reflexivity. exact Hname. }
  destruct Hhere as (eA & HeA & HnameA).
  destruct HcaseB as [(e & Hk & Hname & He) | (Hnew & _)];
    [ | exfalso; apply (Hnew entity1 eA HeA); congruence].
  assert (Hsame : entity2 = entity1).
  { assert (HuniqB : unique_names db1) by (unfold unique_names; rewrite HentsA; exact HuniqA).
    apply (HuniqB entity2 entity1 e eA Hk HeA). congruence. }
  split; [exact Hsame | ]. rewrite Hsame in Hrow2, Hidx2, Hk, He. split.
  - rewrite HobsB, lookup_insert_eq, HobsA, lookup_insert_eq. cbn. f_equal.
    rewrite Hidx1, Hidx2.
    destruct (next_index_spec dbA entity1) as (HaboveA & _).
    destruct (next_index_spec dbB entity1) as (HaboveB & HlastB).
    rewrite HobsB1, HobsA in HaboveB, HlastB.
    assert (Hlt : Host.next_index dbA entity1 < Host.next_index dbB entity1).
    { rewrite <- Hidx1. apply (HaboveB id1 row1); [apply lookup_insert_eq | exact Hrow1]. }
    destruct HlastB as [(_ & Hnone) | (k & o & Hk' & He' & Hlast)];
      [exfalso; apply (Hnone id1 row1); [apply lookup_insert_eq | exact Hrow1] | ].
    destruct (decide (id1 = k)) as [<- | Hne].
    + rewrite lookup_insert_eq in Hk'. injection Hk' as <-. lia.
    + rewrite lookup_insert_ne in Hk' by exact Hne.
      specialize (HaboveA k o Hk' He'). lia.
  - rewrite HentsB, He, lookup_insert_eq, HeA in *. injection Hk as ->. reflexivity.
Qed.

Lemma save_second_note :
  Host.save_observation (fun _ => "example.org") (fun _ => "/page")
    "January 01, 2025" "2025-01-01T00:00:00"
    (snd (Host.save_observation (fun _ => "example.org") (fun _ => "/page")
            "January 01, 2025" "2025-01-01T00:00:00" empty_host_db first_note))
    second_note
  = (Host.Saved 2 1 "page_capture" 0.5 ["later"; "browser"],
     snd (Host.save_observation (fun _ => "example.org") (fun _ => "/page")
            "January 01, 2025" "2025-01-01T00:00:00"
            (snd (Host.save_observation (fun _ => "example.org") (fun _ => "/page")
                    "January 01, 2025" "2025-01-01T00:00:00" empty_host_db first_note))
            second_note)).
Proof. vm_compute. reflexivity. Qed.

Lemma save_observation_same_site_witness :
  unique_names empty_host_db /\ 1 = 1 /\
  Host.observation_index <$>
    (Host.observations
       (snd (Host.save_observation (fun _ => "example.org") (fun _ => "/page")
               "January 01, 2025" "2025-01-01T00:00:00"
               (snd (Host.save_observation (fun _ => "example.org") (fun _ => "/page")
                       "January 01, 2025" "2025-01-01T00:00:00" empty_host_db first_note))
               second_note)) !! 2)
  = Z.succ <$>
      (Host.observation_index <$>
         (Host.observations
            (snd (Host.save_observation (fun _ => "example.org") (fun _ => "/page")
                    "January 01, 2025" "2025-01-01T00:00:00" empty_host_db first_note)) !! 1)).
Proof.
  assert (Huniq : unique_names empty_host_db).
  { intros k1 k2 e1 e2 H1. cbn in H1. rewrite lookup_empty in H1. discriminate H1. }
  split; [exact Huniq | ].
  destruct (save_observation_same_site _ _ _ _ _ _ _ _ _ _ _ _ _ _ _ _ _ _ _
              Huniq save_first_note save_second_note eq_refl) as (H1 & H2 & _).
  split; [exact H1 | exact H2].
Defined.

(** ** Further properties of the classifier *)

(** The scan for the best score keeps the first entry with the largest one. *)
Lemma fold_best (others : list (string * nat)) :
  forall (before : list (string * nat)) (best : string * nat) (after : list (string * nat)),
  (forall x, In x before -> (snd x < snd best)%nat) ->
  (forall x, In x after -> (snd x <= snd best)%nat) ->
  exists before' e after',
    (before ++ best :: after ++ others)%list = (before' ++ e :: after')%list /\
    fold_left (fun best entry => if (snd best <? snd entry)%nat then entry else best)
      others best = e /\
    (forall x, In x before' -> (snd x < snd e)%nat) /\
    (forall x, In x after' -> (snd x <= snd e)%nat).
Proof.
  induction others as [ | y others IH]; intros before best after Hb Ha.
  - exists before, best, after. rewrite app_nil_r. auto.
  - cbn [fold_left]. destruct (snd best <? snd y)%nat eqn:E.
    + apply Nat.ltb_lt in E.
      destruct (IH (before ++ best :: after)%list y []) as (b' & e & a' & Heq & Hfold & Hb' & Ha').
      * intros x Hx. apply in_app_or in Hx. destruct Hx as [Hx | [<- | Hx]].
        -- specialize (Hb x Hx). lia.
        -- exact E.
        -- specialize (Ha x Hx). lia.
      * intros x [].
      * exists b', e, a'. split; [ | auto].
        rewrite <- Heq. rewrite <- app_assoc. reflexivity.
    + apply Nat.ltb_ge in E.
      destruct (IH before best (after ++ [y])%list Hb) as (b' & e & a' & Heq & Hfold & Hb' & Ha').
      * intros x Hx. apply in_app_or in Hx. destruct Hx as [Hx | [<- | []]]; [auto | exact E].
      * exists b', e, a'. split; [ | auto].
        rewrite <- Heq. rewrite <- app_assoc. reflexivity.
Qed.

(** An entry of a filtered list, found again in the list. *)
Lemma filter_eq_app {A : Type} (p : A -> bool) (l : list A) :
  forall (b : list A) (e : A) (a : list A),
  List.filter p l = (b ++ e :: a)%list ->
  exists b' a', l = (b' ++ e :: a')%list /\ List.filter p b' = b /\ List.filter p a' = a /\
                p e = true.
Proof.
  induction l as [ | x l IH]; intros b e a H.
  - destruct b; discriminate H.
  - cbn [List.filter] in H. destruct (p x) eqn:E.
    + destruct b as [ | x0 b].
      * cbn in H. injection H as <- <-. exists [], l. auto.
      * cbn in H. injection H as <- H. destruct (IH b e a H) as (b' & a' & -> & Hb & Ha & He).
        exists (x :: b'), a'. cbn [List.filter]. rewrite E, Hb. auto.
    + destruct (IH b e a H) as (b' & a' & -> & Hb & Ha & He).
      exists (x :: b'), a'. cbn [List.filter]. rewrite E. auto.
Qed.

(** X16.  The type inferred for a text is ['note'] when no pattern of any
    type matches it; otherwise it is the type of the table whose patterns
    match most often, the first such type in the order of the table: its
    count is positive, above that of every type before it and not below
    that of any type after it. *)
Theorem infer_observation_type_first_best (text : string) :
  (Backfill.infer_observation_type text = "note" /\
   forall entry, In entry Backfill.TYPE_PATTERNS ->
     Backfill.type_score (Text.lower text) (snd entry) = O) \/
  exists before patterns after,
    Backfill.TYPE_PATTERNS
    = (before ++ (Backfill.infer_observation_type text, patterns) :: after)%list /\
    (0 < Backfill.type_score (Text.lower text) patterns)%nat /\
    (forall entry, In entry before ->
       (Backfill.type_score (Text.lower text) (snd entry)
        < Backfill.type_score (Text.lower text) patterns)%nat) /\
    (forall entry, In entry after ->
       (Backfill.type_score (Text.lower text) (snd entry)
        <= Backfill.type_score (Text.lower text) patterns)%nat).
Proof.
  unfold Backfill.infer_observation_type, Backfill.type_scores. cbv zeta.
  set (score := fun entry : string * list string =>
                  (fst entry, Backfill.type_score (Text.lower text) (snd entry))).
  set (positive := fun entry : string * nat => (0 <? snd entry)%nat).
  generalize Backfill.TYPE_PATTERNS. intros table.
  destruct (List.filter positive (map score table)) as [ | first others] eqn:Hf.
  - left. split; [reflexivity | ]. intros entry Hin.
    assert (Hm : In (score entry) (map score table)) by (apply in_map, Hin).
    destruct (positive (score entry)) eqn:Hp.
    + assert (Hin' : In (score entry) (List.filter positive (map score table)))
        by (apply filter_In; auto).
      rewrite Hf in Hin'. destruct Hin'.
    + unfold positive, score in Hp. cbn [snd] in Hp. apply Nat.ltb_ge in Hp. lia.
  - right. unfold Backfill.max_by_score.
    destruct (fold_best others [] first []) as (b & e & a & Heq & Hfold & Hb & Ha);
      [intros x [] | intros x [] | ].
    cbn [app] in Heq. rewrite Hfold. clear Hfold. rewrite Heq in Hf.
    destruct (filter_eq_app positive _ _ _ _ Hf) as (b' & a' & Hmap & Hfb & Hfa & Hpos).
    apply map_eq_app in Hmap. destruct Hmap as (b0 & rest & -> & Hb0 & Hrest).
    apply map_eq_cons in Hrest. destruct Hrest as ([name patterns] & a0 & -> & He & Ha0).
    subst e b' a'. cbn [score fst snd] in *.
    unfold positive, score in Hpos. cbn [snd] in Hpos. apply Nat.ltb_lt in Hpos.
    exists b0, patterns, a0. split; [reflexivity | ]. split; [exact Hpos | ]. split.
    + intros entry Hin.
      destruct (positive (score entry)) eqn:Hp.
      * apply (Hb (score entry)). rewrite <- Hfb. apply filter_In. split; [ | exact Hp].
        apply in_map, Hin.
      * unfold positive, score in Hp. cbn [snd] in Hp. apply Nat.ltb_ge in Hp. lia.
    + intros entry Hin.
      destruct (positive (score entry)) eqn:Hp.
      * apply (Ha (score entry)). rewrite <- Hfa. apply filter_In. split; [ | exact Hp].
        apply in_map, Hin.
      * unfold positive, score in Hp. cbn [snd] in Hp. apply Nat.ltb_ge in Hp. lia.
Qed.

(** ** The other handlers of the dashboard *)

Lemma statement_ok (c : Store.connection) :
  Store.faults c = None -> Store.statement c = (Store.Ok tt, c).
Proof. intros H. unfold Store.statement. rewrite H. reflexivity. Qed.

Lemma select_row_run (table : Store.tables -> gmap Z Store.observation) (obs_id : Z)
  (c : Store.connection) :
  match Dashboard.select_row table obs_id c with
  | (Store.Ok row, c') =>
      row = table (Store.working c) !! obs_id /\
      Store.committed c' = Store.committed c /\ Store.working c' = Store.working c
  | (Store.Raise, c') => Store.committed c' = Store.committed c
  end.
Proof.
  unfold Dashboard.select_row, Store.bind.
  pose proof (statement_run c) as Hs.
  destruct (Store.statement c) as [[[] | ] c1]; destruct Hs as (Hc & Hw & _); [ | exact Hc].
  rewrite Hw. auto.
Qed.

Lemma delete_archived_run (c : Store.connection) (obs_id : Z) :
  match Dashboard.delete_archived obs_id c with
  | (Store.Ok _, c') =>
      Store.committed c' = Store.committed c /\
      Store.observations (Store.working c') = Store.observations (Store.working c) /\
      Store.observations_archive (Store.working c')
      = delete obs_id (Store.observations_archive (Store.working c))
  | (Store.Raise, c') => Store.committed c' = Store.committed c
  end.
Proof.
  unfold Dashboard.delete_archived, Store.bind.
  pose proof (statement_run c) as Hs.
  destruct (Store.statement c) as [[[] | ] c1]; destruct Hs as (Hc & Hw & _); [ | exact Hc].
  cbn. rewrite Hw. auto.
Qed.

(** X17.  A deletion removes one row or nothing.  On a connection without
    open changes, an answer [Deleted] names the table that held the id,
    the active one first, and leaves, committed, that table without the row
    and the other table as it was, so that an id held by both tables keeps
    its archived row; an answer 404 and a run that raises leave the
    committed tables as they were. *)
Theorem api_delete_observation_one_row (obs_id : Z) (c : Store.connection) :
  Store.working c = Store.committed c ->
  match Dashboard.api_delete_observation obs_id c with
  | (Store.Ok (Dashboard.Deleted deleted_id source), c') =>
      deleted_id = obs_id /\ deleted_from (Store.close c) (Store.close c') obs_id source
  | (Store.Ok Dashboard.DeleteNotFound, c') =>
      Store.close c' = Store.close c /\
      Store.observations (Store.close c) !! obs_id = None /\
      Store.observations_archive (Store.close c) !! obs_id = None
  | (Store.Raise, c') => Store.close c' = Store.close c
  end.
Proof.
  intros Hclean. unfold Dashboard.api_delete_observation, Store.close.
  unfold Store.bind at 1.
  pose proof (select_row_run Store.observations obs_id c) as H1.
  destruct (Dashboard.select_row Store.observations obs_id c) as [[active | ] c1];
    [ | exact H1].
  destruct H1 as (Hrow1 & Hc1 & Hw1). rewrite Hclean in Hrow1.
  destruct active as [o | ].
  - unfold Store.bind at 1. pose proof (delete_observation_run c1 obs_id) as H2.
    destruct (Store.delete_observation obs_id c1) as [[[] | ] c2]; [ | congruence].
    destruct H2 as (Hc2 & _ & Hobs2 & Harch2).
    unfold Store.bind at 1. pose proof (commit_run c2) as H3.
    destruct (Store.commit c2) as [[[] | ] c3]; [ | destruct H3; congruence].
    destruct H3 as (Hc3 & _). cbn [Store.ret]. split; [reflexivity | left].
    rewrite Hc3, Hobs2, Harch2, Hw1, Hclean, <- Hrow1. auto.
  - unfold Store.bind at 1.
    pose proof (select_row_run Store.observations_archive obs_id c1) as H2.
    destruct (Dashboard.select_row Store.observations_archive obs_id c1) as [[archived | ] c2];
      [ | congruence].
    destruct H2 as (Hrow2 & Hc2 & Hw2). rewrite Hw1, Hclean in Hrow2.
    destruct archived as [o | ].
    + unfold Store.bind at 1. pose proof (delete_archived_run c2 obs_id) as H3.
      destruct (Dashboard.delete_archived obs_id c2) as [[[] | ] c3]; [ | congruence].
      destruct H3 as (Hc3 & Hobs3 & Harch3).
      unfold Store.bind at 1. pose proof (commit_run c3) as H4.
      destruct (Store.commit c3) as [[[] | ] c4]; [ | destruct H4; congruence].
      destruct H4 as (Hc4 & _). cbn [Store.ret]. split; [reflexivity | right].
      rewrite Hc4, Hobs3, Harch3, Hw2, Hw1, Hclean, <- Hrow2. auto 10.
    + cbn [Store.ret]. split; [congruence | auto].
Qed.

Lemma api_delete_observation_one_row_witness :
  match Dashboard.api_delete_observation 3 twice_store with
  | (Store.Ok (Dashboard.Deleted deleted_id source), c') =>
      deleted_id = 3 /\ deleted_from (Store.close twice_store) (Store.close c') 3 source
  | (Store.Ok Dashboard.DeleteNotFound, c') =>
      Store.close c' = Store.close twice_store /\
      Store.observations (Store.close twice_store) !! 3 = None /\
      Store.observations_archive (Store.close twice_store) !! 3 = None
  | (Store.Raise, c') => Store.close c' = Store.close twice_store
  end.
Proof. apply api_delete_observation_one_row. reflexivity. Defined.

(** X18.  A chunked observation stays retrievable.  After a chunking that
    stored chunks, on a connection to the tables it left, the detail of the
    original's id is the original row, found in the archive, and the detail
    of every new id is a row of source ['chunked'] of the same entity. *)
Theorem chunked_observation_detail (names : gmap Z string) (c c' reader : Store.connection)
  (obs_id : Z) (obs_text : string) (entity_id max_index : Z) (orig : Store.observation)
  (new_ids : list Z) :
  Store.observations (Store.working c) !! obs_id = Some orig ->
  Store.chunk_long_observation obs_id obs_text entity_id max_index c = (Store.Ok new_ids, c') ->
  new_ids <> [] ->
  Store.working reader = Store.close c' ->
  Store.faults reader = None ->
  fst (Dashboard.api_observation_detail names obs_id reader)
  = Store.Ok (Dashboard.Detail obs_id orig (names !! Store.entity_id orig)) /\
  forall new_id, new_id ∈ new_ids ->
    exists row,
      fst (Dashboard.api_observation_detail names new_id reader)
      = Store.Ok (Dashboard.Detail new_id row (names !! entity_id)) /\
      Store.source_type row = "chunked" /\ Store.entity_id row = entity_id.
Proof.
  intros Horig Hrun Hids Hreader Hfaults.
  pose proof (chunk_long_observation_run c obs_id obs_text entity_id max_index orig Horig) as H.
  cbv zeta in H. rewrite Hrun in H.
  destruct (length (Chunker.smart_chunk_text obs_text Chunker.MAX_CHUNK_SIZE) <=? 1)%nat;
    [destruct H as [-> _]; congruence | ].
  destruct H as (_ & Hcommit & Harch & Hgone & _ & _ & Hnew).
  unfold Store.close in Hreader. rewrite Hcommit in Hreader.
  assert (Hdetail : forall k, Dashboard.api_observation_detail names k reader
            = (Store.Ok
                 match Store.observations (Store.working c') !! k with
                 | Some o => Dashboard.Detail k o (names !! Store.entity_id o)
                 | None =>
                     match Store.observations_archive (Store.working c') !! k with
                     | Some o => Dashboard.Detail k o (names !! Store.entity_id o)
                     | None => Dashboard.DetailNotFound
                     end
                 end, reader)).
  { intros k. unfold Dashboard.api_observation_detail, Dashboard.select_row, Store.bind.
    rewrite (statement_ok _ Hfaults), Hreader.
    destruct (Store.observations (Store.working c') !! k) as [o | ]; cbn [Store.ret].
    - reflexivity.
    - rewrite (statement_ok _ Hfaults), Hreader.
      destruct (Store.observations_archive (Store.working c') !! k); reflexivity. }
  split.
  - rewrite Hdetail, Hgone, Harch. reflexivity.
  - intros new_id Hin. apply list_elem_of_lookup in Hin. destruct Hin as [j Hj].
    destruct (Hnew j new_id Hj) as (text & _ & Hrow).
    eexists. rewrite Hdetail, Hrow. cbn. auto.
Qed.

Lemma chunked_observation_detail_witness :
  fst (Dashboard.api_observation_detail ∅ 7
         (snd (Store.chunk_long_observation 7 long_log 1 3 log_store)))
  = Store.Ok (Dashboard.Detail 7 log_row None).
Proof.
  refine (proj1 (chunked_observation_detail ∅ log_store
                   (snd (Store.chunk_long_observation 7 long_log 1 3 log_store))
                   (snd (Store.chunk_long_observation 7 long_log 1 3 log_store))
                   7 long_log 1 3 log_row [8; 9] eq_refl _ _ _ _)).
  - vm_compute. reflexivity.
  - discriminate.
  - vm_compute. reflexivity.
  - vm_compute. reflexivity.
Defined.

Lemma no_vector_false (number_text : Q -> string) (row : option Store.observation) :
  Dashboard.no_vector number_text row = false ->
  exists o v, row = Some o /\ Store.embedding o = Some v.
Proof.
  unfold Dashboard.no_vector. destruct row as [o | ]; [ | discriminate].
  destruct (Store.embedding o) as [v | ] eqn:Hv; [ | discriminate].
  intros _. exists o, v. auto.
Qed.

(** The rows of a table with a vector, as the queries ordered by distance
    see them. *)
Lemma neighbours_inv cosine_distance cosine_similarity (names : gmap Z string)
  (table : gmap Z Store.observation) (q : Store.vector) (n : Neighbours.neighbour) :
  n ∈ Neighbours.neighbours cosine_distance cosine_similarity names table q ->
  exists (o : Store.observation) (v : Store.vector),
    table !! Retrieval.hit_id (Neighbours.near n) = Some o /\ Store.embedding o = Some v /\
    Neighbours.distance n = cosine_distance q v /\
    Neighbours.near n
    = hit_of cosine_similarity names "active" q (Retrieval.hit_id (Neighbours.near n)) o v.
Proof.
  unfold Neighbours.neighbours. intros Hin.
  apply list_elem_of_omap in Hin. destruct Hin as ([k o] & Hkv & Hn).
  apply elem_of_map_to_list in Hkv. cbn [fst snd] in Hn.
  destruct (Store.embedding o) as [v | ] eqn:Hv; [ | discriminate].
  injection Hn as <-. exists o, v. auto.
Qed.

Lemma select_similar_run cosine_distance cosine_similarity (names : gmap Z string)
  (reached : Store.vector -> Z -> bool) (obs_id : Z) (v : Store.vector) (limit : Z)
  (c : Store.connection) :
  match Dashboard.select_similar cosine_distance cosine_similarity names reached obs_id v
          limit c with
  | (Store.Ok results, c') =>
      Store.committed c' = Store.committed c /\
      (length results <= Z.to_nat limit)%nat /\
      StronglySorted Neighbours.nearer results /\
      forall n, n ∈ results ->
        Retrieval.hit_id (Neighbours.near n) <> obs_id /\
        n ∈ Neighbours.neighbours cosine_distance cosine_similarity names
              (Store.observations (Store.working c)) v
  | (Store.Raise, c') => Store.committed c' = Store.committed c
  end.
Proof.
  unfold Dashboard.select_similar, Store.bind.
  pose proof (statement_run c) as Hs.
  destruct (Store.statement c) as [[[] | ] c1]; destruct Hs as (Hc & Hw & _); [ | exact Hc].
  cbv zeta. rewrite Hw.
  set (rows := Dashboard.others cosine_distance cosine_similarity names (Store.working c)
                 obs_id v).
  destruct (forallb (Neighbours.same_dimension v) rows); [ | exact Hc].
  match goal with
  | |- context [take _ ?l] => set (sorted := l)
  end.
  assert (Hperm : sorted ≡ₚ List.filter (fun n => reached v
                                  (Retrieval.hit_id (Neighbours.near n))) rows)
    by apply merge_sort_Permutation.
  split; [exact Hc | ]. split; [rewrite length_take; lia | ]. split.
  - assert (Hsorted : StronglySorted Neighbours.nearer
                        (take (Z.to_nat limit) sorted ++ drop (Z.to_nat limit) sorted)%list).
    { rewrite take_drop. apply StronglySorted_merge_sort; apply _. }
    apply (StronglySorted_app_1_l _ _ _ Hsorted).
  - intros n Hn. apply (subseteq_take (Z.to_nat limit)) in Hn.
    rewrite Hperm in Hn. rewrite list_elem_of_In in Hn.
    apply filter_In in Hn. destruct Hn as [Hn _].
    unfold rows, Dashboard.others in Hn.
    apply filter_In in Hn. destruct Hn as [Hin Hne]. rewrite <- list_elem_of_In in Hin.
    split; [ | exact Hin]. intros Heq. rewrite Heq, Z.eqb_refl in Hne. discriminate Hne.
Qed.

(** X19.  The neighbours of an observation never include it.  An answer
    with results comes only for an observation that holds a vector, active
    or archived; it changes nothing; it has at most [limit] rows, a limit
    within 1..100; the rows render, without their vectors, active
    observations with a vector whose id is not the one asked about, in the
    order the store gives to their distances from the vector of the
    observation asked about: ascending, a distance that is no number
    last. *)
Theorem api_find_similar_neighbours cosine_distance cosine_similarity (names : gmap Z string)
  (number_text : Q -> string) (reached : Store.vector -> Z -> bool) (obs_id : Z)
  (limit : option Z) (c c' : Store.connection)
  (source_id : Z) (results : list Dashboard.similar_row) (count : Z) :
  Dashboard.api_find_similar cosine_distance cosine_similarity names number_text reached
    obs_id limit c
  = (Store.Ok (Dashboard.Similar source_id results count), c') ->
  source_id = obs_id /\
  Store.close c' = Store.close c /\
  has_source_vector (Store.working c) obs_id /\
  count = Z.of_nat (length results) /\
  count <= Dashboard.clamp_similar_limit limit <= 100 /\
  (exists (o : Store.observation) (v : Store.vector) (hits : list Neighbours.neighbour),
     (Store.observations (Store.working c) !! obs_id = Some o \/
      Store.observations_archive (Store.working c) !! obs_id = Some o) /\
     Store.embedding o = Some v /\
     results = map (fun n => Dashboard.format_similar number_text (Neighbours.near n)) hits /\
     StronglySorted Neighbours.nearer hits /\
     forall n, n ∈ hits ->
       n ∈ Neighbours.neighbours cosine_distance cosine_similarity names
             (Store.observations (Store.working c)) v) /\
  forall r, r ∈ results -> neighbour_of (Store.working c) obs_id r.
Proof.
  unfold Dashboard.api_find_similar, Store.close. cbv zeta.
  unfold Store.bind at 1.
  pose proof (select_row_run Store.observations obs_id c) as H1.
  destruct (Dashboard.select_row Store.observations obs_id c) as [[row1 | ] c1];
    [ | discriminate].
  destruct H1 as (Hrow1 & Hc1 & Hw1).
  unfold Store.bind at 1.
  assert (Hsecond : match (if Dashboard.no_vector number_text row1
                           then Dashboard.select_row Store.observations_archive obs_id
                           else Store.ret row1) c1 with
                    | (Store.Ok row, c2) =>
                        Store.committed c2 = Store.committed c /\
                        Store.working c2 = Store.working c /\
                        (row = Store.observations (Store.working c) !! obs_id \/
                         row = Store.observations_archive (Store.working c) !! obs_id)
                    | (Store.Raise, _) => True
                    end).
  { destruct (Dashboard.no_vector number_text row1).
    - pose proof (select_row_run Store.observations_archive obs_id c1) as H2.
      destruct (Dashboard.select_row Store.observations_archive obs_id c1) as [[row | ] c2];
        [ | exact I].
      destruct H2 as (Hrow2 & Hc2 & Hw2). rewrite Hw1 in Hrow2.
      split; [congruence | ]. split; [congruence | right; exact Hrow2].
    - cbn [Store.ret]. auto. }
  destruct ((if Dashboard.no_vector number_text row1
             then Dashboard.select_row Store.observations_archive obs_id
             else Store.ret row1) c1) as [[row | ] c2]; [ | discriminate].
  destruct Hsecond as (Hc2 & Hw2 & Hrow).
  destruct (Dashboard.no_vector number_text row) eqn:Hvec; [discriminate | ].
  destruct (no_vector_false _ _ Hvec) as (o & v & -> & Hv). rewrite Hv.
  unfold Store.bind at 1.
  pose proof (select_similar_run cosine_distance cosine_similarity names reached obs_id v
                (Dashboard.clamp_similar_limit limit) c2) as H3.
  destruct (Dashboard.select_similar cosine_distance cosine_similarity names reached obs_id v
              (Dashboard.clamp_similar_limit limit) c2) as [[hits | ] c3]; [ | discriminate].
  destruct H3 as (Hc3 & Hlen & Hsorted & Hhits). rewrite Hw2 in Hhits.
  cbn [Store.ret]. intros H. injection H as <- <- <- <-.
  assert (Hsource : Store.observations (Store.working c) !! obs_id = Some o \/
                    Store.observations_archive (Store.working c) !! obs_id = Some o).
  { destruct Hrow as [Hrow | Hrow]; auto. }
  split; [reflexivity | ]. split; [congruence | ].
  split; [exists o, v; split; [exact Hsource | exact Hv] | ].
  rewrite length_map. split; [reflexivity | ].
  split; [unfold Dashboard.clamp_similar_limit in *; lia | ].
  split.
  { exists o, v, hits. split; [exact Hsource | ]. split; [exact Hv | ].
    split; [reflexivity | ]. split; [exact Hsorted | ]. intros n Hn. apply (Hhits n Hn). }
  intros r Hr. apply list_elem_of_fmap in Hr. destruct Hr as (n & -> & Hn).
  destruct (Hhits n Hn) as [Hne Hcand].
  destruct (neighbours_inv _ _ _ _ _ _ Hcand) as (o' & v' & Hk & Hv' & _ & Heq).
  split; [exact Hne | ]. split.
  - cbn [Dashboard.format_similar Dashboard.similar_embedding].
    destruct (Store.embedding (Retrieval.hit_row (Neighbours.near n))); reflexivity.
  - exists o', v'. cbn [Dashboard.format_similar Dashboard.similar_id Dashboard.similar_text
                        Dashboard.similar_entity_id].
    rewrite Heq. cbn. auto.
Qed.

Lemma find_similar_fox :
  Dashboard.api_find_similar distance_between_29 cosine_between_29 ∅ (fun _ => "0")
    (fun _ _ => true) 3 None zero_store
  = (Store.Ok (Dashboard.Similar 3 [fox_similar; zero_similar] 2), zero_store).
Proof. vm_compute. reflexivity. Qed.

Lemma api_find_similar_neighbours_witness :
  has_source_vector zero_tables 3 /\
  forall r, r ∈ [fox_similar; zero_similar] -> neighbour_of zero_tables 3 r.
Proof.
  destruct (api_find_similar_neighbours _ _ _ _ _ _ _ _ _ _ _ _ find_similar_fox)
    as (_ & _ & Hsource & _ & _ & _ & Hrows).
  split; [exact Hsource | exact Hrows].
Defined.

Lemma both_spec (p : bool -> bool) : both p = true -> forall b, p b = true.
Proof.
  unfold both. intros H b. apply andb_prop in H. destruct H as [Ht Hf].
  destruct b; assumption.
Qed.

Lemma add_signals_flags (signals : list string) (text_lower : string) (delta score : float) :
  Backfill.add_signals signals text_lower delta score
  = add_flags (map (fun pattern => Regex.re_search pattern text_lower) signals) delta score.
Proof.
  unfold Backfill.add_signals, add_flags. revert score.
  induction signals as [ | pattern signals IH]; intros score; [reflexivity | ].
  cbn [fold_left map]. apply IH.
Qed.

Lemma sub_signals_flags (signals : list string) (text_lower : string) (delta score : float) :
  Backfill.sub_signals signals text_lower delta score
  = sub_flags (map (fun pattern => Regex.re_search pattern text_lower) signals) delta score.
Proof.
  unfold Backfill.sub_signals, sub_flags. revert score.
  induction signals as [ | pattern signals IH]; intros score; [reflexivity | ].
  cbn [fold_left map]. apply IH.
Qed.

(** The score before clamping is the score of the flags the tests give. *)
Lemma raw_importance_flags (user_entities_env : string) (text : string)
  (entity_name : option string) :
  Backfill.raw_importance user_entities_env text entity_name
  = flag_score
      (map (fun pattern => Regex.re_search pattern (Text.lower text))
         Backfill.HIGH_IMPORTANCE_SIGNALS)
      (map (fun pattern => Regex.re_search pattern (Text.lower text))
         Backfill.MEDIUM_IMPORTANCE_SIGNALS)
      (map (fun pattern => Regex.re_search pattern (Text.lower text))
         Backfill.LOW_IMPORTANCE_SIGNALS)
      (500 <? Text.len text) (200 <? Text.len text)
      match entity_name with
      | Some name =>
          negb (Text.is_empty name)
          && existsb (String.eqb (Text.lower name))
               (Text.split_on "," (Text.lower user_entities_env))
      | None => false
      end.
Proof.
  unfold Backfill.raw_importance, flag_score. cbv zeta.
  rewrite !add_signals_flags, sub_signals_flags.
  destruct entity_name; reflexivity.
Qed.

(** Whatever the flags, the clamped score is at least 0.35. *)
Lemma flag_score_floor (h1 h2 h3 h4 m1 m2 m3 l1 l2 l3 long longish entity : bool) :
  PrimFloat.leb 0.35
    (PyFloat.py_max 0.1
       (PyFloat.py_min 1.0
          (flag_score [h1; h2; h3; h4] [m1; m2; m3] [l1; l2; l3] long longish entity)))
  = true.
Proof.
  assert (H : both (fun h1 => both (fun h2 => both (fun h3 => both (fun h4 =>
              both (fun m1 => both (fun m2 => both (fun m3 =>
              both (fun l1 => both (fun l2 => both (fun l3 =>
              both (fun long => both (fun longish => both (fun entity =>
                PrimFloat.leb 0.35
                  (PyFloat.py_max 0.1
                     (PyFloat.py_min 1.0
                        (flag_score [h1; h2; h3; h4] [m1; m2; m3] [l1; l2; l3]
                           long longish entity)))
              ))))))))))))) = true) by (vm_compute; reflexivity).
  apply (both_spec _ (both_spec _ (both_spec _ (both_spec _ (both_spec _ (both_spec _
          (both_spec _ (both_spec _ (both_spec _ (both_spec _ (both_spec _ (both_spec _
          (both_spec _ H h1) h2) h3) h4) m1) m2) m3) l1) l2) l3) long) longish) entity).
Qed.

(** X20.  The lower clamp of the backfill's importance is never reached:
    ten signals, two length bonuses and the entity bonus can lower the
    base of 0.5 by three times 0.05 at most, so the score is at least 0.35
    whatever the text, the entity and the environment. *)
Theorem backfill_importance_floor (user_entities_env : string) (text : string)
  (entity_name : option string) :
  PrimFloat.leb 0.35 (Backfill.calculate_importance user_entities_env text entity_name) = true.
Proof.
  unfold Backfill.calculate_importance. rewrite raw_importance_flags.
  unfold Backfill.HIGH_IMPORTANCE_SIGNALS, Backfill.MEDIUM_IMPORTANCE_SIGNALS,
    Backfill.LOW_IMPORTANCE_SIGNALS.
  cbn [map]. apply flag_score_floor.
Qed.

(** ** Search from the command line *)






(** ** Native messaging *)

Lemma byte_value_of (n : Z) : Native.byte_value (Native.byte_of n) = n mod 256.
Proof.
  unfold Native.byte_value, Native.byte_of.
  assert (Hrange : 0 <= n mod 256 < 256) by (apply Z.mod_pos_bound; lia).
  destruct (Byte.of_N (Z.to_N (n mod 256))) as [b | ] eqn:E.
  - apply Byte.to_of_N in E. cbn [default from_option id]. rewrite E. lia.
  - apply Byte.of_N_None_iff in E. lia.
Qed.

(** The four bytes written for a length give the length back. *)
Lemma unpack_pack (n : Z) (header : list Byte.byte) :
  Native.pack_length n = Some header ->
  Native.unpack_length header = Some n /\ length header = 4%nat.
Proof.
  unfold Native.pack_length.
  destruct ((0 <=? n) && (n <? 2 ^ 32)) eqn:E; [ | discriminate].
  apply andb_prop in E. destruct E as [H0 H1].
  apply Z.leb_le in H0. apply Z.ltb_lt in H1.
  intros H. injection H as <-. split; [ | reflexivity].
  cbn [Native.unpack_length]. rewrite !byte_value_of. f_equal.
  pose proof (Z.div_mod n 256 ltac:(lia)) as E1.
  pose proof (Z.div_mod (n / 256) 256 ltac:(lia)) as E2.
  pose proof (Z.div_mod (n / 256 / 256) 256 ltac:(lia)) as E3.
  assert (H3 : 0 <= n / 256 / 256 / 256 < 256).
  { split.
    - repeat apply Z.div_pos; lia.
    - repeat (apply Z.div_lt_upper_bound; [lia | ]). lia. }
  rewrite (Z.mod_small (n / 256 / 256 / 256) 256 H3). lia.
Qed.

Lemma pack_length_fits (n : Z) :
  0 <= n < 2 ^ 32 -> exists header, Native.pack_length n = Some header.
Proof.
  intros [H0 H1]. unfold Native.pack_length.
  apply Z.leb_le in H0. apply Z.ltb_lt in H1. rewrite H0, H1. eexists. reflexivity.
Qed.

(** X22.  What [send_message] writes, [read_message] reads back: for a
    message other than [null] that the codec restores and whose text has
    1 MiB at most, the frame written is read as the message, and what
    follows the frame is left to be read. *)
Theorem frame_round_trip (loads : list Byte.byte -> option Json.json)
  (dumps : Json.json -> list Byte.byte) (message : Json.json) (rest : list Byte.byte) :
  loads (dumps message) = Some message ->
  message <> Json.JNull ->
  Z.of_nat (length (dumps message)) <= Native.MAX_MESSAGE_SIZE ->
  exists frame,
    Native.send_message dumps message [] = (Native.Returns tt, frame) /\
    Native.read_message loads (frame ++ rest)%list = (Native.Returns (Some message), rest).
Proof.
  intros Hcodec Hnull Hsize. unfold Native.send_message.
  destruct (pack_length_fits (Z.of_nat (length (dumps message)))) as [header Hpack].
  { unfold Native.MAX_MESSAGE_SIZE in Hsize. lia. }
  rewrite Hpack. destruct (unpack_pack _ _ Hpack) as [Hunpack Hlen].
  eexists. split; [reflexivity | ].
  destruct header as [ | b0 [ | b1 [ | b2 [ | b3 [ | ? ?]]]]]; try discriminate Hlen.
  unfold Native.read_message, Native.read. cbn [app take drop].
  rewrite !take_0, !drop_0, Hunpack.
  destruct (Native.MAX_MESSAGE_SIZE <? Z.of_nat (length (dumps message))) eqn:E;
    [apply Z.ltb_lt in E; lia | ].
  rewrite Nat2Z.id, take_app_length, drop_app_length, Hcodec.
  destruct message; congruence.
Qed.

Lemma frame_round_trip_witness :
  exists frame,
    Native.send_message toy_dumps (Json.JObj []) [] = (Native.Returns tt, frame) /\
    Native.read_message toy_loads (frame ++ [Byte.x04])%list
    = (Native.Returns (Some (Json.JObj [])), [Byte.x04]).
Proof.
  apply frame_round_trip.
  - reflexivity.
  - discriminate.
  - vm_compute. discriminate.
Defined.

(** X23.  A frame that announces more than 1 MiB is not skipped and its
    error is not sent: the loop answers it as a message without an action,
    leaves the database alone, and goes on reading right after the four
    bytes of the length, in the body of the frame. *)
Theorem oversized_frame_not_skipped (loads : list Byte.byte -> option Json.json)
  (dumps : Json.json -> list Byte.byte) (py_str : Json.json -> string)
  (error_text : Native.failure -> string) (world : Type)
  (save_observation : Json.json -> world -> Json.json * world)
  (fuel : nat) (p : Native.process world) (announced : Z) (stdout' : list Byte.byte) :
  Native.unpack_length (take 4 (Native.stdin p)) = Some announced ->
  Native.MAX_MESSAGE_SIZE < announced ->
  Native.send_message dumps (Native.unknown_action py_str Json.JNull) (Native.stdout p)
  = (Native.Returns tt, stdout') ->
  Native.read_message loads (Native.stdin p)
  = (Native.Returns (Some Native.size_error), drop 4 (Native.stdin p)) /\
  Native.main loads dumps py_str error_text world save_observation (S fuel) p
  = Native.main loads dumps py_str error_text world save_observation fuel
      {| Native.stdin := drop 4 (Native.stdin p); Native.stdout := stdout';
         Native.state := Native.state p |}.
Proof.
  intros Hunpack Hsize Hsend.
  assert (Hread : Native.read_message loads (Native.stdin p)
                  = (Native.Returns (Some Native.size_error), drop 4 (Native.stdin p))).
  { unfold Native.read_message, Native.read. rewrite Hunpack.
    destruct (take 4 (Native.stdin p)) as [ | b raw]; [discriminate Hunpack | ].
    apply Z.ltb_lt in Hsize. rewrite Hsize. reflexivity. }
  split; [exact Hread | ].
  cbn [Native.main]. rewrite Hread.
  cbn [Native.respond Native.size_error Json.field String.eqb Ascii.eqb Bool.eqb
       default from_option id Json.is_str].
  rewrite Hsend. reflexivity.
Qed.

Lemma oversized_frame_not_skipped_witness :
  toy_main 3 {| Native.stdin := oversized; Native.stdout := []; Native.state := tt |}
  = toy_main 2 {| Native.stdin := [Byte.x7b; Byte.x7d];
                  Native.stdout := [Byte.x01; Byte.x00; Byte.x00; Byte.x00; Byte.x3f];
                  Native.state := tt |}.
Proof.
  refine (proj2 (oversized_frame_not_skipped toy_loads toy_dumps (fun _ => "None")
                   (fun _ => "error") unit (fun data w => (data, w)) 2
                   {| Native.stdin := oversized; Native.stdout := []; Native.state := tt |}
                   2097152 _ _ _ _)).
  - vm_compute. reflexivity.
  - vm_compute. reflexivity.
  - vm_compute. reflexivity.
Defined.

(** X24.  A frame whose text is [null] ends the loop as the end of the
    input does: nothing is answered, and the frames that follow are never
    read. *)
Theorem null_frame_ends_loop (loads : list Byte.byte -> option Json.json)
  (dumps : Json.json -> list Byte.byte) (py_str : Json.json -> string)
  (error_text : Native.failure -> string) (world : Type)
  (save_observation : Json.json -> world -> Json.json * world)
  (fuel : nat) (p : Native.process world) (header body rest : list Byte.byte) :
  Native.stdin p = (header ++ body ++ rest)%list ->
  Native.pack_length (Z.of_nat (length body)) = Some header ->
  Z.of_nat (length body) <= Native.MAX_MESSAGE_SIZE ->
  loads body = Some Json.JNull ->
  Native.main loads dumps py_str error_text world save_observation (S fuel) p
  = Some (Native.EndOfInput,
          {| Native.stdin := rest; Native.stdout := Native.stdout p;
             Native.state := Native.state p |}).
Proof.
  intros Hstdin Hpack Hsize Hnull.
  destruct (unpack_pack _ _ Hpack) as [Hunpack Hlen].
  destruct header as [ | b0 [ | b1 [ | b2 [ | b3 [ | ? ?]]]]]; try discriminate Hlen.
  cbn [Native.main]. unfold Native.read_message, Native.read. rewrite Hstdin.
  cbn [app take drop]. rewrite !take_0, !drop_0, Hunpack.
  destruct (Native.MAX_MESSAGE_SIZE <? Z.of_nat (length body)) eqn:E;
    [apply Z.ltb_lt in E; lia | ].
  rewrite Nat2Z.id, take_app_length, drop_app_length, Hnull. reflexivity.
Qed.

Lemma null_frame_ends_loop_witness :
  toy_main 1 {| Native.stdin := null_then_object; Native.stdout := []; Native.state := tt |}
  = Some (Native.EndOfInput,
          {| Native.stdin := [Byte.x02; Byte.x00; Byte.x00; Byte.x00; Byte.x7b; Byte.x7d];
             Native.stdout := []; Native.state := tt |}).
Proof.
  refine (null_frame_ends_loop toy_loads toy_dumps (fun _ => "None") (fun _ => "error") unit
            (fun data w => (data, w)) 0
            {| Native.stdin := null_then_object; Native.stdout := []; Native.state := tt |}
            [Byte.x04; Byte.x00; Byte.x00; Byte.x00]
            [Byte.x6e; Byte.x75; Byte.x6c; Byte.x6c]
            [Byte.x02; Byte.x00; Byte.x00; Byte.x00; Byte.x7b; Byte.x7d] _ _ _ _).
  - reflexivity.
  - vm_compute. reflexivity.
  - vm_compute. discriminate.
  - reflexivity.
Defined.

(** A read that does not report the end consumes input. *)
Lemma read_message_consumes (loads : list Byte.byte -> option Json.json)
  (stdin : list Byte.byte) :
  match Native.read_message loads stdin with
  | (Native.Returns None, _) => True
  | (_, stdin') => (length stdin' < length stdin)%nat
  end.
Proof.
  unfold Native.read_message, Native.read.
  destruct (take 4 stdin) as [ | b raw] eqn:Hraw; [exact I | ].
  assert (Hlen : (length (drop 4 stdin) < length stdin)%nat).
  { rewrite length_drop. destruct stdin; [discriminate Hraw | cbn; lia]. }
  destruct (Native.unpack_length (b :: raw)) as [n | ]; [ | exact Hlen].
  destruct (Native.MAX_MESSAGE_SIZE <? n); [exact Hlen | ].
  assert (Hlen' : (length (drop (Z.to_nat n) (drop 4 stdin)) < length stdin)%nat)
    by (rewrite length_drop; lia).
  destruct (loads (take (Z.to_nat n) (drop 4 stdin))) as [[ | | | | | ] | ];
    first [exact I | exact Hlen'].
Qed.

Lemma send_message_appends (dumps : Json.json -> list Byte.byte) (message : Json.json)
  (stdout : list Byte.byte) :
  exists written, snd (Native.send_message dumps message stdout) = (stdout ++ written)%list.
Proof.
  unfold Native.send_message.
  destruct (Native.pack_length _) as [header | ]; cbn [snd].
  - eexists. reflexivity.
  - exists []. rewrite app_nil_r. reflexivity.
Qed.

Lemma main_runs (loads : list Byte.byte -> option Json.json)
  (dumps : Json.json -> list Byte.byte) (py_str : Json.json -> string)
  (error_text : Native.failure -> string) (world : Type)
  (save_observation : Json.json -> world -> Json.json * world) (fuel : nat) :
  forall p : Native.process world,
  (length (Native.stdin p) < fuel)%nat ->
  exists e q written,
    Native.main loads dumps py_str error_text world save_observation fuel p = Some (e, q) /\
    Native.stdout q = (Native.stdout p ++ written)%list.
Proof.
  induction fuel as [ | fuel IH]; intros p Hfuel; [lia | ].
  cbn [Native.main].
  assert (Hnext : forall stdin stdout w written,
            (length stdin < length (Native.stdin p))%nat ->
            stdout = (Native.stdout p ++ written)%list ->
            exists e q written',
              Native.main loads dumps py_str error_text world save_observation fuel
                {| Native.stdin := stdin; Native.stdout := stdout; Native.state := w |}
              = Some (e, q) /\
              Native.stdout q = (Native.stdout p ++ written')%list).
  { intros stdin stdout w written Hlen ->.
    destruct (IH {| Native.stdin := stdin; Native.stdout := (Native.stdout p ++ written)%list;
                    Native.state := w |}) as (e & q & written' & Hmain & Hout);
      [cbn; lia | ].
    exists e, q, (written ++ written')%list. split; [exact Hmain | ].
    rewrite Hout. cbn. rewrite app_assoc. reflexivity. }
  assert (Hrecover : forall e stdin stdout w written,
            (length stdin < length (Native.stdin p))%nat ->
            stdout = (Native.stdout p ++ written)%list ->
            exists e' q written',
              match Native.send_message dumps (Native.error_response error_text e) stdout with
              | (Native.Returns _, stdout0) =>
                  Native.main loads dumps py_str error_text world save_observation fuel
                    {| Native.stdin := stdin; Native.stdout := stdout0; Native.state := w |}
              | (Native.Raises _, stdout0) =>
                  Some (Native.Crashed,
                        {| Native.stdin := stdin; Native.stdout := stdout0;
                           Native.state := w |})
              end = Some (e', q) /\
              Native.stdout q = (Native.stdout p ++ written')%list).
  { intros e stdin stdout w written Hlen ->.
    destruct (send_message_appends dumps (Native.error_response error_text e)
                (Native.stdout p ++ written)%list) as [more Hmore].
    destruct (Native.send_message dumps (Native.error_response error_text e)
                (Native.stdout p ++ written)%list) as [[[] | e0] out]; cbn [snd] in Hmore.
    - apply (Hnext stdin out w (written ++ more)%list Hlen).
      rewrite Hmore, app_assoc. reflexivity.
    - eexists _, _, (written ++ more)%list. split; [reflexivity | ].
      cbn. rewrite Hmore, app_assoc. reflexivity. }
  pose proof (read_message_consumes loads (Native.stdin p)) as Hread.
  destruct (Native.read_message loads (Native.stdin p)) as [[[message | ] | e] stdin'].
  - destruct (Native.respond py_str world save_observation message (Native.state p))
      as [[response | e] w].
    + destruct (send_message_appends dumps response (Native.stdout p)) as [more Hmore].
      destruct (Native.send_message dumps response (Native.stdout p)) as [[[] | e] out];
        cbn [snd] in Hmore.
      * apply (Hnext stdin' out w more Hread Hmore).
      * apply (Hrecover e stdin' out w more Hread Hmore).
    + apply (Hrecover e stdin' (Native.stdout p) w [] Hread). rewrite app_nil_r. reflexivity.
  - eexists _, _, []. split; [reflexivity | ]. cbn. rewrite app_nil_r. reflexivity.
  - apply (Hrecover e stdin' (Native.stdout p) (Native.state p) [] Hread).
    rewrite app_nil_r. reflexivity.
Qed.

(** X25.  The main loop ends on every input: each turn that does not end
    it consumes input, so that one turn more than the input has bytes is
    enough; and what has been written is never taken back. *)
Theorem main_terminates (loads : list Byte.byte -> option Json.json)
  (dumps : Json.json -> list Byte.byte) (py_str : Json.json -> string)
  (error_text : Native.failure -> string) (world : Type)
  (save_observation : Json.json -> world -> Json.json * world) (p : Native.process world) :
  exists e q written,
    Native.main loads dumps py_str error_text world save_observation
      (S (length (Native.stdin p))) p = Some (e, q) /\
    Native.stdout q = (Native.stdout p ++ written)%list.
Proof. apply main_runs. lia. Qed.

(** ** The ingestion boundary and the embedding pass together *)

Lemma contains_colon_cons (c : ascii) (d : string) :
  Text.contains ":" (String c d) = false ->
  Ascii.eqb c ":" = false /\ Text.contains ":" d = false.
Proof.
  cbn [Text.contains Text.starts_with]. intros H. apply orb_false_elim in H.
  destruct H as [Hc Hd]. rewrite andb_true_r in Hc. rewrite Ascii.eqb_sym. auto.
Qed.

Lemma upto_colon_app (d rest : string) :
  Text.contains ":" d = false ->
  Store.upto_colon (d ++ String ":" rest) = Some (d ++ ":")%string.
Proof.
  induction d as [ | c d IH]; intros Hd.
  - rewrite !append_empty_l. reflexivity.
  - destruct (contains_colon_cons c d Hd) as [Hc Hd'].
    rewrite !append_cons. cbn [Store.upto_colon]. rewrite Hc, (IH Hd'). reflexivity.
Qed.

(** A text that starts with a colon-free marker and a colon has that
    marker, with its colon, as date prefix. *)
Lemma date_prefix_of_marked (d rest : string) :
  d <> EmptyString -> Text.contains ":" d = false ->
  Store.date_prefix_of (d ++ String ":" rest) = (d ++ ":")%string.
Proof.
  intros Hne Hd. destruct d as [ | c d]; [congruence | ].
  pose proof (upto_colon_app (String c d) rest Hd) as Hup.
  destruct (contains_colon_cons c d Hd) as [Hc _].
  rewrite append_cons in *. unfold Store.date_prefix_of. rewrite Hup.
  destruct c as [[ | ] [ | ] [ | ] [ | ] [ | ] [ | ] [ | ] [ | ]];
    first [reflexivity | discriminate Hc].
Qed.

(** The text a successful save stores starts with the date and a colon. *)
Lemma save_observation_text netloc path date_str now_iso (db db' : Host.database)
  (data : Host.message) (observation_id entity_id : Z) (observation_type : string)
  (importance : float) (tags : list string) :
  Host.save_observation netloc path date_str now_iso db data
  = (Host.Saved observation_id entity_id observation_type importance tags, db') ->
  exists row rest,
    Host.observations db' !! observation_id = Some row /\
    Host.observation_text row = (date_str ++ String ":" rest)%string.
Proof.
  unfold Host.save_observation.
  destruct (Host.collect_tags (Host.category data) (Host.tags data)) as [tags0 | ];
    [ | discriminate].
  destruct (Host.get_or_create_entity netloc path db (Host.url data) (Host.title data))
    as [[eid db1] | ]; [ | discriminate].
  destruct (Host.observations db1 !! Host.observations_id_seq db1) eqn:Hfree; [discriminate | ].
  intros H. injection H as <- <- <- <- <- <-.
  cbn [Host.observations]. rewrite lookup_insert_eq.
  unfold Host.heading.
  destruct (String.eqb (Host.capture_type data) "note");
    [ | destruct (String.eqb (Host.capture_type data) "selection");
        [ | destruct (String.eqb (Host.capture_type data) "page")]];
    (eexists _, _; split; [reflexivity | ];
     cbn [Host.observation_text Text.join]; rewrite append_assoc, append_cons; reflexivity).
Qed.

(** X26.  What the browser host saves, the embedding pass recognises: when
    the rendering of the date is not empty and holds no colon, the date
    prefix [chunk_long_observation] takes from the text of a saved
    observation is that date followed by its colon. *)
Theorem saved_text_date_prefix netloc path date_str now_iso (db db' : Host.database)
  (data : Host.message) (observation_id entity_id : Z) (observation_type : string)
  (importance : float) (tags : list string) :
  date_str <> EmptyString ->
  Text.contains ":" date_str = false ->
  Host.save_observation netloc path date_str now_iso db data
  = (Host.Saved observation_id entity_id observation_type importance tags, db') ->
  exists row,
    Host.observations db' !! observation_id = Some row /\
    Store.date_prefix_of (Host.observation_text row) = (date_str ++ ":")%string.
Proof.
  intros Hne Hcolon Hsave.
  destruct (save_observation_text _ _ _ _ _ _ _ _ _ _ _ _ Hsave) as (row & rest & Hrow & Htext).
  exists row. split; [exact Hrow | ]. rewrite Htext.
  apply date_prefix_of_marked; assumption.
Qed.

Lemma saved_text_date_prefix_witness :
  exists row,
    Host.observations
      (snd (Host.save_observation (fun _ => "example.org") (fun _ => "/page")
              "January 01, 2025" "2025-01-01T00:00:00" empty_host_db first_note)) !! 1
    = Some row /\
    Store.date_prefix_of (Host.observation_text row) = "January 01, 2025:".
Proof.
  apply (saved_text_date_prefix (fun _ => "example.org") (fun _ => "/page")
           "January 01, 2025" "2025-01-01T00:00:00" empty_host_db _ first_note
           1 1 "note" 0.79999999999999993 ["research"; "browser"]).
  - discriminate.
  - reflexivity.
  - exact save_first_note.
Defined.

(** ** The batch size of the embedding pass *)

(** X27.  A batch size of zero stops the pass at its first embedding: when
    the first observation to embed is within the threshold and a provider
    gives an embedding for it, the pass raises, at the update or at the
    remainder by zero that follows it, and the committed tables are as
    before: nothing has been embedded. *)
Theorem embed_observations_batch_zero (ollama lmstudio : string -> Provider.reply)
  (limit : option Z) (c c1 : Store.connection) (obs : Pass.pending)
  (rest : list Pass.pending) (e : Json.json) :
  Pass.select_pending limit c = (Store.Ok (obs :: rest), c1) ->
  Text.len (Pass.pending_text obs) <= Chunker.MAX_CHUNK_SIZE ->
  Pass.get_ollama_embedding ollama lmstudio (Pass.pending_text obs) = Some e ->
  fst (Pass.embed_observations ollama lmstudio limit 0 c) = Store.Raise /\
  Store.close (snd (Pass.embed_observations ollama lmstudio limit 0 c)) = Store.close c.
Proof.
  intros Hsel Hshort He.
  pose proof (select_pending_run limit c) as Hrun. rewrite Hsel in Hrun.
  destruct Hrun as (Hc1 & _).
  assert (Hres : exists c2,
            Pass.embed_observations ollama lmstudio limit 0 c = (Store.Raise, c2) /\
            Store.committed c2 = Store.committed c).
  { unfold Pass.embed_observations. unfold Store.bind at 1. rewrite Hsel.
    unfold Store.bind at 1. cbn [Pass.embed_loop]. unfold Store.bind at 1.
    unfold Pass.embed_one.
    destruct (Chunker.MAX_CHUNK_SIZE <? Text.len (Pass.pending_text obs)) eqn:E;
      [apply Z.ltb_lt in E; lia | ].
    unfold Pass.embed_whole. rewrite He. unfold Store.bind at 1.
    pose proof (update_embedding_run e (Pass.id obs) c1) as Hup.
    destruct (Pass.update_embedding e (Pass.id obs) c1) as [[[] | ] c2].
    - destruct Hup as (Hc2 & _). cbn. exists c2. split; [reflexivity | congruence].
    - cbn. exists c2. split; [reflexivity | congruence]. }
  destruct Hres as (c2 & -> & Hc2). split; [reflexivity | exact Hc2].
Qed.

Lemma embed_observations_batch_zero_witness :
  fst (Pass.embed_observations ollama_answers refused None 0 short_store) = Store.Raise /\
  Store.close (snd (Pass.embed_observations ollama_answers refused None 0 short_store))
  = Store.close short_store.
Proof.
  apply (embed_observations_batch_zero ollama_answers refused None short_store short_store
           {| Pass.id := 7; Pass.pending_entity := 1; Pass.pending_text := fox |} []
           (Json.JArr (repeat (Json.JNum 1) 768))).
  - vm_compute. reflexivity.
  - vm_compute. discriminate.
  - vm_compute. reflexivity.
Defined.

(** ** The pages of the archive *)

(** X28.  The pages of the archive add up.  The page size lies within
    1..200 and the page number is at least 1.  When the offset of the page
    is no [bigint] the store refuses the query and there is no page;
    otherwise the page holds the rows that are left from its offset on, a
    full page at most, and the number of pages answered is the least that
    holds all the matching rows, so that every page up to it has rows and
    every page after it is empty. *)
Theorem api_archive_pages (names : gmap Z string) (ilike : string -> string -> bool)
  (t : Store.tables) (page per_page : option Z) (search : string) (entity : option Z) :
  match Dashboard.api_archive names ilike t page per_page search entity with
  | Some r =>
      Dashboard.page r = Z.max 1 (default 1 page) /\
      Dashboard.per_page r = Z.min 200 (Z.max 1 (default 50 per_page)) /\
      1 <= Dashboard.page r /\
      1 <= Dashboard.per_page r <= 200 /\
      (Dashboard.page r - 1) * Dashboard.per_page r <= Store.BIGINT_MAX /\
      0 <= Dashboard.total r /\
      Z.of_nat (length (Dashboard.page_rows r))
      = Z.max 0 (Z.min (Dashboard.per_page r)
                   (Dashboard.total r - (Dashboard.page r - 1) * Dashboard.per_page r)) /\
      (Dashboard.pages r - 1) * Dashboard.per_page r < Dashboard.total r
      <= Dashboard.pages r * Dashboard.per_page r /\
      (Dashboard.page r <= Dashboard.pages r <-> Dashboard.page_rows r <> [])
  | None =>
      Store.BIGINT_MAX
      < (Z.max 1 (default 1 page) - 1) * Z.min 200 (Z.max 1 (default 50 per_page))
  end.
Proof.
  unfold Dashboard.api_archive. cbv zeta.
  set (p := Z.max 1 (default 1 page)).
  set (pp := Z.min 200 (Z.max 1 (default 50 per_page))).
  destruct (Store.BIGINT_MAX <? (p - 1) * pp) eqn:Hbig; [apply Z.ltb_lt, Hbig | ].
  apply Z.ltb_ge in Hbig.
  cbn [Dashboard.page Dashboard.per_page Dashboard.total Dashboard.pages Dashboard.page_rows].
  set (matching := List.filter (Dashboard.archive_filter ilike search entity)
                     (map_to_list (Store.observations_archive t))).
  match goal with
  | |- context [drop _ ?l] => set (sorted := l)
  end.
  assert (Hlen : length sorted = length matching).
  { apply Permutation_length. apply merge_sort_Permutation. }
  set (n := Z.of_nat (length matching)).
  assert (Hp : 1 <= p) by (unfold p; lia).
  assert (Hpp : 1 <= pp <= 200) by (unfold pp; lia).
  assert (Hn : 0 <= n) by (unfold n; lia).
  assert (Hrows : Z.of_nat (length (take (Z.to_nat pp) (drop (Z.to_nat ((p - 1) * pp)) sorted)))
                  = Z.max 0 (Z.min pp (n - (p - 1) * pp))).
  { rewrite length_take, length_drop, Hlen. unfold n.
    assert (0 <= (p - 1) * pp) by nia. lia. }
  assert (Hpages : ((n + pp - 1) / pp - 1) * pp < n <= (n + pp - 1) / pp * pp).
  { pose proof (Z.div_mod (n + pp - 1) pp ltac:(lia)) as Hdiv.
    pose proof (Z.mod_pos_bound (n + pp - 1) pp ltac:(lia)) as Hmod.
    set (q := (n + pp - 1) / pp) in *. set (m := (n + pp - 1) mod pp) in *. nia. }
  split; [reflexivity | ]. split; [reflexivity | ].
  split; [exact Hp | ]. split; [exact Hpp | ]. split; [exact Hbig | ]. split; [exact Hn | ].
  rewrite length_map. split; [exact Hrows | ]. split; [exact Hpages | ].
  set (q := (n + pp - 1) / pp) in *.
  split.
  - intros Hle Hnil. apply (f_equal (@length _)) in Hnil.
    rewrite length_map in Hnil. cbn [length] in Hnil.
    assert ((p - 1) * pp <= (q - 1) * pp) by nia. lia.
  - intros Hne. destruct (Z_le_gt_dec p q) as [Hle | Hgt]; [exact Hle | exfalso].
    apply Hne.
    assert (Hzero : length (take (Z.to_nat pp) (drop (Z.to_nat ((p - 1) * pp)) sorted)) = O).
    { assert (q * pp <= (p - 1) * pp) by nia. lia. }
    apply nil_length_inv in Hzero. rewrite Hzero. reflexivity.
Qed.
